(** * The heap broker of the optimizing compiler (js-heap-broker.cc)

    A shallow embedding of [src/deps/v8/src/compiler/js-heap-broker.cc]:

    - [Module Broker]: the zone-allocated [ObjectData] records, the
      address-keyed cache [refs_], the broker mode, [GetData],
      [GetOrCreateData], [AddData], the [Is##Name]/[As##Name] pairs, the
      [ObjectRef] constructor, [ObjectRef::equals] and a few accessors;
    - [Module FastLiteral]: [IsFastLiteralHelper] and
      [AllocationSiteRef::IsFastLiteral];
    - [Module BrokerMore]: [JSHeapBroker::SerializeStandardObjects],
      [ObjectRef::IsSmi], [ObjectRef::Is##Name], [ObjectRef::oddball_type]
      and [ObjectRef::OddballToNumber].

    The live heap, the flags and the constants that are declared in headers
    the file includes are taken as parameters. *)

From stdpp Require Import gmap list.
From Stdlib Require Import ZArith Lia.

Module Broker.

(** ** Data *)

(** [Handle<Object>::address()], the key of [refs_]. *)
Definition Address := N.

(** [InstanceType] is a 16-bit enum; only equality and the
    [InstanceTypeChecker] predicates are used on it. *)
Definition InstanceType := N.

(** [JSHeapBroker::BrokerMode]. *)
Inductive BrokerMode := kDisabled | kSerializing | kSerialized.

Definition BrokerMode_eqb (a b : BrokerMode) : bool :=
  match a, b with
  | kDisabled, kDisabled | kSerializing, kSerializing
  | kSerialized, kSerialized => true
  | _, _ => false
  end.

Inductive OddballType :=
  kNone | kBoolean | kUndefined | kNull | kHole | kUninitialized | kOther.

(** [HeapObjectType]: instance type, flag bits, oddball type. *)
Record HeapObjectType := {
  instance_type : InstanceType;
  flags : Z;
  oddball_type : OddballType
}.

Definition kUndetectable : Z := Z.shiftl 1 0.
Definition kCallable : Z := Z.shiftl 1 1.

(** The names of HEAP_BROKER_OBJECT_LIST, one per [Name##Data] class that
    the file declares (lines 45-131). *)
Inductive DataClass :=
  | AllocationSiteData | CellData | CodeData | ContextData
  | FeedbackVectorData | FixedArrayData | FixedArrayBaseData
  | FixedDoubleArrayData | HeapNumberData | HeapObjectData
  | InternalizedStringData | JSArrayData | JSFunctionData
  | JSGlobalProxyData | JSObjectData | JSRegExpData | MapData | ModuleData
  | MutableHeapNumberData | NameData | NativeContextData | PropertyCellData
  | ScopeInfoData | ScriptContextTableData | SharedFunctionInfoData
  | StringData.

(** [ObjectData*]: an index into the broker's zone, or [nullptr]. *)
Definition ObjectDataPtr := option nat.
Definition nullptr : ObjectDataPtr := None.

(** One zone object.  The members of [ObjectData] and of the subclasses
    that declare members ([HeapObjectData], [JSFunctionData],
    [NativeContextData]) are fields of one record; a member a constructor
    has not initialised yet (or that the class of the object does not have)
    is [None].  The [broker] back pointer is the state that is threaded
    through every operation. *)
Record ObjectData := {
  ObjectData_object : Address;
  ObjectData_is_smi : bool;
  HeapObjectData_type : option HeapObjectType;
  HeapObjectData_map : ObjectDataPtr;
  JSFunctionData_shared : ObjectDataPtr;
  NativeContextData_sloppy_arguments_map_ : ObjectDataPtr
}.

(** The broker: [refs_], [mode_] and the records allocated in [zone_]. *)
Record JSHeapBroker := {
  refs_ : gmap Address nat;
  mode_ : BrokerMode;
  zone_ : list ObjectData
}.

(** The flags the file reads ([FLAG_trace_heap_broker] only prints, and is
    left out). *)
Record Flags := {
  FLAG_concurrent_compiler_frontend : bool;
  FLAG_strict_heap_broker : bool
}.

(** What the file asks of the isolate and of the live heap.  The heap does
    not change while the broker runs; the statements that are about a
    changing heap compare runs on two isolates. *)
Record Isolate := {
  (** [handle_scope_data()->canonical_scope] is not null *)
  canonical_scope : bool;
  (** [object->IsSmi()] and [object->Is##Name()] *)
  Object_IsSmi : Address -> bool;
  Object_Is : DataClass -> Address -> bool;
  (** [heap_object->map()] *)
  HeapObject_map : Address -> Address;
  (** fields of a [Map] *)
  Map_instance_type : Address -> InstanceType;
  Map_is_undetectable : Address -> bool;
  Map_is_callable : Address -> bool;
  (** [ReadOnlyRoots] *)
  undefined_map : Address;
  null_map : Address;
  boolean_map : Address;
  the_hole_map : Address;
  uninitialized_map : Address;
  (** [function->shared()], [context->sloppy_arguments_map()] *)
  JSFunction_shared : Address -> Address;
  Context_sloppy_arguments_map : Address -> Address;
  (** [heap_number->value()] (the bits of the double), [string->length()] *)
  HeapNumber_value : Address -> N;
  String_length : Address -> Z
}.

(** ** Fatal checks and state

    A failed [CHECK] aborts the process: [Fatal].  [OutOfFuel] is the model
    running out of recursion budget, never a behaviour of the code. *)
Inductive Result (A : Type) :=
  | Ok (a : A) (b : JSHeapBroker)
  | Fatal
  | OutOfFuel.
Arguments Ok {A} a b.
Arguments Fatal {A}.
Arguments OutOfFuel {A}.

Definition M (A : Type) := JSHeapBroker -> Result A.

Definition ret {A} (a : A) : M A := fun b => Ok a b.

Definition bind {A B} (c : M A) (k : A -> M B) : M B :=
  fun b => match c b with
           | Ok a b1 => k a b1
           | Fatal => Fatal
           | OutOfFuel => OutOfFuel
           end.

Declare Scope broker_scope.
Delimit Scope broker_scope with broker.
Notation "x <- c ;; k" := (bind c (fun x => k))
  (at level 100, c at next level, right associativity) : broker_scope.
Notation "c ;;; k" := (bind c (fun _ => k))
  (at level 100, right associativity) : broker_scope.
Local Open Scope broker_scope.

Definition CHECK (c : bool) : M unit :=
  fun b => if c then Ok tt b else Fatal.

Definition CHECK_NOT_NULL (p : ObjectDataPtr) : M unit :=
  fun b => match p with Some _ => Ok tt b | None => Fatal end.

Definition get : M JSHeapBroker := fun b => Ok b b.

(** [p->...]: reading through a pointer.  A null or wild pointer is a crash
    in the code; the model counts that as fatal too. *)
Definition deref (p : ObjectDataPtr) : M ObjectData :=
  fun b => match p with
           | Some i => match zone_ b !! i with
                       | Some d => Ok d b
                       | None => Fatal
                       end
           | None => Fatal
           end.

(** Initialising a member of the object at [this]. *)
Definition init_member (this : nat) (f : ObjectData -> ObjectData) : M unit :=
  fun b => match zone_ b !! this with
           | Some d => Ok tt {| refs_ := refs_ b; mode_ := mode_ b;
                                zone_ := <[this := f d]> (zone_ b) |}
           | None => Fatal
           end.

Definition set_type (t : HeapObjectType) (d : ObjectData) : ObjectData :=
  {| ObjectData_object := ObjectData_object d;
     ObjectData_is_smi := ObjectData_is_smi d;
     HeapObjectData_type := Some t;
     HeapObjectData_map := HeapObjectData_map d;
     JSFunctionData_shared := JSFunctionData_shared d;
     NativeContextData_sloppy_arguments_map_ :=
       NativeContextData_sloppy_arguments_map_ d |}.

Definition set_map (m : ObjectDataPtr) (d : ObjectData) : ObjectData :=
  {| ObjectData_object := ObjectData_object d;
     ObjectData_is_smi := ObjectData_is_smi d;
     HeapObjectData_type := HeapObjectData_type d;
     HeapObjectData_map := m;
     JSFunctionData_shared := JSFunctionData_shared d;
     NativeContextData_sloppy_arguments_map_ :=
       NativeContextData_sloppy_arguments_map_ d |}.

Definition set_shared (s : ObjectDataPtr) (d : ObjectData) : ObjectData :=
  {| ObjectData_object := ObjectData_object d;
     ObjectData_is_smi := ObjectData_is_smi d;
     HeapObjectData_type := HeapObjectData_type d;
     HeapObjectData_map := HeapObjectData_map d;
     JSFunctionData_shared := s;
     NativeContextData_sloppy_arguments_map_ :=
       NativeContextData_sloppy_arguments_map_ d |}.

Definition set_sloppy_arguments_map_ (s : ObjectDataPtr) (d : ObjectData)
  : ObjectData :=
  {| ObjectData_object := ObjectData_object d;
     ObjectData_is_smi := ObjectData_is_smi d;
     HeapObjectData_type := HeapObjectData_type d;
     HeapObjectData_map := HeapObjectData_map d;
     JSFunctionData_shared := JSFunctionData_shared d;
     NativeContextData_sloppy_arguments_map_ := s |}.

Section Code.

(** [InstanceTypeChecker::Is##Name] and [ODDBALL_TYPE] come from headers. *)
Variable InstanceTypeChecker_Is : DataClass -> InstanceType -> bool.
Variable ODDBALL_TYPE : InstanceType.
Variable flag : Flags.
Variable isolate : Isolate.

(** [JSHeapBroker::JSHeapBroker] *)
Definition JSHeapBroker_new : JSHeapBroker :=
  {| refs_ := ∅;
     mode_ := if FLAG_concurrent_compiler_frontend flag
              then kSerializing else kDisabled;
     zone_ := [] |}.

(** [JSHeapBroker::SerializingAllowed] *)
Definition SerializingAllowed (b : JSHeapBroker) : bool :=
  BrokerMode_eqb (mode_ b) kSerializing
  || (negb (FLAG_strict_heap_broker flag)
      && BrokerMode_eqb (mode_ b) kSerialized).

(** [JSHeapBroker::HeapObjectTypeFromMap] *)
Definition HeapObjectTypeFromMap (map : Address) : HeapObjectType :=
  let oddball :=
    if N.eqb (Map_instance_type isolate map) ODDBALL_TYPE then
      if N.eqb map (undefined_map isolate) then kUndefined
      else if N.eqb map (null_map isolate) then kNull
      else if N.eqb map (boolean_map isolate) then kBoolean
      else if N.eqb map (the_hole_map isolate) then kHole
      else if N.eqb map (uninitialized_map isolate) then kUninitialized
      else kOther
    else kNone in
  let flags0 := 0%Z in
  let flags1 := if Map_is_undetectable isolate map
                then Z.lor flags0 kUndetectable else flags0 in
  let flags2 := if Map_is_callable isolate map
                then Z.lor flags1 kCallable else flags1 in
  {| instance_type := Map_instance_type isolate map;
     flags := flags2;
     oddball_type := oddball |}.

(** [JSHeapBroker::GetData]: [nullptr] iff the handle is unknown. *)
Definition GetData (object : Address) (b : JSHeapBroker) : ObjectDataPtr :=
  refs_ b !! object.

(** [JSHeapBroker::AddData] (the tracing output is left out).  The second
    component of [refs_.insert] is false when the key is already there. *)
Definition AddData (object : Address) (data : nat) : M unit :=
  CHECK (canonical_scope isolate) ;;;
  fun b => match refs_ b !! object with
           | Some _ => Fatal
           | None => Ok tt {| refs_ := <[object := data]> (refs_ b);
                              mode_ := mode_ b; zone_ := zone_ b |}
           end.

(** A zone object whose [ObjectData] members are initialised. *)
Definition ObjectData_members (object_ : Address) (is_smi_ : bool)
  : ObjectData :=
  {| ObjectData_object := object_;
     ObjectData_is_smi := is_smi_;
     HeapObjectData_type := None;
     HeapObjectData_map := nullptr;
     JSFunctionData_shared := nullptr;
     NativeContextData_sloppy_arguments_map_ := nullptr |}.

(** [new (zone) ObjectData(broker, object, is_smi)]: the object is placed at
    the end of the zone, its three members are initialised, and the
    constructor body registers it with [AddData]. *)
Definition ObjectData_new (object_ : Address) (is_smi_ : bool) : M nat :=
  this <- (fun b =>
             Ok (length (zone_ b))
                {| refs_ := refs_ b; mode_ := mode_ b;
                   zone_ := zone_ b ++ [ObjectData_members object_ is_smi_]
                |}) ;;
  AddData object_ this ;;;
  ret this.

(** [ObjectData::Is##Name] (DEFINE_IS_AND_AS).  Outside [kDisabled] a
    record that is not a smi is read as a [HeapObjectData]; a record
    without a [type] member cannot be read that way. *)
Definition ObjectData_Is (name : DataClass) (this : ObjectDataPtr) : M bool :=
  d <- deref this ;;
  b <- get ;;
  if BrokerMode_eqb (mode_ b) kDisabled then
    ret (Object_Is isolate name (ObjectData_object d))
  else if ObjectData_is_smi d then ret false
  else match HeapObjectData_type d with
       | Some t => ret (InstanceTypeChecker_Is name (instance_type t))
       | None => fun _ => Fatal
       end.

(** [ObjectData::As##Name] *)
Definition ObjectData_As (name : DataClass) (this : ObjectDataPtr)
  : M ObjectDataPtr :=
  b <- get ;;
  CHECK (negb (BrokerMode_eqb (mode_ b) kDisabled)) ;;;
  is_name <- ObjectData_Is name this ;;
  CHECK is_name ;;;
  ret this.

(** *** Constructors

    [GetOrCreateData] and the constructors call each other; the
    constructors take the recursive call as [rec]. *)
Section Constructors.

Variable rec : Address -> M ObjectDataPtr.

(** The body of [HeapObjectData::HeapObjectData]. *)
Definition HeapObjectData_body (this : nat) : M unit :=
  d <- deref (Some this) ;;
  CHECK_NOT_NULL (HeapObjectData_map d) ;;;
  b <- get ;;
  CHECK (SerializingAllowed b).

(** [HeapObjectData::HeapObjectData]: base constructor, then [type], then
    [map], then the body. *)
Definition HeapObjectData_ctor (object_ : Address) (type_ : HeapObjectType)
  : M nat :=
  this <- ObjectData_new object_ false ;;
  init_member this (set_type type_) ;;;
  data <- rec (HeapObject_map isolate object_) ;;
  m <- ObjectData_As MapData data ;;
  init_member this (set_map m) ;;;
  HeapObjectData_body this ;;;
  ret this.

(** The body of [JSFunctionData::JSFunctionData]. *)
Definition JSFunctionData_body (this : nat) : M unit :=
  d <- deref (Some this) ;;
  CHECK_NOT_NULL (JSFunctionData_shared d).

(** [JSFunctionData::JSFunctionData] *)
Definition JSFunctionData_ctor (object_ : Address) (type_ : HeapObjectType)
  : M nat :=
  this <- HeapObjectData_ctor object_ type_ ;;
  data <- rec (JSFunction_shared isolate object_) ;;
  s <- ObjectData_As SharedFunctionInfoData data ;;
  init_member this (set_shared s) ;;;
  JSFunctionData_body this ;;;
  ret this.

(** [NativeContextData::NativeContextData] *)
Definition NativeContextData_ctor (object_ : Address) (type_ : HeapObjectType)
  : M nat :=
  this <- HeapObjectData_ctor object_ type_ ;;
  init_member this (set_sloppy_arguments_map_ nullptr) ;;;
  CHECK (Object_Is isolate NativeContextData object_) ;;;
  b <- get ;;
  CHECK (SerializingAllowed b) ;;;
  data <- rec (Context_sloppy_arguments_map isolate object_) ;;
  m <- ObjectData_As MapData data ;;
  init_member this (set_sloppy_arguments_map_ m) ;;;
  d <- deref (Some this) ;;
  CHECK_NOT_NULL (NativeContextData_sloppy_arguments_map_ d) ;;;
  ret this.

(** [HeapObjectData::Serialize] *)
Definition HeapObjectData_Serialize (object : Address) : M ObjectDataPtr :=
  b <- get ;;
  CHECK (SerializingAllowed b) ;;;
  map <- ret (HeapObject_map isolate object) ;;
  type <- ret (HeapObjectTypeFromMap map) ;;
  result <- (if Object_Is isolate JSFunctionData object then
               JSFunctionData_ctor object type
             else if Object_Is isolate NativeContextData object then
               NativeContextData_ctor object type
             else HeapObjectData_ctor object type) ;;
  ret (Some result).

(** [ObjectData::Serialize] *)
Definition ObjectData_Serialize (object : Address) : M ObjectDataPtr :=
  b <- get ;;
  CHECK (SerializingAllowed b) ;;;
  if Object_IsSmi isolate object then
    this <- ObjectData_new object true ;; ret (Some this)
  else HeapObjectData_Serialize object.

End Constructors.

(** [JSHeapBroker::GetOrCreateData].  [fuel] bounds how many constructors
    may be nested inside each other. *)
Fixpoint GetOrCreateData (fuel : nat) (object : Address) {struct fuel}
  : M ObjectDataPtr :=
  b <- get ;;
  CHECK (SerializingAllowed b) ;;;
  b <- get ;;
  data <- match GetData object b with
          | None =>
              match fuel with
              | O => fun _ => OutOfFuel
              | S fuel' => ObjectData_Serialize (GetOrCreateData fuel') object
              end
          | Some p => ret (Some p)
          end ;;
  CHECK_NOT_NULL data ;;;
  ret data.

(** ** The read facade *)

Record ObjectRef := { data_ : ObjectDataPtr }.

(** [ObjectRef::ObjectRef(JSHeapBroker*, Handle<Object>)] *)
Definition ObjectRef_new (fuel : nat) (object : Address) : M ObjectRef :=
  b <- get ;;
  data <- match mode_ b with
          | kSerialized =>
              if FLAG_strict_heap_broker flag then ret (GetData object b)
              else GetOrCreateData fuel object
          | kSerializing => GetOrCreateData fuel object
          | kDisabled =>
              match GetData object b with
              | None =>
                  this <- ObjectData_new object (Object_IsSmi isolate object) ;;
                  ret (Some this)
              | Some p => ret (Some p)
              end
          end ;;
  CHECK_NOT_NULL data ;;;
  ret {| data_ := data |}.

(** [ObjectRef::equals] *)
Definition ObjectRef_equals (this other : ObjectRef) : bool :=
  bool_decide (data_ this = data_ other).

(** [ObjectRef::object] *)
Definition ObjectRef_object (this : ObjectRef) : M Address :=
  d <- deref (data_ this) ;; ret (ObjectData_object d).

(** [HeapObjectRef::map].  [MapRef(data)] wraps the record pointer (that
    constructor is declared in the header). *)
Definition HeapObjectRef_map (fuel : nat) (this : ObjectRef) : M ObjectRef :=
  b <- get ;;
  if BrokerMode_eqb (mode_ b) kDisabled then
    object <- ObjectRef_object this ;;
    ObjectRef_new fuel (HeapObject_map isolate object)
  else
    data <- ObjectData_As HeapObjectData (data_ this) ;;
    d <- deref data ;;
    ret {| data_ := HeapObjectData_map d |}.

(** [HeapObjectRef::type] *)
Definition HeapObjectRef_type (this : ObjectRef) : M (option HeapObjectType) :=
  b <- get ;;
  if BrokerMode_eqb (mode_ b) kDisabled then
    object <- ObjectRef_object this ;;
    ret (Some (HeapObjectTypeFromMap (HeapObject_map isolate object)))
  else
    data <- ObjectData_As HeapObjectData (data_ this) ;;
    d <- deref data ;;
    ret (HeapObjectData_type d).

(** [JSFunctionRef::shared] *)
Definition JSFunctionRef_shared (fuel : nat) (this : ObjectRef)
  : M ObjectRef :=
  b <- get ;;
  if BrokerMode_eqb (mode_ b) kDisabled then
    object <- ObjectRef_object this ;;
    ObjectRef_new fuel (JSFunction_shared isolate object)
  else
    data <- ObjectData_As JSFunctionData (data_ this) ;;
    d <- deref data ;;
    ret {| data_ := JSFunctionData_shared d |}.

(** [NativeContextRef::sloppy_arguments_map] *)
Definition NativeContextRef_sloppy_arguments_map (fuel : nat)
  (this : ObjectRef) : M ObjectRef :=
  b <- get ;;
  if BrokerMode_eqb (mode_ b) kDisabled then
    object <- ObjectRef_object this ;;
    ObjectRef_new fuel (Context_sloppy_arguments_map isolate object)
  else
    data <- ObjectData_As NativeContextData (data_ this) ;;
    d <- deref data ;;
    ret {| data_ := NativeContextData_sloppy_arguments_map_ d |}.

(** [HeapNumberRef::value] *)
Definition HeapNumberRef_value (this : ObjectRef) : M N :=
  object <- ObjectRef_object this ;;
  ret (HeapNumber_value isolate object).

(** [StringRef::length] *)
Definition StringRef_length (this : ObjectRef) : M Z :=
  object <- ObjectRef_object this ;;
  ret (String_length isolate object).

End Code.

(** ** Notions the statements about the broker use *)

(** What a computation guarantees from [b]: [Q] on the result when it
    returns, [fatal_ok] when a check fails, [fuel_ok] when the model runs
    out of fuel. *)
Definition wp {A} (fatal_ok fuel_ok : Prop) (c : M A) (b : JSHeapBroker)
  (Q : A -> JSHeapBroker -> Prop) : Prop :=
  match c b with
  | Ok a b' => Q a b'
  | Fatal => fatal_ok
  | OutOfFuel => fuel_ok
  end.

(** [b'] is [b] after more records were created: same mode, every cache
    entry kept, every zone object of [b] unchanged. *)
Definition extends (b b' : JSHeapBroker) : Prop :=
  mode_ b' = mode_ b /\ refs_ b ⊆ refs_ b' /\ zone_ b `prefix_of` zone_ b'.

(** The broker after [this]'s record is replaced by [d]. *)
Definition with_record (b : JSHeapBroker) (this : nat) (d : ObjectData)
  : JSHeapBroker :=
  {| refs_ := refs_ b; mode_ := mode_ b; zone_ := <[this := d]> (zone_ b) |}.

(** The broker after [d] is allocated and registered for [object]. *)
Definition with_new_record (b : JSHeapBroker) (object : Address)
  (d : ObjectData) : JSHeapBroker :=
  {| refs_ := <[object := length (zone_ b)]> (refs_ b);
     mode_ := mode_ b;
     zone_ := zone_ b ++ [d] |}.

(** A call of [GetOrCreateData] for every object of the list, in order. *)
Fixpoint GetOrCreateData_seq
  (GetOrCreateData : Address -> M ObjectDataPtr) (objects : list Address)
  : M (list ObjectDataPtr) :=
  match objects with
  | [] => ret []
  | object :: rest =>
      data <- GetOrCreateData object ;;
      datas <- GetOrCreateData_seq GetOrCreateData rest ;;
      ret (data :: datas)
  end.

Section Invariants.

Variable ODDBALL_TYPE : InstanceType.
Variable InstanceTypeChecker_Is : DataClass -> InstanceType -> bool.
Variable isolate : Isolate.

(** The cache and the zone are in bijection: an entry for [h] points to a
    record for [h], and every record is the entry of its object. *)
Definition cache_inv (b : JSHeapBroker) : Prop :=
  (forall h p, refs_ b !! h = Some p ->
     exists d, zone_ b !! p = Some d /\ ObjectData_object d = h)
  /\ (forall p d, zone_ b !! p = Some d ->
       refs_ b !! ObjectData_object d = Some p).

(** Outside [kDisabled] a record says whether its object is a smi, and a
    record of a heap object carries the type of the object's map. *)
Definition typed_inv (b : JSHeapBroker) : Prop :=
  mode_ b <> kDisabled ->
  forall h p d, refs_ b !! h = Some p -> zone_ b !! p = Some d ->
    ObjectData_is_smi d = Object_IsSmi isolate h
    /\ (Object_IsSmi isolate h = false ->
        HeapObjectData_type d
        = Some (HeapObjectTypeFromMap ODDBALL_TYPE isolate
                  (HeapObject_map isolate h))).

Definition broker_inv (b : JSHeapBroker) : Prop :=
  cache_inv b /\ typed_inv b.

(** [objects] is a finite part of the heap that holds, with each object,
    the objects a constructor follows from it. *)
Definition heap_closed (objects : gset Address) : Prop :=
  forall o, o ∈ objects ->
    HeapObject_map isolate o ∈ objects
    /\ JSFunction_shared isolate o ∈ objects
    /\ Context_sloppy_arguments_map isolate o ∈ objects.

(** The typing discipline of the heap: the map of a heap object is a
    [Map], the [shared] of a function is a [SharedFunctionInfo], the
    [sloppy_arguments_map] of a native context is a [Map]. *)
Definition heap_well_typed (objects : gset Address) : Prop :=
  forall o, o ∈ objects -> Object_IsSmi isolate o = false ->
    let is_map m :=
      Object_IsSmi isolate m = false
      /\ InstanceTypeChecker_Is MapData
           (Map_instance_type isolate (HeapObject_map isolate m)) = true in
    is_map (HeapObject_map isolate o)
    /\ (Object_Is isolate JSFunctionData o = true ->
        Object_IsSmi isolate (JSFunction_shared isolate o) = false
        /\ InstanceTypeChecker_Is SharedFunctionInfoData
             (Map_instance_type isolate
                (HeapObject_map isolate (JSFunction_shared isolate o)))
           = true)
    /\ (Object_Is isolate JSFunctionData o = false ->
        Object_Is isolate NativeContextData o = true ->
        is_map (Context_sloppy_arguments_map isolate o)).

(** How many objects of [objects] have no record yet. *)
Definition unserialized (objects : gset Address) (b : JSHeapBroker) : nat :=
  size (objects ∖ dom (refs_ b)).

(** What a call of [GetOrCreateData] on [object] leaves behind. *)
Definition returns_record_of (object : Address) (b : JSHeapBroker)
  (data : ObjectDataPtr) (b' : JSHeapBroker) : Prop :=
  extends b b'
  /\ (exists i, data = Some i /\ refs_ b' !! object = Some i)
  /\ (broker_inv b -> broker_inv b').

(** [this] passes the checks of [As##Name]. *)
Definition narrows_to (name : DataClass) (this : ObjectDataPtr)
  (b : JSHeapBroker) : Prop :=
  mode_ b <> kDisabled
  /\ exists i d t, this = Some i /\ zone_ b !! i = Some d
       /\ ObjectData_is_smi d = false
       /\ HeapObjectData_type d = Some t
       /\ InstanceTypeChecker_Is name (instance_type t) = true.

(** The record [this] is being constructed for [o], from the broker
    [b0]. *)
Definition under_construction (o : Address) (b0 : JSHeapBroker) (this : nat)
  (b : JSHeapBroker) : Prop :=
  this = length (zone_ b0)
  /\ refs_ b0 !! o = None
  /\ extends b0 b
  /\ refs_ b !! o = Some this
  /\ (broker_inv b0 -> broker_inv b).

(** The record [this] has its [map] member set, to the record of the map
    of [o]. *)
Definition map_resolved (o : Address) (this : nat) (b : JSHeapBroker)
  : Prop :=
  exists d m, zone_ b !! this = Some d
    /\ HeapObjectData_map d = Some m
    /\ refs_ b !! HeapObject_map isolate o = Some m.

(** The record [this] has its [shared] member set, to the record of the
    shared function info of [o]. *)
Definition shared_resolved (o : Address) (this : nat) (b : JSHeapBroker)
  : Prop :=
  exists d s, zone_ b !! this = Some d
    /\ JSFunctionData_shared d = Some s
    /\ refs_ b !! JSFunction_shared isolate o = Some s.

Section Assumptions.

Variable flag : Flags.
(** Whether a failed check, and running out of fuel, are accepted. *)
Variables fatal_ok fuel_ok : Prop.
Variable objects : gset Address.

(** What is known of the heap: nothing when everything is accepted,
    closedness to exclude running out of fuel, and the typing discipline
    and a canonical handle scope to exclude a failed check. *)
Definition heap_assumptions : Prop :=
  (fuel_ok \/ heap_closed objects)
  /\ (fatal_ok \/
      (heap_closed objects /\ heap_well_typed objects
       /\ canonical_scope isolate = true)).

(** What is known at a call of [GetOrCreateData fuel object]. *)
Definition call_assumptions (fuel : nat) (object : Address)
  (b : JSHeapBroker) : Prop :=
  (fuel_ok \/ (object ∈ objects /\ unserialized objects b <= fuel))
  /\ (fatal_ok \/
      (object ∈ objects /\ SerializingAllowed flag b = true
       /\ broker_inv b)).

End Assumptions.

End Invariants.

(** An accessor that, once a snapshot exists, answers from the broker's
    records alone: the live heap has no influence on what it returns. *)
Definition reads_records_when_snapshot {A}
  (accessor : Isolate -> ObjectRef -> M A) : Prop :=
  forall (isolate1 isolate2 : Isolate) (this : ObjectRef) (b : JSHeapBroker),
    mode_ b <> kDisabled ->
    accessor isolate1 this b = accessor isolate2 this b.

(** The accessors of the facade answer from the records once a snapshot
    exists; stated for [HeapObjectRef::map], [HeapNumberRef::value] and
    [StringRef::length]. *)
Definition accessors_resolve_by_mode
  (InstanceTypeChecker_Is : DataClass -> InstanceType -> bool)
  (ODDBALL_TYPE : InstanceType) (flag : Flags) : Prop :=
  (forall fuel,
     reads_records_when_snapshot
       (fun isolate =>
          HeapObjectRef_map InstanceTypeChecker_Is ODDBALL_TYPE flag isolate
            fuel))
  /\ reads_records_when_snapshot HeapNumberRef_value
  /\ reads_records_when_snapshot StringRef_length.

(** ** A small heap to run the broker on

    10 is the map of maps; 11 to 14 are the maps of functions, shared
    function infos, strings and heap numbers; 20 is a function and 21 its
    shared function info; 30 and 31 are two strings with the same content;
    40 is a heap number; 1 is a smi. *)
Definition sample_objects : gset Address :=
  list_to_set [10; 11; 12; 13; 14; 20; 21; 30; 31; 40]%N.

Definition sample_InstanceTypeChecker_Is (name : DataClass)
  (t : InstanceType) : bool :=
  match name with
  | HeapObjectData => true
  | MapData => N.eqb t 1
  | JSFunctionData => N.eqb t 2
  | JSObjectData => N.eqb t 2
  | SharedFunctionInfoData => N.eqb t 3
  | StringData => N.eqb t 4
  | NameData => N.eqb t 4
  | HeapNumberData => N.eqb t 5
  | _ => false
  end.

Definition sample_isolate (string_length : Z) : Isolate :=
  let map_of (a : Address) : Address :=
    (if N.eqb a 20 then 11 else if N.eqb a 21 then 12
     else if N.eqb a 30 || N.eqb a 31 then 13
     else if N.eqb a 40 then 14 else 10)%N in
  let instance_type_of (m : Address) : InstanceType :=
    (if N.eqb m 10 then 1 else if N.eqb m 11 then 2
     else if N.eqb m 12 then 3 else if N.eqb m 13 then 4
     else if N.eqb m 14 then 5 else 0)%N in
  {| canonical_scope := true;
     Object_IsSmi := fun a => N.eqb a 1;
     Object_Is := fun name a =>
       negb (N.eqb a 1)
       && sample_InstanceTypeChecker_Is name (instance_type_of (map_of a));
     HeapObject_map := map_of;
     Map_instance_type := instance_type_of;
     Map_is_undetectable := fun _ => false;
     Map_is_callable := fun m => N.eqb m 11;
     undefined_map := 90;
     null_map := 91;
     boolean_map := 92;
     the_hole_map := 93;
     uninitialized_map := 94;
     JSFunction_shared := fun _ => 21;
     Context_sloppy_arguments_map := fun _ => 10;
     HeapNumber_value := fun _ => 0;
     String_length := fun _ => string_length |}%N.

Definition sample_flags (strict : bool) : Flags :=
  {| FLAG_concurrent_compiler_frontend := true;
     FLAG_strict_heap_broker := strict |}.

Definition sample_ODDBALL_TYPE : InstanceType := 9%N.

(** A sealed broker whose snapshot holds the string 30 and its map 13,
    and a ref to the string. *)
Definition sample_string_type : HeapObjectType :=
  {| instance_type := 4%N; flags := 0%Z; oddball_type := kNone |}.

Definition sample_map_type : HeapObjectType :=
  {| instance_type := 1%N; flags := 0%Z; oddball_type := kNone |}.

Definition sample_sealed_broker : JSHeapBroker :=
  {| refs_ := {[ 30%N := 0; 13%N := 1; 10%N := 2 ]};
     mode_ := kSerialized;
     zone_ :=
       [ set_map (Some 1)
           (set_type sample_string_type (ObjectData_members 30%N false));
         set_map (Some 2)
           (set_type sample_map_type (ObjectData_members 13%N false));
         set_map (Some 2)
           (set_type sample_map_type (ObjectData_members 10%N false)) ] |}.

Definition sample_string_ref : ObjectRef := {| data_ := Some 0 |}.

(** A broker in mode [kDisabled] with a plain record for the map 13. *)
Definition sample_disabled_broker : JSHeapBroker :=
  {| refs_ := {[ 13%N := 0 ]};
     mode_ := kDisabled;
     zone_ := [ ObjectData_members 13%N false ] |}.

End Broker.

Module FastLiteral.

(** ** Data *)

Definition Address := N.

(** [PropertyDetails::location()] *)
Inductive PropertyLocation := kField | kDescriptor.

Definition PropertyLocation_eqb (a b : PropertyLocation) : bool :=
  match a, b with
  | kField, kField | kDescriptor, kDescriptor => true
  | _, _ => false
  end.

(** What [IsFastLiteralHelper] asks of the live heap.  A boilerplate is read
    after [TryMigrateInstance] has run on it, so the observers describe the
    migrated object. *)
Record Heap := {
  JSObject_TryMigrateInstance : Address -> bool;
  JSObject_elements : Address -> Address;
  FixedArrayBase_length : Address -> Z;
  HeapObject_map : Address -> Address;
  fixed_cow_array_map : Address;
  JSObject_HasSmiOrObjectElements : Address -> bool;
  JSObject_HasDoubleElements : Address -> bool;
  FixedArray_get : Address -> Z -> Address;
  FixedArrayBase_Size : Address -> Z;
  JSObject_HasFastProperties : Address -> bool;
  JSObject_property_array_length : Address -> Z;
  Map_NumberOfOwnDescriptors : Address -> Z;
  (** [map->instance_descriptors()->GetDetails(i).location()] *)
  Map_GetDetails_location : Address -> Z -> PropertyLocation;
  (** [FieldIndex::ForDescriptor(map, i)] *)
  FieldIndex_ForDescriptor : Address -> Z -> Z;
  JSObject_IsUnboxedDoubleField : Address -> Z -> bool;
  JSObject_RawFastPropertyAt : Address -> Z -> Address;
  Object_IsJSObject : Address -> bool;
  AllocationSite_boilerplate : Address -> Address
}.

(** The heap operations the helper performs, in the order it performs
    them (most recent first). *)
Inductive Event :=
  | kTryMigrateInstance (boilerplate : Address)
  | kElementsGet (fast_elements : Address) (i : Z)
  | kElementsSize (elements : Address)
  | kIsUnboxedDoubleField (boilerplate : Address) (field_index : Z).

(** The budget behind the [int* max_properties] argument, and the trace.
    The budget starts non-negative and a call returns as soon as it has
    taken it below zero, so the [int] never leaves [-1 .. INT_MAX]. *)
Record State := {
  max_properties : Z;
  trace : list Event
}.

Definition log (e : Event) (st : State) : State :=
  {| max_properties := max_properties st; trace := e :: trace st |}.

(** The post-decrement of the budget behind [max_properties]. *)
Definition decrement (st : State) : State :=
  {| max_properties := max_properties st - 1; trace := trace st |}.

Definition kMaxFastLiteralDepth : nat := 3.

Section Code.

(** [kMaxRegularHeapObjectSize] and [JSObject::kMaxInObjectProperties]
    come from headers. *)
Variable kMaxRegularHeapObjectSize : Z.
Variable kMaxInObjectProperties : Z.
Variable heap : Heap.

Definition kMaxFastLiteralProperties : Z := kMaxInObjectProperties.

Section Loops.

(** The recursive call [IsFastLiteralHelper(_, max_depth - 1, _)]. *)
Variable rec : Address -> State -> bool * State.

(** The loop over the elements, with [n] iterations left and the loop
    variable at [i].  [(true, _)]: the loop ran to its end;
    [(false, _)]: it returned false. *)
Fixpoint elements_loop (fast_elements : Address) (n : nat) (i : Z)
  (st : State) {struct n} : bool * State :=
  match n with
  | O => (true, st)
  | S n' =>
      if Z.eqb (max_properties st) 0 then (false, decrement st)
      else
        let st := decrement st in
        let value := FixedArray_get heap fast_elements i in
        let st := log (kElementsGet fast_elements i) st in
        if Object_IsJSObject heap value then
          let '(ok, st) := rec value st in
          if ok then elements_loop fast_elements n' (i + 1) st
          else (false, st)
        else elements_loop fast_elements n' (i + 1) st
  end.

(** The loop over the own descriptors. *)
Fixpoint properties_loop (boilerplate : Address) (n : nat) (i : Z)
  (st : State) {struct n} : bool * State :=
  match n with
  | O => (true, st)
  | S n' =>
      let map := HeapObject_map heap boilerplate in
      if negb (PropertyLocation_eqb (Map_GetDetails_location heap map i)
                                    kField)
      then properties_loop boilerplate n' (i + 1) st
      else if Z.eqb (max_properties st) 0 then (false, decrement st)
      else
        let st := decrement st in
        let field_index := FieldIndex_ForDescriptor heap map i in
        let st := log (kIsUnboxedDoubleField boilerplate field_index) st in
        if JSObject_IsUnboxedDoubleField heap boilerplate field_index
        then properties_loop boilerplate n' (i + 1) st
        else
          let value :=
            JSObject_RawFastPropertyAt heap boilerplate field_index in
          if Object_IsJSObject heap value then
            let '(ok, st) := rec value st in
            if ok then properties_loop boilerplate n' (i + 1) st
            else (false, st)
          else properties_loop boilerplate n' (i + 1) st
  end.

(** "Check the elements": [(false, _)] when the helper returns false
    there. *)
Definition check_elements (boilerplate : Address) (st : State)
  : bool * State :=
  let elements := JSObject_elements heap boilerplate in
  if Z.ltb 0 (FixedArrayBase_length heap elements)
     && negb (N.eqb (HeapObject_map heap elements)
                    (fixed_cow_array_map heap))
  then
    if JSObject_HasSmiOrObjectElements heap boilerplate then
      elements_loop elements
        (Z.to_nat (FixedArrayBase_length heap elements)) 0 st
    else if JSObject_HasDoubleElements heap boilerplate then
      let st := log (kElementsSize elements) st in
      if Z.gtb (FixedArrayBase_Size heap elements) kMaxRegularHeapObjectSize
      then (false, st) else (true, st)
    else (false, st)
  else (true, st).

(** The rest of the body, from the out-of-object check on. *)
Definition check_properties (boilerplate : Address) (st : State)
  : bool * State :=
  if negb (JSObject_HasFastProperties heap boilerplate
           && Z.eqb (JSObject_property_array_length heap boilerplate) 0)
  then (false, st)
  else
    properties_loop boilerplate
      (Z.to_nat (Map_NumberOfOwnDescriptors heap
                   (HeapObject_map heap boilerplate))) 0 st.

End Loops.

(** [IsFastLiteralHelper].  [max_depth] is never negative (the DCHECK) and
    every recursive call passes [max_depth - 1]. *)
Fixpoint IsFastLiteralHelper (max_depth : nat) (boilerplate : Address)
  (st : State) {struct max_depth} : bool * State :=
  let st := log (kTryMigrateInstance boilerplate) st in
  if negb (JSObject_TryMigrateInstance heap boilerplate) then (false, st)
  else
    match max_depth with
    | O => (false, st)
    | S max_depth' =>
        let '(ok, st) :=
          check_elements (IsFastLiteralHelper max_depth') boilerplate st in
        if ok then
          check_properties (IsFastLiteralHelper max_depth') boilerplate st
        else (false, st)
    end.

(** [AllocationSiteRef::IsFastLiteral], on the address of the site. *)
Definition IsFastLiteral (site : Address) : bool :=
  let st := {| max_properties := kMaxFastLiteralProperties; trace := [] |} in
  let boilerplate := AllocationSite_boilerplate heap site in
  fst (IsFastLiteralHelper kMaxFastLiteralDepth boilerplate st).

End Code.

(** ** Notions the statements about the analysis use *)
Section Graph.

Variable heap : Heap.

(** [c] is an element of [o] that the helper walks: the backing store is
    not the copy-on-write one and holds smis or objects. *)
Definition element_of (o c : Address) : Prop :=
  let elements := JSObject_elements heap o in
  HeapObject_map heap elements <> fixed_cow_array_map heap /\
  JSObject_HasSmiOrObjectElements heap o = true /\
  exists i, (0 <= i < FixedArrayBase_length heap elements)%Z /\
            FixedArray_get heap elements i = c.

(** [c] is the value of an in-object field of [o] that is not an unboxed
    double. *)
Definition field_of (o c : Address) : Prop :=
  let map := HeapObject_map heap o in
  exists i, (0 <= i < Map_NumberOfOwnDescriptors heap map)%Z /\
            Map_GetDetails_location heap map i = kField /\
            JSObject_IsUnboxedDoubleField heap o
              (FieldIndex_ForDescriptor heap map i) = false /\
            JSObject_RawFastPropertyAt heap o
              (FieldIndex_ForDescriptor heap map i) = c.

(** [c] is a [JSObject] directly nested in [o]. *)
Definition nested_in (o c : Address) : Prop :=
  Object_IsJSObject heap c = true /\ (element_of o c \/ field_of o c).

(** The graph under [o] has an object at nesting level [n] ([o] itself is
    at level 1). *)
Inductive nested_to_depth : nat -> Address -> Prop :=
  | depth_one o : nested_to_depth 1 o
  | depth_more n o c :
      nested_in o c -> nested_to_depth n c -> nested_to_depth (S n) o.

(** How many of the descriptors [i .. i+n-1] of [map] are fields. *)
Fixpoint count_fields (map : Address) (n : nat) (i : Z) : Z :=
  match n with
  | O => 0
  | S n' =>
      (if PropertyLocation_eqb (Map_GetDetails_location heap map i) kField
       then 1 else 0) + count_fields map n' (i + 1)
  end.

(** The number of in-object fields of [o]. *)
Definition inline_fields (o : Address) : Z :=
  let map := HeapObject_map heap o in
  count_fields map (Z.to_nat (Map_NumberOfOwnDescriptors heap map)) 0.

(** An object whose properties are all in-object, with no element the
    helper walks and no field that holds an object. *)
Definition inline_only (o : Address) : Prop :=
  let map := HeapObject_map heap o in
  let elements := JSObject_elements heap o in
  JSObject_TryMigrateInstance heap o = true /\
  ((FixedArrayBase_length heap elements <= 0)%Z \/
   HeapObject_map heap elements = fixed_cow_array_map heap) /\
  JSObject_HasFastProperties heap o = true /\
  JSObject_property_array_length heap o = 0%Z /\
  forall i, (0 <= i < Map_NumberOfOwnDescriptors heap map)%Z ->
            Map_GetDetails_location heap map i = kField ->
            JSObject_IsUnboxedDoubleField heap o
              (FieldIndex_ForDescriptor heap map i) = true \/
            Object_IsJSObject heap
              (JSObject_RawFastPropertyAt heap o
                 (FieldIndex_ForDescriptor heap map i)) = false.

(** *** The size of a literal

    What the helper counts against the budget when every other check
    passes: the walk of the helper without the budget.  [None]: some other
    check fails. *)
Definition count_one (value rest : option Z) : option Z :=
  match value, rest with
  | Some k, Some r => Some (1 + k + r)%Z
  | _, _ => None
  end.

Section Size.

Variable kMaxRegularHeapObjectSize : Z.
(** The size of a nested object. *)
Variable rec_size : Address -> option Z.

Definition value_size (value : Address) : option Z :=
  if Object_IsJSObject heap value then rec_size value else Some 0%Z.

Fixpoint elements_size (fast_elements : Address) (n : nat) (i : Z)
  : option Z :=
  match n with
  | O => Some 0%Z
  | S n' =>
      count_one (value_size (FixedArray_get heap fast_elements i))
                (elements_size fast_elements n' (i + 1))
  end.

Fixpoint properties_size (boilerplate : Address) (n : nat) (i : Z)
  : option Z :=
  match n with
  | O => Some 0%Z
  | S n' =>
      let map := HeapObject_map heap boilerplate in
      if negb (PropertyLocation_eqb (Map_GetDetails_location heap map i)
                                    kField)
      then properties_size boilerplate n' (i + 1)
      else
        let field_index := FieldIndex_ForDescriptor heap map i in
        count_one
          (if JSObject_IsUnboxedDoubleField heap boilerplate field_index
           then Some 0%Z
           else value_size
                  (JSObject_RawFastPropertyAt heap boilerplate field_index))
          (properties_size boilerplate n' (i + 1))
  end.

Definition object_elements_size (boilerplate : Address) : option Z :=
  let elements := JSObject_elements heap boilerplate in
  if Z.ltb 0 (FixedArrayBase_length heap elements)
     && negb (N.eqb (HeapObject_map heap elements)
                    (fixed_cow_array_map heap))
  then
    if JSObject_HasSmiOrObjectElements heap boilerplate then
      elements_size elements
        (Z.to_nat (FixedArrayBase_length heap elements)) 0
    else if JSObject_HasDoubleElements heap boilerplate then
      if Z.gtb (FixedArrayBase_Size heap elements) kMaxRegularHeapObjectSize
      then None else Some 0%Z
    else None
  else Some 0%Z.

Definition object_properties_size (boilerplate : Address) : option Z :=
  if negb (JSObject_HasFastProperties heap boilerplate
           && Z.eqb (JSObject_property_array_length heap boilerplate) 0)
  then None
  else
    properties_size boilerplate
      (Z.to_nat (Map_NumberOfOwnDescriptors heap
                   (HeapObject_map heap boilerplate))) 0.

Definition object_size (boilerplate : Address) : option Z :=
  if negb (JSObject_TryMigrateInstance heap boilerplate) then None
  else
    match object_elements_size boilerplate,
          object_properties_size boilerplate with
    | Some e, Some p => Some (e + p)%Z
    | _, _ => None
    end.

End Size.

(** The number of elements and in-object fields in the graph under
    [boilerplate], down to [max_depth] levels; [None] when the graph is
    deeper or fails a check that is not about the budget. *)
Fixpoint literal_size (kMaxRegularHeapObjectSize : Z) (max_depth : nat)
  (boilerplate : Address) : option Z :=
  match max_depth with
  | O => None
  | S max_depth' =>
      object_size kMaxRegularHeapObjectSize
        (literal_size kMaxRegularHeapObjectSize max_depth') boilerplate
  end.

(** A literal of size [size] fits a budget of [budget]. *)
Definition fits (size : option Z) (budget : Z) : bool :=
  match size with
  | Some k => Z.leb k budget
  | None => false
  end.

(** The result [r] of a run from [st] is the verdict "the size fits the
    budget", and a successful run has taken the size off the budget. *)
Definition respects_budget (r : bool * State) (size : option Z) (st : State)
  : Prop :=
  fst r = fits size (max_properties st)
  /\ (fst r = true -> forall k, size = Some k ->
      max_properties (snd r) = (max_properties st - k)%Z).

(** The events that come with a decrement of the budget: one per element
    read and one per in-object field visited. *)
Definition counted (e : Event) : Z :=
  match e with
  | kElementsGet _ _ | kIsUnboxedDoubleField _ _ => 1
  | kTryMigrateInstance _ | kElementsSize _ => 0
  end.

Fixpoint counted_events (t : list Event) : Z :=
  match t with
  | [] => 0
  | e :: t' => counted e + counted_events t'
  end.

(** Budget left plus decrements accounted for by the trace. *)
Definition budget_and_visits (st : State) : Z :=
  max_properties st + counted_events (trace st).

(** The backing store an event reads, if it reads one. *)
Definition event_elements (e : Event) : option Address :=
  match e with
  | kElementsGet a _ | kElementsSize a => Some a
  | kTryMigrateInstance _ | kIsUnboxedDoubleField _ _ => None
  end.

(** An event that reads a backing store reads one that is not
    copy-on-write. *)
Definition reads_no_cow_store (e : Event) : Prop :=
  forall a, event_elements e = Some a ->
            HeapObject_map heap a <> fixed_cow_array_map heap.

End Graph.

(** ** Small heaps to run the analysis on *)

(** Every object has [nfields] in-object fields and a backing store of
    length [nelements] at address 100; the store has the copy-on-write map
    iff [cow]; a field holds the object at the next address when [nest],
    a smi otherwise. *)
Definition sample_heap (nfields nelements : Z) (cow nest : bool) : Heap :=
  {| JSObject_TryMigrateInstance := fun _ => true;
     JSObject_elements := fun _ => 100%N;
     FixedArrayBase_length := fun _ => nelements;
     HeapObject_map := fun a => if N.eqb a 100 then
                                  (if cow then 999%N else 998%N)
                                else 1000%N;
     fixed_cow_array_map := 999%N;
     JSObject_HasSmiOrObjectElements := fun _ => true;
     JSObject_HasDoubleElements := fun _ => false;
     FixedArray_get := fun _ _ => 0%N;
     FixedArrayBase_Size := fun _ => (16 + 8 * nelements)%Z;
     JSObject_HasFastProperties := fun _ => true;
     JSObject_property_array_length := fun _ => 0%Z;
     Map_NumberOfOwnDescriptors := fun _ => nfields;
     Map_GetDetails_location := fun _ _ => kField;
     FieldIndex_ForDescriptor := fun _ i => i;
     JSObject_IsUnboxedDoubleField := fun _ _ => false;
     JSObject_RawFastPropertyAt := fun o _ => if nest then (o + 1)%N else 0%N;
     Object_IsJSObject := fun a => N.ltb 0 a && N.ltb a 100;
     AllocationSite_boilerplate := fun _ => 1%N |}.

End FastLiteral.

(** * More of the broker

    [JSHeapBroker::SerializeStandardObjects], [ObjectRef::IsSmi],
    [ObjectRef::Is##Name], [ObjectRef::oddball_type] and
    [ObjectRef::OddballToNumber], and what a finished snapshot looks
    like. *)
Module BrokerMore.
Import Broker.
Local Open Scope broker_scope.

(** The handles [SerializeStandardObjects] asks the factory and the
    builtins of the isolate for. *)
Record StandardObjects := {
  empty_fixed_array : Address;
  eval_context_map : Address;
  function_context_map : Address;
  many_closures_cell_map : Address;
  length_string : Address;
  builtin_ArrayPrototypeShift : Address;
  builtin_CallFunctionForwardVarargs : Address
}.

(** The same handles, in the order the function visits them. *)
Definition standard_objects (roots : StandardObjects) : list Address :=
  [ empty_fixed_array roots; eval_context_map roots;
    function_context_map roots; many_closures_cell_map roots;
    length_string roots; builtin_ArrayPrototypeShift roots;
    builtin_CallFunctionForwardVarargs roots ].

(** The [double]s that [OddballToNumber] returns: an integer constant
    converted to [double], or [quiet_NaN()]. *)
Inductive Double := double_of_int (n : Z) | quiet_NaN.

Section Code.

Variable InstanceTypeChecker_Is : DataClass -> InstanceType -> bool.
Variable ODDBALL_TYPE : InstanceType.
Variable flag : Flags.
Variable isolate : Isolate.
Variable roots : StandardObjects.
(** [isolate->factory()->true_value()] *)
Variable true_value : Address.

Local Abbreviation GetOrCreateData' :=
  (GetOrCreateData InstanceTypeChecker_Is ODDBALL_TYPE flag isolate).

(** [JSHeapBroker::SerializeStandardObjects] (the tracing output is left
    out). *)
Definition SerializeStandardObjects (fuel : nat) : M unit :=
  GetOrCreateData' fuel (empty_fixed_array roots) ;;;
  GetOrCreateData' fuel (eval_context_map roots) ;;;
  GetOrCreateData' fuel (function_context_map roots) ;;;
  GetOrCreateData' fuel (many_closures_cell_map roots) ;;;
  GetOrCreateData' fuel (length_string roots) ;;;
  GetOrCreateData' fuel (builtin_ArrayPrototypeShift roots) ;;;
  GetOrCreateData' fuel (builtin_CallFunctionForwardVarargs roots) ;;;
  ret tt.

(** [ObjectRef::IsSmi] *)
Definition ObjectRef_IsSmi (this : ObjectRef) : M bool :=
  d <- deref (data_ this) ;; ret (ObjectData_is_smi d).

(** [ObjectRef::Is##Name] *)
Definition ObjectRef_Is (name : DataClass) (this : ObjectRef) : M bool :=
  ObjectData_Is InstanceTypeChecker_Is isolate name (data_ this).

(** [ObjectRef::As##Name]: the ref of the subclass wraps the same record
    pointer.  The [DCHECK(Is##Name())] is compiled in debug builds only. *)
Definition ObjectRef_As (name : DataClass) (this : ObjectRef) : ObjectRef :=
  {| data_ := data_ this |}.

(** [ObjectRef::oddball_type].  [HeapObjectRef::type] has a value whenever
    it returns; the other branch of the match is never taken. *)
Definition ObjectRef_oddball_type (this : ObjectRef) : M OddballType :=
  smi <- ObjectRef_IsSmi this ;;
  if smi then ret kNone
  else
    type <- HeapObjectRef_type InstanceTypeChecker_Is ODDBALL_TYPE isolate
              (ObjectRef_As HeapObjectData this) ;;
    match type with
    | Some t => ret (oddball_type t)
    | None => fun _ => Fatal
    end.

(** [ObjectRef::OddballToNumber]; [UNREACHABLE()] is fatal. *)
Definition ObjectRef_OddballToNumber (fuel : nat) (this : ObjectRef)
  : M Double :=
  type <- ObjectRef_oddball_type this ;;
  match type with
  | kBoolean =>
      true_ref <- ObjectRef_new InstanceTypeChecker_Is ODDBALL_TYPE flag
                    isolate fuel true_value ;;
      ret (if ObjectRef_equals this true_ref
           then double_of_int 1 else double_of_int 0)
  | kUndefined => ret quiet_NaN
  | kNull => ret (double_of_int 0)
  | _ => fun _ => Fatal
  end.

End Code.

(** ** Notions the statements use *)
Section Snapshot.

Variable isolate : Isolate.

(** The record at [p], if it is the record of a heap object (it has a
    [type]), has every member the constructors resolve: its [map] is the
    record of the map of its object; for a function, [shared] is the
    record of the function's shared function info; for a native context,
    [sloppy_arguments_map_] is the record of that map. *)
Definition edges_resolved (b : JSHeapBroker) (p : nat) : Prop :=
  forall d, zone_ b !! p = Some d -> HeapObjectData_type d <> None ->
    let o := ObjectData_object d in
    (exists m, HeapObjectData_map d = Some m
               /\ refs_ b !! HeapObject_map isolate o = Some m)
    /\ (Object_Is isolate JSFunctionData o = true ->
        exists s, JSFunctionData_shared d = Some s
                  /\ refs_ b !! JSFunction_shared isolate o = Some s)
    /\ (Object_Is isolate JSFunctionData o = false ->
        Object_Is isolate NativeContextData o = true ->
        exists m, NativeContextData_sloppy_arguments_map_ d = Some m
                  /\ refs_ b !! Context_sloppy_arguments_map isolate o
                     = Some m).

(** Every record of the broker is complete. *)
Definition snapshot_complete (b : JSHeapBroker) : Prop :=
  forall p, edges_resolved b p.

(** The records allocated between [b] and [b'] are complete in [b']. *)
Definition new_records_resolved (b b' : JSHeapBroker) : Prop :=
  forall p, length (zone_ b) <= p -> edges_resolved b' p.

(** The record [this] has its [sloppy_arguments_map_] member set, to the
    record of the sloppy arguments map of [o]. *)
Definition sloppy_arguments_map_resolved (o : Address) (this : nat)
  (b : JSHeapBroker) : Prop :=
  exists d m, zone_ b !! this = Some d
    /\ NativeContextData_sloppy_arguments_map_ d = Some m
    /\ refs_ b !! Context_sloppy_arguments_map isolate o = Some m.

End Snapshot.

(** ** A heap with oddballs

    10 is the map of maps; 90, 91 and 92 are the maps of undefined, null
    and the booleans; 50 is true, 51 false, 52 undefined, 53 null; 60 is
    an oddball of another kind, with the map 95; 1 is a smi. *)
Definition sample_oddball_objects : gset Address :=
  list_to_set [10; 50; 51; 52; 53; 60; 90; 91; 92; 95]%N.

Definition sample_oddball_isolate : Isolate :=
  let map_of (a : Address) : Address :=
    (if N.eqb a 50 || N.eqb a 51 then 92 else if N.eqb a 52 then 90
     else if N.eqb a 53 then 91 else if N.eqb a 60 then 95 else 10)%N in
  let instance_type_of (m : Address) : InstanceType :=
    (if N.eqb m 10 then 1
     else if N.eqb m 90 || N.eqb m 91 || N.eqb m 92 || N.eqb m 95 then 9
     else 0)%N in
  {| canonical_scope := true;
     Object_IsSmi := fun a => N.eqb a 1;
     Object_Is := fun name a =>
       negb (N.eqb a 1)
       && sample_InstanceTypeChecker_Is name (instance_type_of (map_of a));
     HeapObject_map := map_of;
     Map_instance_type := instance_type_of;
     Map_is_undetectable := fun m => N.eqb m 90 || N.eqb m 91;
     Map_is_callable := fun _ => false;
     undefined_map := 90;
     null_map := 91;
     boolean_map := 92;
     the_hole_map := 93;
     uninitialized_map := 94;
     JSFunction_shared := fun _ => 10;
     Context_sloppy_arguments_map := fun _ => 10;
     HeapNumber_value := fun _ => 0;
     String_length := fun _ => 0%Z |}%N.

(** The standard objects of the sample heap of [Broker]. *)
Definition sample_roots : StandardObjects :=
  {| empty_fixed_array := 40;
     eval_context_map := 11;
     function_context_map := 12;
     many_closures_cell_map := 13;
     length_string := 30;
     builtin_ArrayPrototypeShift := 20;
     builtin_CallFunctionForwardVarargs := 20 |}%N.

(** The broker after [SerializeStandardObjects] on the sample heap of
    [Broker], from a fresh broker in mode [kSerializing]. *)
Definition sample_snapshot_broker : JSHeapBroker := Eval vm_compute in
  match SerializeStandardObjects sample_InstanceTypeChecker_Is
          sample_ODDBALL_TYPE (sample_flags true) (sample_isolate 3)
          sample_roots 10 (JSHeapBroker_new (sample_flags true)) with
  | Ok _ b => b
  | _ => JSHeapBroker_new (sample_flags true)
  end.

(** The broker after false, true, undefined, null and the other oddball
    are serialized, in this order. *)
Definition sample_oddball_broker : JSHeapBroker := Eval vm_compute in
  match GetOrCreateData_seq
          (GetOrCreateData sample_InstanceTypeChecker_Is sample_ODDBALL_TYPE
             (sample_flags true) sample_oddball_isolate 10)
          [51; 50; 52; 53; 60]%N (JSHeapBroker_new (sample_flags true)) with
  | Ok _ b => b
  | _ => JSHeapBroker_new (sample_flags true)
  end.

(** A sealed broker without any record. *)
Definition sample_empty_sealed_broker : JSHeapBroker :=
  {| refs_ := ∅; mode_ := kSerialized; zone_ := [] |}.

End BrokerMore.

(** * More about the fast-literal analysis: further sample heaps *)
Module FastLiteralMore.
Import FastLiteral.

(** [heap] with other answers to [HasFastProperties],
    [HasSmiOrObjectElements] and [HasDoubleElements]. *)
Definition sample_heap_with (heap : Heap) (fast_properties : Address -> bool)
  (smi_or_object_elements double_elements : bool) : Heap :=
  {| JSObject_TryMigrateInstance := JSObject_TryMigrateInstance heap;
     JSObject_elements := JSObject_elements heap;
     FixedArrayBase_length := FixedArrayBase_length heap;
     HeapObject_map := HeapObject_map heap;
     fixed_cow_array_map := fixed_cow_array_map heap;
     JSObject_HasSmiOrObjectElements := fun _ => smi_or_object_elements;
     JSObject_HasDoubleElements := fun _ => double_elements;
     FixedArray_get := FixedArray_get heap;
     FixedArrayBase_Size := FixedArrayBase_Size heap;
     JSObject_HasFastProperties := fast_properties;
     JSObject_property_array_length := JSObject_property_array_length heap;
     Map_NumberOfOwnDescriptors := Map_NumberOfOwnDescriptors heap;
     Map_GetDetails_location := Map_GetDetails_location heap;
     FieldIndex_ForDescriptor := FieldIndex_ForDescriptor heap;
     JSObject_IsUnboxedDoubleField := JSObject_IsUnboxedDoubleField heap;
     JSObject_RawFastPropertyAt := JSObject_RawFastPropertyAt heap;
     Object_IsJSObject := Object_IsJSObject heap;
     AllocationSite_boilerplate := AllocationSite_boilerplate heap |}.

(** The boilerplate 1 has one field, which holds the object 2; the object
    2 has dictionary properties. *)
Definition sample_dictionary_heap : Heap :=
  sample_heap_with (sample_heap 1 0 false true)
    (fun a => negb (N.eqb a 2)) true false.

(** Every object has a backing store of [nelements] doubles, of
    [16 + 8 * nelements] bytes. *)
Definition sample_double_heap (nelements : Z) : Heap :=
  sample_heap_with (sample_heap 1 nelements false false)
    (fun _ => true) false true.

End FastLiteralMore.

(** * Facts about the broker *)
Module BrokerFacts.
Import Broker.
Local Open Scope broker_scope.

(** ** Rules for [wp] *)
Section Rules.

Variables fatal_ok fuel_ok : Prop.

Lemma wp_ret {A} (a : A) b (Q : A -> JSHeapBroker -> Prop) :
  Q a b -> wp fatal_ok fuel_ok (ret a) b Q.
Proof. exact (fun H => H). Qed.

Lemma wp_bind {A B} (c : M A) (k : A -> M B) b Q :
  wp fatal_ok fuel_ok c b (fun a b1 => wp fatal_ok fuel_ok (k a) b1 Q) ->
  wp fatal_ok fuel_ok (bind c k) b Q.
Proof. unfold wp, bind. now destruct (c b). Qed.

Lemma wp_mono {A} (c : M A) b (Q Q' : A -> JSHeapBroker -> Prop) :
  wp fatal_ok fuel_ok c b Q -> (forall a b', Q a b' -> Q' a b') ->
  wp fatal_ok fuel_ok c b Q'.
Proof. unfold wp. destruct (c b); auto. Qed.

Lemma wp_get b (Q : JSHeapBroker -> JSHeapBroker -> Prop) :
  Q b b -> wp fatal_ok fuel_ok get b Q.
Proof. exact (fun H => H). Qed.

Lemma wp_CHECK (c : bool) b (Q : unit -> JSHeapBroker -> Prop) :
  fatal_ok \/ c = true -> (c = true -> Q tt b) ->
  wp fatal_ok fuel_ok (CHECK c) b Q.
Proof.
  unfold wp, CHECK. destruct c; [auto|]. now intros [?|?] _.
Qed.

Lemma wp_CHECK_NOT_NULL (p : ObjectDataPtr) b
  (Q : unit -> JSHeapBroker -> Prop) :
  fatal_ok \/ is_Some p -> (is_Some p -> Q tt b) ->
  wp fatal_ok fuel_ok (CHECK_NOT_NULL p) b Q.
Proof.
  unfold wp, CHECK_NOT_NULL. destruct p; [eauto|].
  intros [?|[? ?]] _; [assumption|discriminate].
Qed.

Lemma wp_deref (p : ObjectDataPtr) b (Q : ObjectData -> JSHeapBroker -> Prop) :
  fatal_ok \/ (exists i, p = Some i /\ is_Some (zone_ b !! i)) ->
  (forall i d, p = Some i -> zone_ b !! i = Some d -> Q d b) ->
  wp fatal_ok fuel_ok (deref p) b Q.
Proof.
  unfold wp, deref. intros Hok HQ. destruct p as [i|].
  - destruct (zone_ b !! i) as [d|] eqn:Hd; [eauto|].
    destruct Hok as [?|(j & [= <-] & [? Hj])]; [assumption|].
    congruence.
  - destruct Hok as [?|(j & [=] & _)]. assumption.
Qed.

Lemma wp_init_member this f b (Q : unit -> JSHeapBroker -> Prop) :
  fatal_ok \/ is_Some (zone_ b !! this) ->
  (forall d, zone_ b !! this = Some d -> Q tt (with_record b this (f d))) ->
  wp fatal_ok fuel_ok (init_member this f) b Q.
Proof.
  unfold wp, init_member. intros Hok HQ.
  destruct (zone_ b !! this) as [d|]; [now apply HQ|].
  destruct Hok as [?|[? ?]]; [assumption|discriminate].
Qed.

Lemma wp_out_of_fuel {A} b (Q : A -> JSHeapBroker -> Prop) :
  fuel_ok -> wp fatal_ok fuel_ok (fun _ => OutOfFuel) b Q.
Proof. exact (fun H => H). Qed.

End Rules.

(** Case analysis on the condition of the first conditional or match of
    the goal. *)
Ltac goal_case :=
  match goal with
  | |- context [match ?c with _ => _ end] => destruct c eqn:?
  end.

(** ** The state *)

Lemma extends_refl b : extends b b.
Proof. repeat split; reflexivity. Qed.

Lemma extends_trans b1 b2 b3 : extends b1 b2 -> extends b2 b3 -> extends b1 b3.
Proof.
  intros (Hm1 & Hr1 & Hz1) (Hm2 & Hr2 & Hz2). repeat split.
  - congruence.
  - etrans; eassumption.
  - etrans; eassumption.
Qed.

Lemma extends_zone b b' i d :
  extends b b' -> zone_ b !! i = Some d -> zone_ b' !! i = Some d.
Proof. intros (_ & _ & Hz) Hd. eapply prefix_lookup_Some; eassumption. Qed.

Lemma extends_refs b b' h p :
  extends b b' -> refs_ b !! h = Some p -> refs_ b' !! h = Some p.
Proof. intros (_ & Hr & _) Hp. eapply lookup_weaken; eassumption. Qed.

Lemma extends_with_record b0 b this d :
  extends b0 b -> length (zone_ b0) <= this ->
  extends b0 (with_record b this d).
Proof.
  intros (Hm & Hr & [l Hz]) Hthis. repeat split; cbn; [assumption..|].
  rewrite Hz, insert_app_r_alt by assumption. now eexists.
Qed.

Lemma extends_with_new_record b o d :
  refs_ b !! o = None -> extends b (with_new_record b o d).
Proof.
  intros Ho. repeat split; cbn.
  - now apply insert_subseteq.
  - now apply prefix_app_r.
Qed.

Lemma with_record_new b o d d' :
  with_record (with_new_record b o d) (length (zone_ b)) d'
  = with_new_record b o d'.
Proof.
  unfold with_record, with_new_record. cbn. f_equal.
  rewrite insert_app_r_alt by lia. now rewrite Nat.sub_diag.
Qed.

Lemma zone_with_new_record b o d :
  zone_ (with_new_record b o d) !! length (zone_ b) = Some d.
Proof. cbn. now apply list_lookup_middle. Qed.

Section Invariants.

Variable InstanceTypeChecker_Is : DataClass -> InstanceType -> bool.
Variable ODDBALL_TYPE : InstanceType.
Variable flag : Flags.
Variable isolate : Isolate.

Local Abbreviation typed_inv' := (typed_inv ODDBALL_TYPE isolate).
Local Abbreviation broker_inv' := (broker_inv ODDBALL_TYPE isolate).

Lemma cache_inv_with_record b this d d' :
  cache_inv b -> zone_ b !! this = Some d ->
  ObjectData_object d' = ObjectData_object d ->
  cache_inv (with_record b this d').
Proof.
  intros [H1 H2] Hthis Hobj. split; cbn.
  - intros h p Hp. destruct (H1 h p Hp) as (dp & Hdp & Hh).
    destruct (decide (this = p)) as [->|Hne].
    + exists d'. split; [|congruence].
      apply list_lookup_insert_eq. now apply lookup_lt_Some in Hdp.
    + exists dp. now rewrite list_lookup_insert_ne.
  - intros p dp Hdp. destruct (decide (this = p)) as [->|Hne].
    + rewrite list_lookup_insert_eq in Hdp
        by now apply lookup_lt_Some in Hthis.
      injection Hdp as <-. rewrite Hobj. now apply H2.
    + rewrite list_lookup_insert_ne in Hdp by assumption. now apply H2.
Qed.

Lemma typed_inv_with_record b this d d' :
  typed_inv' b -> zone_ b !! this = Some d ->
  ObjectData_is_smi d' = ObjectData_is_smi d ->
  HeapObjectData_type d' = HeapObjectData_type d ->
  typed_inv' (with_record b this d').
Proof.
  intros Ht Hthis Hsmi Htype Hmode h p dp Hp Hdp. cbn in *.
  destruct (decide (this = p)) as [->|Hne].
  - rewrite list_lookup_insert_eq in Hdp by now apply lookup_lt_Some in Hthis.
    injection Hdp as <-. rewrite Hsmi, Htype. now apply (Ht Hmode h p).
  - rewrite list_lookup_insert_ne in Hdp by assumption.
    now apply (Ht Hmode h p).
Qed.

Lemma broker_inv_with_record b this d d' :
  broker_inv' b -> zone_ b !! this = Some d ->
  ObjectData_object d' = ObjectData_object d ->
  ObjectData_is_smi d' = ObjectData_is_smi d ->
  HeapObjectData_type d' = HeapObjectData_type d ->
  broker_inv' (with_record b this d').
Proof.
  intros [Hc Ht] Hthis Hobj Hsmi Htype. split.
  - eapply cache_inv_with_record; eassumption.
  - eapply typed_inv_with_record; eassumption.
Qed.

Lemma cache_inv_with_new_record b o d :
  cache_inv b -> refs_ b !! o = None -> ObjectData_object d = o ->
  cache_inv (with_new_record b o d).
Proof.
  intros [H1 H2] Ho Hobj. split; cbn.
  - intros h p Hp. destruct (decide (o = h)) as [->|Hne].
    + rewrite lookup_insert_eq in Hp. injection Hp as <-.
      exists d. split; [apply list_lookup_middle; reflexivity|assumption].
    + rewrite lookup_insert_ne in Hp by assumption.
      destruct (H1 h p Hp) as (dp & Hdp & Hh). exists dp.
      split; [now apply lookup_app_l_Some|assumption].
  - intros p dp Hdp. apply lookup_app_Some in Hdp.
    destruct Hdp as [Hdp|[Hlen Hdp]].
    + specialize (H2 p dp Hdp).
      rewrite lookup_insert_ne; [assumption|congruence].
    + destruct (p - length (zone_ b)) as [|k] eqn:Hk; [|destruct k; discriminate].
      cbn in Hdp. injection Hdp as <-.
      replace p with (length (zone_ b)) by lia.
      rewrite Hobj. apply lookup_insert_eq.
Qed.

Lemma typed_inv_with_new_record b o d :
  cache_inv b -> typed_inv' b -> refs_ b !! o = None ->
  ObjectData_is_smi d = Object_IsSmi isolate o ->
  (Object_IsSmi isolate o = false ->
   HeapObjectData_type d
   = Some (HeapObjectTypeFromMap ODDBALL_TYPE isolate
             (HeapObject_map isolate o))) ->
  typed_inv' (with_new_record b o d).
Proof.
  intros [H1 _] Ht Ho Hsmi Htype Hmode h p dp Hp Hdp. cbn in *.
  destruct (decide (o = h)) as [->|Hne].
  - rewrite lookup_insert_eq in Hp. injection Hp as <-.
    rewrite list_lookup_middle in Hdp by reflexivity.
    injection Hdp as <-. auto.
  - rewrite lookup_insert_ne in Hp by assumption.
    destruct (H1 h p Hp) as (dp' & Hdp' & _).
    rewrite (lookup_app_l_Some _ _ _ _ Hdp') in Hdp. injection Hdp as <-.
    now apply (Ht Hmode h p).
Qed.

(** Two records of one broker that stand for the same object are the same
    record. *)
Lemma cache_inv_unique b p q dp dq :
  cache_inv b -> zone_ b !! p = Some dp -> zone_ b !! q = Some dq ->
  ObjectData_object dp = ObjectData_object dq -> p = q.
Proof.
  intros [_ H2] Hp Hq Hobj. apply H2 in Hp, Hq. congruence.
Qed.

(** Two entries of the cache for different objects point to different
    records. *)
Lemma cache_inv_injective b h1 h2 p :
  cache_inv b -> refs_ b !! h1 = Some p -> refs_ b !! h2 = Some p -> h1 = h2.
Proof.
  intros [H1 _] Hp1 Hp2.
  destruct (H1 _ _ Hp1) as (d1 & Hd1 & <-).
  destruct (H1 _ _ Hp2) as (d2 & Hd2 & <-). congruence.
Qed.

(** *** Counting the objects without a record *)

Lemma unserialized_mono objects b b' :
  refs_ b ⊆ refs_ b' -> unserialized objects b' <= unserialized objects b.
Proof.
  intros Hsub. apply subseteq_size. apply subseteq_dom in Hsub.
  intros x. rewrite !elem_of_difference. intros [Hx Hn].
  split; [assumption|]. intros Hd. apply Hn, Hsub, Hd.
Qed.

Lemma unserialized_lt objects b b' o :
  o ∈ objects -> refs_ b !! o = None -> refs_ b ⊆ refs_ b' ->
  is_Some (refs_ b' !! o) ->
  unserialized objects b' < unserialized objects b.
Proof.
  intros Ho Hnone Hsub Hsome. apply subset_size.
  apply subseteq_dom in Hsub. apply not_elem_of_dom in Hnone.
  apply elem_of_dom in Hsome. split.
  - intros x. rewrite !elem_of_difference. intros [Hx Hn].
    split; [assumption|]. intros Hd. apply Hn, Hsub, Hd.
  - intros Hrev. specialize (Hrev o). rewrite !elem_of_difference in Hrev.
    destruct Hrev as [_ Hn]; [split; assumption|]. apply Hn, Hsome.
Qed.

Lemma unserialized_zero objects b o :
  unserialized objects b = 0 -> o ∈ objects -> is_Some (refs_ b !! o).
Proof.
  intros Hz Ho. apply size_empty_inv in Hz. apply elem_of_dom.
  destruct (decide (o ∈ dom (refs_ b))); [assumption|set_solver].
Qed.

End Invariants.

(** ** The code *)
Section Calls.

Variable InstanceTypeChecker_Is : DataClass -> InstanceType -> bool.
Variable ODDBALL_TYPE : InstanceType.
Variable flag : Flags.
Variable isolate : Isolate.

Local Abbreviation broker_inv' := (broker_inv ODDBALL_TYPE isolate).
Local Abbreviation narrows_to' := (narrows_to InstanceTypeChecker_Is).
Local Abbreviation As := (ObjectData_As InstanceTypeChecker_Is isolate).
Local Abbreviation TypeFromMap :=
  (HeapObjectTypeFromMap ODDBALL_TYPE isolate).
Local Abbreviation GetOrCreateData' :=
  (GetOrCreateData InstanceTypeChecker_Is ODDBALL_TYPE flag isolate).

Lemma SerializingAllowed_mode b b' :
  mode_ b' = mode_ b -> SerializingAllowed flag b' = SerializingAllowed flag b.
Proof. unfold SerializingAllowed. now intros ->. Qed.

Lemma SerializingAllowed_not_disabled b :
  SerializingAllowed flag b = true -> mode_ b <> kDisabled.
Proof.
  unfold SerializingAllowed. destruct (mode_ b); [|discriminate..].
  cbn. now rewrite andb_false_r.
Qed.

(** *** [As##Name] *)

Lemma ObjectData_As_narrows name p b :
  narrows_to' name p b -> As name p b = Ok p b.
Proof.
  intros (Hmode & i & d & t & -> & Hd & Hsmi & Ht & Hname).
  unfold ObjectData_As, ObjectData_Is, bind, get, CHECK, deref, ret.
  destruct (mode_ b) eqn:Hm; [congruence| |]; cbn;
    rewrite Hd, Hm; cbn; now rewrite Hsmi, Ht, Hname.
Qed.

Lemma ObjectData_As_Ok name p b r b' :
  As name p b = Ok r b' -> r = p /\ b' = b /\ narrows_to' name p b.
Proof.
  unfold ObjectData_As, ObjectData_Is, bind, get, CHECK, deref, ret.
  destruct (mode_ b) eqn:Hmode; cbn; [discriminate| |];
    (destruct p as [i|]; [|discriminate];
     destruct (zone_ b !! i) as [d|] eqn:Hd; [|discriminate];
     rewrite Hmode; cbn;
     destruct (ObjectData_is_smi d) eqn:Hsmi; [discriminate|];
     destruct (HeapObjectData_type d) as [t|] eqn:Ht; [|discriminate];
     destruct (InstanceTypeChecker_Is name (instance_type t)) eqn:Hname;
       [|discriminate];
     intros [= <- <-]; repeat split; [congruence|];
     exists i, d, t; auto).
Qed.

Lemma ObjectData_As_terminates name p b : As name p b <> OutOfFuel.
Proof.
  unfold ObjectData_As, ObjectData_Is, bind, get, CHECK, deref, ret.
  destruct (mode_ b) eqn:Hmode; cbn; [discriminate| |];
    (destruct p as [i|]; [|discriminate];
     destruct (zone_ b !! i) as [d|]; [|discriminate];
     rewrite Hmode; cbn;
     destruct (ObjectData_is_smi d); [discriminate|];
     destruct (HeapObjectData_type d) as [t|]; [|discriminate];
     now destruct (InstanceTypeChecker_Is name (instance_type t))).
Qed.

Lemma narrows_to_cached name b o i :
  broker_inv' b -> SerializingAllowed flag b = true ->
  refs_ b !! o = Some i -> Object_IsSmi isolate o = false ->
  InstanceTypeChecker_Is name
    (Map_instance_type isolate (HeapObject_map isolate o)) = true ->
  narrows_to' name (Some i) b.
Proof.
  intros [[H1 _] Ht] Hser Hi Hsmi Hname.
  apply SerializingAllowed_not_disabled in Hser.
  destruct (H1 o i Hi) as (d & Hd & _).
  destruct (Ht Hser o i d Hi Hd) as [Hs Htype].
  split; [assumption|].
  exists i, d, (TypeFromMap (HeapObject_map isolate o)).
  repeat split; auto. congruence.
Qed.

Section Rules.

Variables fatal_ok fuel_ok : Prop.

Lemma wp_ObjectData_As name p b (Q : ObjectDataPtr -> JSHeapBroker -> Prop) :
  fatal_ok \/ narrows_to' name p b ->
  (narrows_to' name p b -> Q p b) ->
  wp fatal_ok fuel_ok (As name p) b Q.
Proof.
  intros Hok HQ. unfold wp. destruct (As name p b) as [r b'| |] eqn:E.
  - apply ObjectData_As_Ok in E as (-> & -> & Hn). auto.
  - destruct Hok as [?|Hn]; [assumption|].
    rewrite (ObjectData_As_narrows _ _ _ Hn) in E. discriminate.
  - now apply ObjectData_As_terminates in E.
Qed.

Lemma wp_ObjectData_new o s b (Q : nat -> JSHeapBroker -> Prop) :
  fatal_ok \/ canonical_scope isolate = true ->
  refs_ b !! o = None ->
  Q (length (zone_ b)) (with_new_record b o (ObjectData_members o s)) ->
  wp fatal_ok fuel_ok (ObjectData_new isolate o s) b Q.
Proof.
  intros Hok Ho HQ.
  unfold wp, ObjectData_new, AddData, bind, CHECK, ret. cbn.
  destruct (canonical_scope isolate); cbn.
  - now rewrite Ho.
  - destruct Hok as [?|?]; [assumption|discriminate].
Qed.

(** *** The constructors, for any [rec] that behaves like
    [GetOrCreateData] with fuel [n] *)
Section Constructors.

Variable objects : gset Address.
Variable n : nat.
Variable rec : Address -> M ObjectDataPtr.

Local Abbreviation call_ok :=
  (call_assumptions ODDBALL_TYPE isolate flag fatal_ok fuel_ok objects).
Local Abbreviation returns := (returns_record_of ODDBALL_TYPE isolate).
Local Abbreviation constructing := (under_construction ODDBALL_TYPE isolate).

Hypothesis Hheap :
  heap_assumptions InstanceTypeChecker_Is isolate fatal_ok fuel_ok objects.
Hypothesis rec_spec : forall o b,
  call_ok n o b -> wp fatal_ok fuel_ok (rec o) b (returns o b).

Lemma constructing_new o d b :
  refs_ b !! o = None -> ObjectData_object d = o ->
  ObjectData_is_smi d = Object_IsSmi isolate o ->
  (Object_IsSmi isolate o = false ->
   HeapObjectData_type d = Some (TypeFromMap (HeapObject_map isolate o))) ->
  constructing o b (length (zone_ b)) (with_new_record b o d).
Proof.
  intros Ho Hobj Hsmi Htype.
  split; [reflexivity|]. split; [assumption|].
  split; [now apply extends_with_new_record|].
  split; [cbn; apply lookup_insert_eq|].
  intros [Hc Ht]. split.
  - now apply cache_inv_with_new_record.
  - eapply typed_inv_with_new_record; eauto.
Qed.

Lemma constructing_init o b0 this b d d' :
  constructing o b0 this b -> zone_ b !! this = Some d ->
  ObjectData_object d' = ObjectData_object d ->
  ObjectData_is_smi d' = ObjectData_is_smi d ->
  HeapObjectData_type d' = HeapObjectData_type d ->
  constructing o b0 this (with_record b this d').
Proof.
  intros (Hthis & Ho & Hext & Hrefs & Hinv) Hd Hobj Hsmi Htype.
  split; [assumption|]. split; [assumption|].
  split; [apply extends_with_record; [assumption|lia]|].
  split; [assumption|].
  intros Hb0. eapply broker_inv_with_record; eauto.
Qed.

Lemma constructing_extends o b0 this b b' :
  constructing o b0 this b ->
  extends b b' -> (broker_inv' b -> broker_inv' b') ->
  constructing o b0 this b'.
Proof.
  intros (Hthis & Ho & Hext & Hrefs & Hinv) Hext' Hinv'.
  split; [assumption|]. split; [assumption|].
  split; [eapply extends_trans; eassumption|].
  split; [eapply extends_refs; eassumption|auto].
Qed.

(** A nested call while [this] is under construction. *)
Lemma wp_rec_constructing o o' b0 this b
  (Q : ObjectDataPtr -> JSHeapBroker -> Prop) :
  call_ok (S n) o b0 -> constructing o b0 this b ->
  (heap_closed isolate objects -> o ∈ objects -> o' ∈ objects) ->
  (forall i b', constructing o b0 this b' -> extends b b' ->
                refs_ b' !! o' = Some i -> Q (Some i) b') ->
  wp fatal_ok fuel_ok (rec o') b Q.
Proof.
  intros [Hfuel Hfatal] Hc Hmem HQ.
  eapply wp_mono; [apply rec_spec|].
  - destruct Hc as (Hthis & Ho & Hext & Hrefs & Hinv). split.
    + destruct (proj1 Hheap) as [?|Hclosed]; [now left|].
      destruct Hfuel as [?|[Hin Hle]]; [now left|right].
      split; [auto|].
      assert (unserialized objects b < unserialized objects b0); [|lia].
      eapply unserialized_lt; eauto. apply Hext.
    + destruct (proj2 Hheap) as [?|(Hclosed & _)]; [now left|].
      destruct Hfatal as [?|(Hin & Hser & Hb0)]; [now left|right].
      split; [auto|]. split; [|now apply Hinv].
      rewrite (SerializingAllowed_mode b0 b); [assumption|apply Hext].
  - intros p b' (Hext' & (i & -> & Hi) & Hinv'). apply HQ; try assumption.
    eapply constructing_extends; eauto.
Qed.

(** The record a nested call returned passes [As##Name] when the heap is
    well typed. *)
Lemma narrows_constructing name o o' b0 this b i :
  call_ok (S n) o b0 -> constructing o b0 this b ->
  refs_ b !! o' = Some i ->
  (heap_well_typed InstanceTypeChecker_Is isolate objects -> o ∈ objects ->
   Object_IsSmi isolate o' = false
   /\ InstanceTypeChecker_Is name
        (Map_instance_type isolate (HeapObject_map isolate o')) = true) ->
  fatal_ok \/ narrows_to' name (Some i) b.
Proof.
  intros [_ Hfatal] (Hthis & Ho & Hext & Hrefs & Hinv) Hi Hwt.
  destruct (proj2 Hheap) as [?|(_ & Htyped & _)]; [now left|].
  destruct Hfatal as [?|(Hin & Hser & Hb0)]; [now left|right].
  destruct (Hwt Htyped Hin) as [Hsmi Hname].
  eapply narrows_to_cached; eauto.
  rewrite (SerializingAllowed_mode b0 b); [assumption|apply Hext].
Qed.

Lemma serializing_constructing o b0 this b :
  call_ok (S n) o b0 -> constructing o b0 this b ->
  fatal_ok \/ SerializingAllowed flag b = true.
Proof.
  intros [_ Hfatal] (_ & _ & Hext & _).
  destruct Hfatal as [?|(_ & Hser & _)]; [now left|right].
  rewrite (SerializingAllowed_mode b0 b); [assumption|apply Hext].
Qed.

Local Abbreviation HeapObjectData_ctor' :=
  (HeapObjectData_ctor InstanceTypeChecker_Is flag isolate rec).

Lemma zone_with_record b this d d' :
  zone_ b !! this = Some d -> zone_ (with_record b this d') !! this = Some d'.
Proof.
  intros Hd. cbn. apply list_lookup_insert_eq. now apply lookup_lt_Some in Hd.
Qed.

Lemma HeapObjectData_ctor_spec o t b :
  call_ok (S n) o b -> refs_ b !! o = None ->
  Object_IsSmi isolate o = false ->
  t = TypeFromMap (HeapObject_map isolate o) ->
  wp fatal_ok fuel_ok (HeapObjectData_ctor' o t) b
    (fun this b' => constructing o b this b' /\ map_resolved isolate o this b').
Proof.
  intros Hcall Ho Hsmi ->. unfold HeapObjectData_ctor.
  apply wp_bind, wp_ObjectData_new; [|exact Ho|].
  { destruct (proj2 Hheap) as [?|(_ & _ & ?)]; auto. }
  apply wp_bind, wp_init_member.
  { right. rewrite zone_with_new_record. eauto. }
  intros d Hd. rewrite zone_with_new_record in Hd. injection Hd as <-.
  rewrite with_record_new.
  set (this := length (zone_ b)).
  set (d1 := set_type _ (ObjectData_members o false)).
  assert (Hc1 : constructing o b this (with_new_record b o d1))
    by (apply constructing_new; auto).
  assert (Hz1 : zone_ (with_new_record b o d1) !! this = Some d1)
    by apply zone_with_new_record.
  apply wp_bind.
  eapply wp_rec_constructing; [exact Hcall|exact Hc1| |].
  { intros Hclosed Hin. apply (Hclosed o Hin). }
  intros i b2 Hc2 Hext2 Hi.
  assert (Hz2 : zone_ b2 !! this = Some d1) by (eapply extends_zone; eauto).
  apply wp_bind, wp_ObjectData_As.
  { eapply narrows_constructing; eauto.
    intros Hwt Hin. apply (Hwt o Hin Hsmi). }
  intros _.
  apply wp_bind, wp_init_member; [right; eauto|].
  intros d Hd. rewrite Hz2 in Hd. injection Hd as <-.
  set (b3 := with_record b2 this (set_map (Some i) d1)).
  assert (Hc3 : constructing o b this b3)
    by (eapply constructing_init; eauto).
  assert (Hz3 : zone_ b3 !! this = Some (set_map (Some i) d1))
    by (eapply zone_with_record; eauto).
  apply wp_bind. unfold HeapObjectData_body.
  apply wp_bind, wp_deref; [right; eauto|].
  intros j d [= <-] Hd. rewrite Hz3 in Hd. injection Hd as <-.
  apply wp_bind, wp_CHECK_NOT_NULL; [right; cbn; eauto|]. intros _.
  apply wp_bind, wp_get. apply wp_CHECK.
  { eapply serializing_constructing; eauto. }
  intros _. apply wp_ret. split; [exact Hc3|].
  exists (set_map (Some i) d1), i. auto.
Qed.

Lemma map_resolved_extends o this b b' :
  extends b b' -> map_resolved isolate o this b ->
  map_resolved isolate o this b'.
Proof.
  intros Hext (d & m & Hd & Hm & Hr). exists d, m.
  split; [eapply extends_zone; eauto|]. split; [assumption|].
  eapply extends_refs; eauto.
Qed.

Lemma map_resolved_init o this b d d' :
  map_resolved isolate o this b -> zone_ b !! this = Some d ->
  HeapObjectData_map d' = HeapObjectData_map d ->
  map_resolved isolate o this (with_record b this d').
Proof.
  intros (d0 & m & Hd0 & Hm & Hr) Hd Hmap. exists d', m.
  split; [eapply zone_with_record; eauto|]. split; [|assumption].
  congruence.
Qed.

Local Abbreviation JSFunctionData_ctor' :=
  (JSFunctionData_ctor InstanceTypeChecker_Is flag isolate rec).

Lemma JSFunctionData_ctor_spec o t b :
  call_ok (S n) o b -> refs_ b !! o = None ->
  Object_IsSmi isolate o = false ->
  Object_Is isolate JSFunctionData o = true ->
  t = TypeFromMap (HeapObject_map isolate o) ->
  wp fatal_ok fuel_ok (JSFunctionData_ctor' o t) b
    (fun this b' => constructing o b this b'
                    /\ map_resolved isolate o this b'
                    /\ shared_resolved isolate o this b').
Proof.
  intros Hcall Ho Hsmi Hfun Ht. unfold JSFunctionData_ctor.
  apply wp_bind.
  eapply wp_mono; [now apply HeapObjectData_ctor_spec|].
  intros this b1 [Hc1 Hm1]. cbn beta.
  apply wp_bind.
  eapply wp_rec_constructing; [exact Hcall|exact Hc1| |].
  { intros Hclosed Hin. apply (Hclosed o Hin). }
  intros i b2 Hc2 Hext2 Hi.
  assert (Hm2 : map_resolved isolate o this b2)
    by (eapply map_resolved_extends; eauto).
  apply wp_bind, wp_ObjectData_As.
  { eapply narrows_constructing; eauto.
    intros Hwt Hin. now apply (Hwt o Hin Hsmi). }
  intros _.
  destruct Hm2 as (d2 & m & Hz2 & Hmap & Hrm).
  apply wp_bind, wp_init_member; [right; eauto|].
  intros d Hd. rewrite Hz2 in Hd. injection Hd as <-.
  set (b3 := with_record b2 this (set_shared (Some i) d2)).
  assert (Hc3 : constructing o b this b3)
    by (eapply constructing_init; eauto).
  assert (Hz3 : zone_ b3 !! this = Some (set_shared (Some i) d2))
    by (eapply zone_with_record; eauto).
  apply wp_bind. unfold JSFunctionData_body.
  apply wp_bind, wp_deref; [right; eauto|].
  intros j d [= <-] Hd. rewrite Hz3 in Hd. injection Hd as <-.
  apply wp_CHECK_NOT_NULL; [right; cbn; eauto|]. intros _.
  apply wp_ret. split; [exact Hc3|]. split.
  - exists (set_shared (Some i) d2), m. auto.
  - exists (set_shared (Some i) d2), i. auto.
Qed.

Local Abbreviation NativeContextData_ctor' :=
  (NativeContextData_ctor InstanceTypeChecker_Is flag isolate rec).

Lemma NativeContextData_ctor_spec o t b :
  call_ok (S n) o b -> refs_ b !! o = None ->
  Object_IsSmi isolate o = false ->
  Object_Is isolate JSFunctionData o = false ->
  Object_Is isolate NativeContextData o = true ->
  t = TypeFromMap (HeapObject_map isolate o) ->
  wp fatal_ok fuel_ok (NativeContextData_ctor' o t) b
    (fun this b' => constructing o b this b'
                    /\ map_resolved isolate o this b').
Proof.
  intros Hcall Ho Hsmi Hfun Hctx Ht. unfold NativeContextData_ctor.
  apply wp_bind.
  eapply wp_mono; [now apply HeapObjectData_ctor_spec|].
  intros this b1 [Hc1 Hm1]. cbn beta.
  destruct (Hm1) as (d1 & m & Hz1 & Hmap & Hrm).
  apply wp_bind, wp_init_member; [right; eauto|].
  intros d Hd. rewrite Hz1 in Hd. injection Hd as <-.
  set (b2 := with_record b1 this (set_sloppy_arguments_map_ nullptr d1)).
  assert (Hc2 : constructing o b this b2)
    by (eapply constructing_init; eauto).
  assert (Hm2 : map_resolved isolate o this b2)
    by (eapply map_resolved_init; eauto).
  apply wp_bind, wp_CHECK; [now right|]. intros _.
  apply wp_bind, wp_get. apply wp_bind, wp_CHECK.
  { eapply serializing_constructing; eauto. }
  intros _. apply wp_bind.
  eapply wp_rec_constructing; [exact Hcall|exact Hc2| |].
  { intros Hclosed Hin. apply (Hclosed o Hin). }
  intros i b3 Hc3 Hext3 Hi.
  assert (Hm3 : map_resolved isolate o this b3)
    by (eapply map_resolved_extends; eauto).
  apply wp_bind, wp_ObjectData_As.
  { eapply narrows_constructing; eauto.
    intros Hwt Hin. now apply (Hwt o Hin Hsmi). }
  intros _.
  destruct (Hm3) as (d3 & m3 & Hz3 & Hmap3 & Hrm3).
  apply wp_bind, wp_init_member; [right; eauto|].
  intros d Hd. rewrite Hz3 in Hd. injection Hd as <-.
  set (b4 := with_record b3 this (set_sloppy_arguments_map_ (Some i) d3)).
  assert (Hc4 : constructing o b this b4)
    by (eapply constructing_init; eauto).
  assert (Hm4 : map_resolved isolate o this b4)
    by (eapply map_resolved_init; eauto).
  assert (Hz4 : zone_ b4 !! this
                = Some (set_sloppy_arguments_map_ (Some i) d3))
    by (eapply zone_with_record; eauto).
  apply wp_bind, wp_deref; [right; eauto|].
  intros j d [= <-] Hd. rewrite Hz4 in Hd. injection Hd as <-.
  apply wp_bind, wp_CHECK_NOT_NULL; [right; cbn; eauto|]. intros _.
  apply wp_ret. auto.
Qed.

Lemma returns_constructing o b this b' :
  constructing o b this b' -> returns o b (Some this) b'.
Proof.
  intros (_ & _ & Hext & Hrefs & Hinv). split; [assumption|]. split; eauto.
Qed.

Lemma HeapObjectData_Serialize_spec o b :
  call_ok (S n) o b -> refs_ b !! o = None ->
  Object_IsSmi isolate o = false ->
  wp fatal_ok fuel_ok
    (HeapObjectData_Serialize InstanceTypeChecker_Is ODDBALL_TYPE flag
       isolate rec o) b
    (fun data b' => exists this, data = Some this
       /\ constructing o b this b'
       /\ map_resolved isolate o this b'
       /\ (Object_Is isolate JSFunctionData o = true ->
           shared_resolved isolate o this b')).
Proof.
  intros Hcall Ho Hsmi. unfold HeapObjectData_Serialize.
  apply wp_bind, wp_get. apply wp_bind, wp_CHECK.
  { destruct (proj2 Hcall) as [?|(_ & ? & _)]; auto. }
  intros _. apply wp_bind, wp_ret. apply wp_bind, wp_ret. apply wp_bind.
  destruct (Object_Is isolate JSFunctionData o) eqn:Hfun;
    [|destruct (Object_Is isolate NativeContextData o) eqn:Hctx].
  - eapply wp_mono; [now apply JSFunctionData_ctor_spec|].
    intros this b' (Hc & Hm & Hs). apply wp_ret. eauto.
  - eapply wp_mono; [now apply NativeContextData_ctor_spec|].
    intros this b' (Hc & Hm). apply wp_ret.
    exists this. split; [reflexivity|]. split; [exact Hc|].
    split; [exact Hm|discriminate].
  - eapply wp_mono; [now apply HeapObjectData_ctor_spec|].
    intros this b' (Hc & Hm). apply wp_ret.
    exists this. split; [reflexivity|]. split; [exact Hc|].
    split; [exact Hm|discriminate].
Qed.

Lemma ObjectData_Serialize_spec o b :
  call_ok (S n) o b -> refs_ b !! o = None ->
  wp fatal_ok fuel_ok
    (ObjectData_Serialize InstanceTypeChecker_Is ODDBALL_TYPE flag
       isolate rec o) b (returns o b).
Proof.
  intros Hcall Ho. unfold ObjectData_Serialize.
  apply wp_bind, wp_get. apply wp_bind, wp_CHECK.
  { destruct (proj2 Hcall) as [?|(_ & ? & _)]; auto. }
  intros _. destruct (Object_IsSmi isolate o) eqn:Hsmi.
  - apply wp_bind, wp_ObjectData_new; [|exact Ho|].
    { destruct (proj2 Hheap) as [?|(_ & _ & ?)]; auto. }
    apply wp_ret. apply returns_constructing, constructing_new; auto.
    rewrite Hsmi. discriminate.
  - eapply wp_mono; [now apply HeapObjectData_Serialize_spec|].
    intros data b' (this & -> & Hc & _). now apply returns_constructing.
Qed.

End Constructors.

(** *** [GetOrCreateData] *)

Lemma GetOrCreateData_spec objects fuel : forall o b,
  heap_assumptions InstanceTypeChecker_Is isolate fatal_ok fuel_ok objects ->
  call_assumptions ODDBALL_TYPE isolate flag fatal_ok fuel_ok objects
    fuel o b ->
  wp fatal_ok fuel_ok (GetOrCreateData' fuel o) b
    (returns_record_of ODDBALL_TYPE isolate o b).
Proof.
  induction fuel as [|fuel IH]; intros o b Hheap Hcall;
    cbn [GetOrCreateData];
    (apply wp_bind, wp_get; apply wp_bind, wp_CHECK;
     [destruct (proj2 Hcall) as [?|(_ & ? & _)]; auto|]; intros _;
     apply wp_bind, wp_get; apply wp_bind;
     unfold GetData; destruct (refs_ b !! o) as [i|] eqn:Ho;
     [apply wp_ret, wp_bind, wp_CHECK_NOT_NULL; [right; eauto|]; intros _;
      apply wp_ret; split; [apply extends_refl|]; split; eauto|]).
  - apply wp_out_of_fuel.
    destruct (proj1 Hcall) as [?|[Hin Hle]]; [assumption|].
    assert (Hz : unserialized objects b = 0) by lia.
    destruct (unserialized_zero _ _ _ Hz Hin) as [? ?]. congruence.
  - eapply wp_mono;
      [apply (ObjectData_Serialize_spec objects fuel); auto|].
    intros data b' Hret. cbn beta.
    apply wp_bind, wp_CHECK_NOT_NULL.
    + right. destruct Hret as (_ & (i & -> & _) & _). eauto.
    + intros _. now apply wp_ret.
Qed.

End Rules.

(** Whenever it returns, [GetOrCreateData] returns the record of its
    object. *)
Lemma GetOrCreateData_returns fuel o b data b' :
  GetOrCreateData' fuel o b = Ok data b' ->
  returns_record_of ODDBALL_TYPE isolate o b data b'.
Proof.
  intros E.
  pose proof (GetOrCreateData_spec True True ∅ fuel o b) as H.
  unfold wp in H. rewrite E in H. apply H; split; now left.
Qed.

(** With the heap closed and one unit of fuel per object without a record,
    [GetOrCreateData] does not run out of fuel. *)
Lemma GetOrCreateData_terminates objects fuel o b :
  heap_closed isolate objects -> o ∈ objects ->
  unserialized objects b <= fuel ->
  GetOrCreateData' fuel o b <> OutOfFuel.
Proof.
  intros Hclosed Ho Hfuel E.
  pose proof (GetOrCreateData_spec True False objects fuel o b) as H.
  unfold wp in H. rewrite E in H. apply H; split; auto.
Qed.

(** On a well-typed heap, and while serializing is allowed, it returns. *)
Lemma GetOrCreateData_succeeds objects fuel o b :
  canonical_scope isolate = true ->
  heap_closed isolate objects ->
  heap_well_typed InstanceTypeChecker_Is isolate objects ->
  o ∈ objects -> SerializingAllowed flag b = true -> broker_inv' b ->
  unserialized objects b <= fuel ->
  exists i b', GetOrCreateData' fuel o b = Ok (Some i) b'
    /\ extends b b' /\ refs_ b' !! o = Some i /\ broker_inv' b'.
Proof.
  intros Hcanon Hclosed Htyped Ho Hser Hinv Hfuel.
  pose proof (GetOrCreateData_spec False False objects fuel o b) as H.
  unfold wp in H.
  destruct (GetOrCreateData' fuel o b) as [data b'| |];
    [|exfalso; apply H; split; auto..].
  destruct H as (Hext & (i & -> & Hi) & Hinv'); [split; auto..|].
  exists i, b'. auto.
Qed.

(** A cached object is returned as it is, and nothing changes. *)
Lemma GetOrCreateData_cached fuel o b i :
  SerializingAllowed flag b = true -> refs_ b !! o = Some i ->
  GetOrCreateData' fuel o b = Ok (Some i) b.
Proof.
  intros Hser Hi.
  destruct fuel; cbn [GetOrCreateData];
    unfold bind, get, CHECK, CHECK_NOT_NULL, GetData, ret;
    now rewrite Hser, Hi.
Qed.

Local Abbreviation GetOrCreateData_seq' fuel :=
  (GetOrCreateData_seq (GetOrCreateData' fuel)).

Lemma GetOrCreateData_allowed fuel o b data b' :
  GetOrCreateData' fuel o b = Ok data b' -> SerializingAllowed flag b = true.
Proof.
  destruct fuel; cbn [GetOrCreateData]; unfold bind at 1 2, get, CHECK;
    now destruct (SerializingAllowed flag b).
Qed.

Lemma GetOrCreateData_seq_returns fuel os : forall b datas b',
  GetOrCreateData_seq' fuel os b = Ok datas b' ->
  extends b b'
  /\ (os <> [] -> SerializingAllowed flag b = true)
  /\ forall k o, os !! k = Some o ->
       exists i, datas !! k = Some (Some i) /\ refs_ b' !! o = Some i.
Proof.
  induction os as [|o os IH]; intros b datas b'; cbn [GetOrCreateData_seq].
  - intros [= <- <-]. split; [apply extends_refl|].
    split; [congruence|]. intros k o' [=].
  - unfold bind at 1.
    destruct (GetOrCreateData' fuel o b) as [data b1| |] eqn:E1;
      [|discriminate..].
    pose proof (GetOrCreateData_allowed _ _ _ _ _ E1) as Hser.
    apply GetOrCreateData_returns in E1 as (Hext1 & (i & -> & Hi) & _).
    unfold bind at 1.
    destruct (GetOrCreateData_seq' fuel os b1) as [rest b2| |] eqn:E2;
      [|discriminate..].
    intros [= <- <-]. destruct (IH _ _ _ E2) as (Hext2 & _ & Hrest).
    split; [eapply extends_trans; eassumption|]. split; [auto|].
    intros [|k] o' Hk; cbn in Hk.
    + injection Hk as <-. exists i. split; [reflexivity|].
      eapply extends_refs; eassumption.
    + apply (Hrest k o' Hk).
Qed.

Lemma GetOrCreateData_seq_succeeds objects fuel os : forall b,
  canonical_scope isolate = true ->
  heap_closed isolate objects ->
  heap_well_typed InstanceTypeChecker_Is isolate objects ->
  (forall o, o ∈ os -> o ∈ objects) ->
  SerializingAllowed flag b = true -> broker_inv' b ->
  unserialized objects b <= fuel ->
  exists datas b', GetOrCreateData_seq' fuel os b = Ok datas b'
                   /\ SerializingAllowed flag b' = true.
Proof.
  induction os as [|o os IH]; intros b Hcanon Hclosed Htyped Hin Hser Hinv Hfuel;
    cbn [GetOrCreateData_seq].
  - exists [], b. auto.
  - destruct (GetOrCreateData_succeeds objects fuel o b)
      as (i & b1 & E1 & Hext1 & Hi & Hinv1); auto.
    { apply Hin. left. }
    destruct (IH b1) as (rest & b2 & E2 & Hser2); auto.
    { intros o' Ho'. apply Hin. now right. }
    { rewrite (SerializingAllowed_mode b b1); [assumption|apply Hext1]. }
    { pose proof (unserialized_mono objects b b1 (proj1 (proj2 Hext1))). lia. }
    exists (Some i :: rest), b2. unfold bind. now rewrite E1, E2.
Qed.

Lemma GetOrCreateData_seq_inv fuel os : forall b datas b',
  GetOrCreateData_seq' fuel os b = Ok datas b' ->
  broker_inv' b -> broker_inv' b'.
Proof.
  induction os as [|o os IH]; intros b datas b'; cbn [GetOrCreateData_seq].
  - now intros [= <- <-].
  - unfold bind at 1.
    destruct (GetOrCreateData' fuel o b) as [data b1| |] eqn:E1;
      [|discriminate..].
    unfold bind at 1.
    destruct (GetOrCreateData_seq' fuel os b1) as [rest b2| |] eqn:E2;
      [|discriminate..].
    intros [= <- <-] Hinv. apply (IH _ _ _ E2).
    apply GetOrCreateData_returns in E1. now apply E1.
Qed.

(** What the invariant says of a cache entry outside [kDisabled]: it
    points to a record in the zone that was made for the object of the
    entry. *)
Lemma broker_inv_record b o i :
  broker_inv' b -> mode_ b <> kDisabled -> refs_ b !! o = Some i ->
  exists d, zone_ b !! i = Some d
    /\ ObjectData_object d = o
    /\ ObjectData_is_smi d = Object_IsSmi isolate o
    /\ (Object_IsSmi isolate o = false ->
        HeapObjectData_type d
        = Some (TypeFromMap (HeapObject_map isolate o))).
Proof.
  intros [[H1 _] Ht] Hmode Hi.
  destruct (H1 o i Hi) as (d & Hd & Hobj).
  destruct (Ht Hmode o i d Hi Hd) as [Hsmi Htype].
  exists d. auto.
Qed.

(** An object that got its cache entry between [b] and [b'] got a record
    that [b] did not have. *)
Lemma broker_inv_fresh b b' o i :
  broker_inv' b -> extends b b' -> broker_inv' b' ->
  refs_ b !! o = None -> refs_ b' !! o = Some i ->
  zone_ b !! i = None.
Proof.
  intros [[_ H2] _] Hext [[H1 _] _] Hnone Hi.
  destruct (zone_ b !! i) as [d|] eqn:Hd; [|reflexivity]. exfalso.
  specialize (H2 i d Hd).
  destruct (H1 o i Hi) as (d' & Hd' & Hobj).
  rewrite (extends_zone b b' i d Hext Hd) in Hd'. injection Hd' as <-.
  congruence.
Qed.

(** ** The claims about the cache and the records *)

(** C1.  Whenever a sequence of [GetOrCreateData] calls returns, two calls
    of the sequence for the same object have returned the same record,
    which is the one the cache holds for the object, and any later call for
    one of the objects returns that cached record and leaves the broker as
    it is.  Under the broker's invariant (which the fresh broker has), what
    a call returns is a record in the zone: it is the record of the object
    of the call, it says whether the object is a smi and, for a heap
    object, carries the type of the object's map; for an object that had a
    record before the sequence it is that record, and for an object that
    had none it is a record that the zone did not hold before, created
    during the sequence.  On a closed, well-typed heap and while
    serializing is allowed, every such sequence returns. *)
Theorem GetOrCreateData_same_record objects fuel (os : list Address) b :
  (forall datas b',
     GetOrCreateData_seq' fuel os b = Ok datas b' ->
     (forall k1 k2 o, os !! k1 = Some o -> os !! k2 = Some o ->
        exists i, datas !! k1 = Some (Some i)
                  /\ datas !! k2 = Some (Some i)
                  /\ GetData o b' = Some i)
     /\ (forall k o fuel', os !! k = Some o ->
          exists i, datas !! k = Some (Some i)
                    /\ GetOrCreateData' fuel' o b' = Ok (Some i) b')
     /\ (broker_inv' b ->
         forall k o, os !! k = Some o ->
           exists i d, datas !! k = Some (Some i)
             /\ zone_ b' !! i = Some d
             /\ ObjectData_object d = o
             /\ ObjectData_is_smi d = Object_IsSmi isolate o
             /\ (Object_IsSmi isolate o = false ->
                 HeapObjectData_type d
                 = Some (TypeFromMap (HeapObject_map isolate o)))
             /\ (forall j, GetData o b = Some j ->
                   i = j /\ exists d0, zone_ b !! j = Some d0
                                       /\ ObjectData_object d0 = o)
             /\ (GetData o b = nullptr ->
                 zone_ b !! i = None
                 /\ length (zone_ b) < length (zone_ b'))))
  /\ broker_inv' (JSHeapBroker_new flag)
  /\ (canonical_scope isolate = true ->
      heap_closed isolate objects ->
      heap_well_typed InstanceTypeChecker_Is isolate objects ->
      (forall o, o ∈ os -> o ∈ objects) ->
      SerializingAllowed flag b = true -> broker_inv' b ->
      unserialized objects b <= fuel ->
      exists datas b', GetOrCreateData_seq' fuel os b = Ok datas b').
Proof.
  split; [|split].
  - intros datas b' E.
    destruct (GetOrCreateData_seq_returns _ _ _ _ _ E) as (Hext & Hser & Hrec).
    split; [|split].
    + intros k1 k2 o Hk1 Hk2.
      destruct (Hrec k1 o Hk1) as (i1 & Hd1 & Hi1).
      destruct (Hrec k2 o Hk2) as (i2 & Hd2 & Hi2).
      exists i1. rewrite Hd1, Hd2. repeat split; [|assumption]. congruence.
    + intros k o fuel' Hk. destruct (Hrec k o Hk) as (i & Hd & Hi).
      exists i. split; [assumption|].
      apply GetOrCreateData_cached; [|exact Hi].
      rewrite (SerializingAllowed_mode b b'); [|apply Hext].
      apply Hser. intros ->. discriminate.
    + intros Hinv k o Hk. destruct (Hrec k o Hk) as (i & Hd & Hi).
      pose proof (GetOrCreateData_seq_inv _ _ _ _ _ E Hinv) as Hinv'.
      assert (Hmode : mode_ b' <> kDisabled).
      { apply SerializingAllowed_not_disabled.
        rewrite (SerializingAllowed_mode b b'); [|apply Hext].
        apply Hser. intros ->. discriminate. }
      destruct (broker_inv_record b' o i Hinv' Hmode Hi)
        as (d & Hz & Hobj & Hsmi & Htype).
      exists i, d. split; [exact Hd|]. split; [exact Hz|].
      split; [exact Hobj|]. split; [exact Hsmi|]. split; [exact Htype|].
      unfold GetData, nullptr. split.
      * intros j Hj.
        pose proof (extends_refs b b' o j Hext Hj) as Hj'.
        assert (i = j) as -> by congruence. split; [reflexivity|].
        destruct Hinv as [[H1 _] _]. exact (H1 o j Hj).
      * intros Hnone.
        assert (Hfresh : zone_ b !! i = None)
          by (eapply broker_inv_fresh; eauto).
        split; [exact Hfresh|].
        apply lookup_ge_None in Hfresh. apply lookup_lt_Some in Hz. lia.
  - split; [split|].
    + intros h p Hp. exfalso.
      exact (lookup_empty_Some (M := gmap Address) h p Hp).
    + intros p d [=].
    + intros _ h p d Hp. exfalso.
      exact (lookup_empty_Some (M := gmap Address) h p Hp).
  - intros Hcanon Hclosed Htyped Hin Hser Hinv Hfuel.
    destruct (GetOrCreateData_seq_succeeds objects fuel os b)
      as (datas & b' & E & _); eauto.
Qed.

(** C2.  For one cache and zone, and an object without a record: with the
    strict flag, [GetOrCreateData] in mode [kSerialized] fails its first
    check; in mode [kSerializing], on a closed and well-typed heap, it
    returns a record that it has created: the zone did not hold it before
    and holds it afterwards, it is the record of the object, it says
    whether the object is a smi and, for a heap object, carries the type of
    the object's map; every record the zone held is still there unchanged.
    From then on [GetData] and [GetOrCreateData] find that record. *)
Theorem GetOrCreateData_mode_gating objects fuel o refs zone :
  FLAG_strict_heap_broker flag = true ->
  refs !! o = None ->
  canonical_scope isolate = true ->
  heap_closed isolate objects ->
  heap_well_typed InstanceTypeChecker_Is isolate objects ->
  o ∈ objects ->
  broker_inv' {| refs_ := refs; mode_ := kSerializing; zone_ := zone |} ->
  unserialized objects
    {| refs_ := refs; mode_ := kSerializing; zone_ := zone |} <= fuel ->
  GetOrCreateData' fuel o
    {| refs_ := refs; mode_ := kSerialized; zone_ := zone |} = Fatal
  /\ exists i b',
       GetOrCreateData' fuel o
         {| refs_ := refs; mode_ := kSerializing; zone_ := zone |}
       = Ok (Some i) b'
       /\ zone !! i = None
       /\ (exists d, zone_ b' !! i = Some d
             /\ ObjectData_object d = o
             /\ ObjectData_is_smi d = Object_IsSmi isolate o
             /\ (Object_IsSmi isolate o = false ->
                 HeapObjectData_type d
                 = Some (TypeFromMap (HeapObject_map isolate o))))
       /\ (forall p d, zone !! p = Some d -> zone_ b' !! p = Some d)
       /\ GetData o b' = Some i
       /\ forall fuel', GetOrCreateData' fuel' o b' = Ok (Some i) b'.
Proof.
  intros Hstrict Ho Hcanon Hclosed Htyped Hin Hinv Hfuel. split.
  - destruct fuel; cbn [GetOrCreateData];
      unfold bind, get, CHECK, SerializingAllowed; cbn; now rewrite Hstrict.
  - set (b := {| refs_ := refs; mode_ := kSerializing; zone_ := zone |}) in *.
    assert (Hser : SerializingAllowed flag b = true) by reflexivity.
    destruct (GetOrCreateData_succeeds objects fuel o b)
      as (i & b' & E & Hext & Hi & Hinv'); auto.
    exists i, b'. split; [exact E|].
    split; [exact (broker_inv_fresh b b' o i Hinv Hext Hinv' Ho Hi)|].
    split; [|split; [|split; [exact Hi|]]].
    + apply (broker_inv_record b' o i Hinv'); [|exact Hi].
      destruct Hext as (-> & _). discriminate.
    + intros p d Hd. exact (extends_zone b b' p d Hext Hd).
    + intros fuel'. apply GetOrCreateData_cached; [|exact Hi].
      rewrite (SerializingAllowed_mode b b'); [assumption|apply Hext].
Qed.

(** *** The [ObjectRef] constructor *)

Local Abbreviation ObjectRef_new' :=
  (ObjectRef_new InstanceTypeChecker_Is ODDBALL_TYPE flag isolate).

Lemma ObjectRef_new_returns fuel o b r b' :
  ObjectRef_new' fuel o b = Ok r b' ->
  extends b b' /\ (broker_inv' b -> broker_inv' b')
  /\ exists i, data_ r = Some i /\ refs_ b' !! o = Some i.
Proof.
  intros E.
  assert (H : wp True True (ObjectRef_new' fuel o) b (fun r b' =>
    extends b b' /\ (broker_inv' b -> broker_inv' b')
    /\ exists i, data_ r = Some i /\ refs_ b' !! o = Some i)).
  { unfold ObjectRef_new. apply wp_bind, wp_get. apply wp_bind.
    assert (Hcached : forall i, refs_ b !! o = Some i ->
      wp True True (ret (Some i)) b (fun a b1 =>
        wp True True
          (CHECK_NOT_NULL a;;; ret {| data_ := a |}) b1
          (fun r b' => extends b b' /\ (broker_inv' b -> broker_inv' b')
             /\ exists i, data_ r = Some i /\ refs_ b' !! o = Some i))).
    { intros i Hi. apply wp_ret, wp_bind, wp_CHECK_NOT_NULL; [now left|].
      intros _. apply wp_ret. split; [apply extends_refl|]. split; eauto. }
    assert (Hcreate :
      wp True True (GetOrCreateData' fuel o) b (fun a b1 =>
        wp True True
          (CHECK_NOT_NULL a;;; ret {| data_ := a |}) b1
          (fun r b' => extends b b' /\ (broker_inv' b -> broker_inv' b')
             /\ exists i, data_ r = Some i /\ refs_ b' !! o = Some i))).
    { eapply wp_mono;
        [apply (GetOrCreateData_spec True True ∅); split; now left|].
      intros a b1 (Hext & (i & -> & Hi) & Hinv).
      apply wp_bind, wp_CHECK_NOT_NULL; [now left|]. intros _.
      apply wp_ret. split; [assumption|]. split; eauto. }
    destruct (mode_ b) eqn:Hmode.
    - unfold GetData. destruct (refs_ b !! o) as [i|] eqn:Ho; [now apply Hcached|].
      apply wp_bind, wp_ObjectData_new; [now left|exact Ho|].
      apply wp_ret, wp_bind, wp_CHECK_NOT_NULL; [now left|]. intros _.
      apply wp_ret. split; [now apply extends_with_new_record|]. split.
      + intros [Hc _]. split; [now apply cache_inv_with_new_record|].
        intros Hm. cbn in Hm. congruence.
      + exists (length (zone_ b)). split; [reflexivity|].
        cbn. apply lookup_insert_eq.
    - exact Hcreate.
    - destruct (FLAG_strict_heap_broker flag); [|exact Hcreate].
      unfold GetData. destruct (refs_ b !! o) as [i|] eqn:Ho; [now apply Hcached|].
      apply wp_ret, wp_bind, wp_CHECK_NOT_NULL; [now left|].
      intros [? [=]]. }
  unfold wp in H. now rewrite E in H.
Qed.

(** C3.  Two refs made under one broker are [equals] iff they hold the
    same record pointer, and they hold the same record pointer iff they
    were made for the same object.  What the objects contain never enters:
    refs of two different objects are unequal whatever the heap says about
    them. *)
Theorem ObjectRef_equals_identity fuel1 fuel2 o1 o2 b r1 b1 r2 b2 :
  broker_inv' b ->
  ObjectRef_new' fuel1 o1 b = Ok r1 b1 ->
  ObjectRef_new' fuel2 o2 b1 = Ok r2 b2 ->
  (ObjectRef_equals r1 r2 = true <-> data_ r1 = data_ r2)
  /\ (data_ r1 = data_ r2 <-> o1 = o2)
  /\ (o1 <> o2 -> ObjectRef_equals r1 r2 = false).
Proof.
  intros Hinv E1 E2.
  apply ObjectRef_new_returns in E1 as (Hext1 & Hinv1 & i1 & Hd1 & Hi1).
  apply ObjectRef_new_returns in E2 as (Hext2 & Hinv2 & i2 & Hd2 & Hi2).
  assert (Hi1' : refs_ b2 !! o1 = Some i1) by (eapply extends_refs; eauto).
  assert (Hc2 : cache_inv b2) by (apply Hinv2, Hinv1, Hinv).
  assert (Hiff : data_ r1 = data_ r2 <-> o1 = o2).
  { rewrite Hd1, Hd2. split.
    - intros [= <-]. eapply cache_inv_injective; eauto.
    - intros <-. congruence. }
  unfold ObjectRef_equals. split; [apply bool_decide_eq_true|].
  split; [exact Hiff|].
  intros Hne. apply bool_decide_eq_false. tauto.
Qed.

(** *** Construction *)

Local Abbreviation HeapObjectData_Serialize' fuel :=
  (HeapObjectData_Serialize InstanceTypeChecker_Is ODDBALL_TYPE flag isolate
     (GetOrCreateData' fuel)).

(** C5.  Serializing a heap object that has no record yet, on a closed
    heap, either fails a check or returns a record that is cached for the
    object and whose [map] member is the (non-null) record of the object's
    map; the record of a function has, in addition, its [shared] member set
    to the (non-null) record of the function's shared function info.  Both
    members come from nested [GetOrCreateData] calls.  On a well-typed heap
    no check fails.  The constructor bodies fail on a null [map] and on a
    null [shared]. *)
Theorem Serialize_eager_edges objects fuel o b :
  heap_closed isolate objects -> o ∈ objects ->
  refs_ b !! o = None -> Object_IsSmi isolate o = false ->
  unserialized objects b <= S fuel ->
  (HeapObjectData_Serialize' fuel o b = Fatal
   \/ exists this b',
        HeapObjectData_Serialize' fuel o b = Ok (Some this) b'
        /\ GetData o b' = Some this
        /\ map_resolved isolate o this b'
        /\ (Object_Is isolate JSFunctionData o = true ->
            shared_resolved isolate o this b'))
  /\ (canonical_scope isolate = true ->
      heap_well_typed InstanceTypeChecker_Is isolate objects ->
      SerializingAllowed flag b = true -> broker_inv' b ->
      HeapObjectData_Serialize' fuel o b <> Fatal)
  /\ (forall this b0 d, zone_ b0 !! this = Some d ->
        HeapObjectData_map d = nullptr ->
        HeapObjectData_body flag this b0 = Fatal)
  /\ (forall this b0 d, zone_ b0 !! this = Some d ->
        JSFunctionData_shared d = nullptr ->
        JSFunctionData_body this b0 = Fatal).
Proof.
  intros Hclosed Hin Ho Hsmi Hfuel. split; [|split; [|split]].
  - pose proof (HeapObjectData_Serialize_spec True False objects fuel
                  (GetOrCreateData' fuel)) as H.
    specialize (H ltac:(split; auto)).
    specialize (H (fun o b => GetOrCreateData_spec True False objects fuel o b
                                ltac:(split; auto))).
    specialize (H o b ltac:(split; auto) Ho Hsmi). unfold wp in H.
    destruct (HeapObjectData_Serialize' fuel o b) as [data b'| |];
      [|now left|contradiction].
    right. destruct H as (this & -> & Hc & Hm & Hs).
    exists this, b'. repeat split; auto. apply Hc.
  - intros Hcanon Htyped Hser Hinv E.
    pose proof (HeapObjectData_Serialize_spec False False objects fuel
                  (GetOrCreateData' fuel)) as H.
    specialize (H ltac:(split; auto)).
    specialize (H (fun o b => GetOrCreateData_spec False False objects fuel o b
                                ltac:(split; auto))).
    specialize (H o b ltac:(split; auto) Ho Hsmi). unfold wp in H.
    now rewrite E in H.
  - intros this b0 d Hd Hnull.
    unfold HeapObjectData_body, bind, deref, CHECK_NOT_NULL.
    now rewrite Hd, Hnull.
  - intros this b0 d Hd Hnull.
    unfold JSFunctionData_body, bind, deref, CHECK_NOT_NULL.
    now rewrite Hd, Hnull.
Qed.

(** C9.  [AddData] fails when the object has an entry already, and so does
    every constructor, whose first step it is.  A constructor that returns
    has found no entry and has left one that points to the new record, all
    other entries being as before; so has [ObjectData::Serialize].
    [GetOrCreateData] keeps the cache and the zone in bijection, under
    which no two records stand for one object. *)
Theorem AddData_duplicate_fatal :
  (forall o data b, is_Some (GetData o b) ->
     AddData isolate o data b = Fatal)
  /\ (forall rec o s t b, is_Some (GetData o b) ->
       ObjectData_new isolate o s b = Fatal
       /\ HeapObjectData_ctor InstanceTypeChecker_Is flag isolate rec o t b
          = Fatal
       /\ JSFunctionData_ctor InstanceTypeChecker_Is flag isolate rec o t b
          = Fatal
       /\ NativeContextData_ctor InstanceTypeChecker_Is flag isolate rec o t b
          = Fatal)
  /\ (forall o s b this b', ObjectData_new isolate o s b = Ok this b' ->
       GetData o b = nullptr
       /\ GetData o b' = Some this
       /\ zone_ b !! this = None
       /\ zone_ b' !! this = Some (ObjectData_members o s)
       /\ forall h, h <> o -> GetData h b' = GetData h b)
  /\ (forall fuel o b data b',
       ObjectData_Serialize InstanceTypeChecker_Is ODDBALL_TYPE flag isolate
         (GetOrCreateData' fuel) o b = Ok data b' ->
       GetData o b = nullptr /\ is_Some data /\ GetData o b' = data)
  /\ (forall fuel o b data b',
       broker_inv' b -> GetOrCreateData' fuel o b = Ok data b' ->
       broker_inv' b')
  /\ (forall b p q dp dq,
       broker_inv' b -> zone_ b !! p = Some dp -> zone_ b !! q = Some dq ->
       ObjectData_object dp = ObjectData_object dq -> p = q).
Proof.
  assert (Hadd : forall o data b, is_Some (GetData o b) ->
            AddData isolate o data b = Fatal).
  { intros o data b [i Hi]. unfold GetData in Hi.
    unfold AddData, bind, CHECK.
    destruct (canonical_scope isolate); [|reflexivity]. now rewrite Hi. }
  assert (Hnew : forall o s b, is_Some (GetData o b) ->
            ObjectData_new isolate o s b = Fatal).
  { intros o s b [i Hi]. unfold GetData in Hi.
    unfold ObjectData_new, AddData, bind, CHECK. cbn.
    destruct (canonical_scope isolate); [|reflexivity]. cbn. now rewrite Hi. }
  split; [exact Hadd|]. split; [|split; [|split; [|split]]].
  - intros rec o s t b Hsome. split; [now apply Hnew|].
    unfold NativeContextData_ctor, JSFunctionData_ctor, HeapObjectData_ctor.
    unfold bind at 1 2 3 4 5 6 7.
    repeat split; unfold bind; now rewrite (Hnew o false b Hsome).
  - intros o s b this b'.
    unfold ObjectData_new, AddData, bind, CHECK, ret, GetData. cbn.
    destruct (canonical_scope isolate); [|discriminate]. cbn.
    destruct (refs_ b !! o) eqn:Ho; [discriminate|].
    intros [= <- <-]. cbn. split; [reflexivity|].
    split; [apply lookup_insert_eq|].
    split; [apply lookup_ge_None; lia|].
    split; [now apply list_lookup_middle|].
    intros h Hne. now apply lookup_insert_ne.
  - intros fuel o b data b' E.
    assert (Ho : GetData o b = nullptr).
    { unfold GetData, nullptr. destruct (refs_ b !! o) as [i|] eqn:Ho;
        [|reflexivity].
      exfalso.
      assert (Hdup : forall s (Q : nat -> JSHeapBroker -> Prop),
                wp True True (ObjectData_new isolate o s) b Q).
      { intros s Q. unfold wp. rewrite Hnew; [exact I|].
        unfold GetData. rewrite Ho. eauto. }
      assert (H : wp True True
                (ObjectData_Serialize InstanceTypeChecker_Is ODDBALL_TYPE
                   flag isolate (GetOrCreateData' fuel) o) b
                (fun _ _ => False)).
      { unfold ObjectData_Serialize. apply wp_bind, wp_get.
        apply wp_bind, wp_CHECK; [now left|]. intros _.
        destruct (Object_IsSmi isolate o); [apply wp_bind, Hdup|].
        unfold HeapObjectData_Serialize. apply wp_bind, wp_get.
        apply wp_bind, wp_CHECK; [now left|]. intros _.
        apply wp_bind, wp_ret. apply wp_bind, wp_ret. apply wp_bind.
        destruct (Object_Is isolate JSFunctionData o);
          [|destruct (Object_Is isolate NativeContextData o)].
        - unfold JSFunctionData_ctor, HeapObjectData_ctor.
          apply wp_bind, wp_bind, Hdup.
        - unfold NativeContextData_ctor, HeapObjectData_ctor.
          apply wp_bind, wp_bind, Hdup.
        - unfold HeapObjectData_ctor. apply wp_bind, Hdup. }
      unfold wp in H. now rewrite E in H. }
    split; [exact Ho|].
    pose proof (ObjectData_Serialize_spec True True ∅ fuel
                  (GetOrCreateData' fuel)) as H.
    specialize (H ltac:(split; now left)).
    specialize (H (fun o b => GetOrCreateData_spec True True ∅ fuel o b
                                ltac:(split; now left))).
    specialize (H o b ltac:(split; now left) Ho). unfold wp in H.
    rewrite E in H. destruct H as (_ & (i & -> & Hi) & _).
    split; [eauto|exact Hi].
  - intros fuel o b data b' Hinv E.
    apply GetOrCreateData_returns in E. now apply E.
  - intros b p q dp dq [Hc _]. now apply cache_inv_unique.
Qed.

(** C10.  In mode [kDisabled], [As##Name] fails its first check, also for
    a record whose [Is##Name] answers true from the live object.  Whenever
    [As##Name] returns, it returns the pointer it was given, the mode is
    not [kDisabled], and the record is not a smi and carries a type whose
    instance type passes [InstanceTypeChecker::Is##Name]; and under these
    conditions it does return. *)
Theorem ObjectData_As_gating name this b :
  (mode_ b = kDisabled ->
     As name this b = Fatal
     /\ forall i d, this = Some i -> zone_ b !! i = Some d ->
          ObjectData_Is InstanceTypeChecker_Is isolate name this b
          = Ok (Object_Is isolate name (ObjectData_object d)) b)
  /\ (forall r b', As name this b = Ok r b' ->
        r = this /\ b' = b /\ narrows_to' name this b)
  /\ (narrows_to' name this b -> As name this b = Ok this b).
Proof.
  split; [|split].
  - intros Hmode. split.
    + unfold ObjectData_As, bind, get, CHECK. now rewrite Hmode.
    + intros i d -> Hd. unfold ObjectData_Is, bind, get, deref, ret.
      now rewrite Hd, Hmode.
  - apply ObjectData_As_Ok.
  - apply ObjectData_As_narrows.
Qed.

End Calls.

(** ** The accessors of the facade *)
Section Accessors.

Variable InstanceTypeChecker_Is : DataClass -> InstanceType -> bool.
Variable ODDBALL_TYPE : InstanceType.
Variable flag : Flags.

Local Abbreviation As isolate :=
  (ObjectData_As InstanceTypeChecker_Is isolate).

Lemma ObjectData_As_snapshot isolate1 isolate2 name p b :
  mode_ b <> kDisabled -> As isolate1 name p b = As isolate2 name p b.
Proof.
  intros Hmode.
  unfold ObjectData_As, ObjectData_Is, bind, get, CHECK, deref, ret.
  destruct (mode_ b) eqn:Hm; [congruence| |]; cbn;
    (destruct p as [i|]; [|reflexivity];
     destruct (zone_ b !! i); [|reflexivity]; now rewrite Hm).
Qed.

Lemma mode_branch {A} (live snapshot : M A) b :
  bind get (fun b0 => if BrokerMode_eqb (mode_ b0) kDisabled
                      then live else snapshot) b
  = if BrokerMode_eqb (mode_ b) kDisabled then live b else snapshot b.
Proof. unfold bind, get. now destruct (BrokerMode_eqb _ _). Qed.

Lemma bind_same_start {A B} (c1 c2 : M A) (k : A -> M B) b :
  c1 b = c2 b -> bind c1 k b = bind c2 k b.
Proof. unfold bind. now intros ->. Qed.

(** Reading a member [member] of the record behind a ref, after narrowing
    it to [name]. *)
Lemma narrowed_read {A} isolate name (member : ObjectData -> A) this b i d :
  narrows_to InstanceTypeChecker_Is name (data_ this) b ->
  data_ this = Some i -> zone_ b !! i = Some d ->
  bind (As isolate name (data_ this))
    (fun data => bind (deref data) (fun d => ret (member d))) b
  = Ok (member d) b.
Proof.
  intros Hn Hi Hd. unfold bind at 1.
  rewrite (ObjectData_As_narrows _ _ _ _ _ Hn).
  unfold bind, deref, ret. now rewrite Hi, Hd.
Qed.

(** C4, as the code has it.  [HeapObjectRef::map], [HeapObjectRef::type],
    [JSFunctionRef::shared] and [NativeContextRef::sloppy_arguments_map]
    answer from the broker's records alone once a snapshot exists (they
    return the member of the narrowed record), and from the live object in
    mode [kDisabled].  [HeapNumberRef::value] and [StringRef::length] read
    the live object in every mode. *)
Theorem accessors_by_mode :
  ((forall fuel,
      reads_records_when_snapshot
        (fun isolate =>
           HeapObjectRef_map InstanceTypeChecker_Is ODDBALL_TYPE flag isolate
             fuel))
   /\ reads_records_when_snapshot
        (HeapObjectRef_type InstanceTypeChecker_Is ODDBALL_TYPE)
   /\ (forall fuel,
        reads_records_when_snapshot
          (fun isolate =>
             JSFunctionRef_shared InstanceTypeChecker_Is ODDBALL_TYPE flag
               isolate fuel))
   /\ (forall fuel,
        reads_records_when_snapshot
          (fun isolate =>
             NativeContextRef_sloppy_arguments_map InstanceTypeChecker_Is
               ODDBALL_TYPE flag isolate fuel)))
  /\ (forall isolate fuel this b i d,
        mode_ b <> kDisabled ->
        data_ this = Some i -> zone_ b !! i = Some d ->
        (narrows_to InstanceTypeChecker_Is HeapObjectData (data_ this) b ->
         HeapObjectRef_map InstanceTypeChecker_Is ODDBALL_TYPE flag isolate
           fuel this b
         = Ok {| data_ := HeapObjectData_map d |} b
         /\ HeapObjectRef_type InstanceTypeChecker_Is ODDBALL_TYPE isolate
              this b
            = Ok (HeapObjectData_type d) b)
        /\ (narrows_to InstanceTypeChecker_Is JSFunctionData (data_ this) b ->
            JSFunctionRef_shared InstanceTypeChecker_Is ODDBALL_TYPE flag
              isolate fuel this b
            = Ok {| data_ := JSFunctionData_shared d |} b)
        /\ (narrows_to InstanceTypeChecker_Is NativeContextData
              (data_ this) b ->
            NativeContextRef_sloppy_arguments_map InstanceTypeChecker_Is
              ODDBALL_TYPE flag isolate fuel this b
            = Ok {| data_ := NativeContextData_sloppy_arguments_map_ d |} b))
  /\ (forall isolate fuel this b i d,
        mode_ b = kDisabled ->
        data_ this = Some i -> zone_ b !! i = Some d ->
        HeapObjectRef_map InstanceTypeChecker_Is ODDBALL_TYPE flag isolate
          fuel this b
        = ObjectRef_new InstanceTypeChecker_Is ODDBALL_TYPE flag isolate fuel
            (HeapObject_map isolate (ObjectData_object d)) b
        /\ HeapObjectRef_type InstanceTypeChecker_Is ODDBALL_TYPE isolate
             this b
           = Ok (Some (HeapObjectTypeFromMap ODDBALL_TYPE isolate
                         (HeapObject_map isolate (ObjectData_object d)))) b
        /\ JSFunctionRef_shared InstanceTypeChecker_Is ODDBALL_TYPE flag
             isolate fuel this b
           = ObjectRef_new InstanceTypeChecker_Is ODDBALL_TYPE flag isolate
               fuel (JSFunction_shared isolate (ObjectData_object d)) b
        /\ NativeContextRef_sloppy_arguments_map InstanceTypeChecker_Is
             ODDBALL_TYPE flag isolate fuel this b
           = ObjectRef_new InstanceTypeChecker_Is ODDBALL_TYPE flag isolate
               fuel
               (Context_sloppy_arguments_map isolate (ObjectData_object d))
               b)
  /\ (forall isolate this b i d,
        data_ this = Some i -> zone_ b !! i = Some d ->
        HeapNumberRef_value isolate this b
        = Ok (HeapNumber_value isolate (ObjectData_object d)) b
        /\ StringRef_length isolate this b
           = Ok (String_length isolate (ObjectData_object d)) b).
Proof.
  assert (Hsnap : forall b, mode_ b <> kDisabled ->
            BrokerMode_eqb (mode_ b) kDisabled = false)
    by (intros b Hm; destruct (mode_ b); [congruence|reflexivity..]).
  split; [|split; [|split]].
  - repeat split; intros; intros isolate1 isolate2 this b Hmode;
      unfold HeapObjectRef_map, HeapObjectRef_type, JSFunctionRef_shared,
        NativeContextRef_sloppy_arguments_map;
      rewrite !mode_branch, (Hsnap b Hmode);
      apply bind_same_start, ObjectData_As_snapshot, Hmode.
  - intros isolate fuel this b i d Hmode Hi Hd.
    unfold HeapObjectRef_map, HeapObjectRef_type, JSFunctionRef_shared,
      NativeContextRef_sloppy_arguments_map.
    rewrite !mode_branch, (Hsnap b Hmode).
    split; [intros Hn; split|split; intros Hn].
    + now apply (narrowed_read isolate _
                   (fun d => {| data_ := HeapObjectData_map d |}) this b i d).
    + now apply (narrowed_read isolate _ HeapObjectData_type this b i d).
    + now apply (narrowed_read isolate _
                   (fun d => {| data_ := JSFunctionData_shared d |})
                   this b i d).
    + now apply (narrowed_read isolate _
                   (fun d => {| data_ :=
                                  NativeContextData_sloppy_arguments_map_ d |})
                   this b i d).
  - intros isolate fuel this b i d Hmode Hi Hd.
    unfold HeapObjectRef_map, HeapObjectRef_type, JSFunctionRef_shared,
      NativeContextRef_sloppy_arguments_map, ObjectRef_object.
    rewrite !mode_branch, Hmode. cbn [BrokerMode_eqb].
    unfold bind, deref, ret. now rewrite Hi, Hd.
  - intros isolate this b i d Hi Hd.
    unfold HeapNumberRef_value, StringRef_length, ObjectRef_object,
      bind, deref, ret.
    now rewrite Hi, Hd.
Qed.

End Accessors.

(** ** The sample heap *)

Lemma sample_objects_cases (o : Address) :
  o ∈ sample_objects ->
  o ∈ [10; 11; 12; 13; 14; 20; 21; 30; 31; 40]%N.
Proof. unfold sample_objects. now rewrite elem_of_list_to_set. Qed.

Ltac sample_object o H :=
  apply sample_objects_cases in H;
  repeat (apply elem_of_cons in H; destruct H as [->|H]);
  [..|now apply elem_of_nil in H].

Lemma sample_heap_closed n : heap_closed (sample_isolate n) sample_objects.
Proof.
  intros o Ho. sample_object o Ho;
    (repeat split; unfold sample_objects; apply elem_of_list_to_set; cbn;
     repeat (first [left; reflexivity | right])).
Qed.

Lemma sample_heap_well_typed n :
  heap_well_typed sample_InstanceTypeChecker_Is (sample_isolate n)
    sample_objects.
Proof.
  intros o Ho Hsmi. sample_object o Ho; cbn; repeat split; discriminate.
Qed.

Lemma broker_inv_new ODDBALL_TYPE isolate flag :
  broker_inv ODDBALL_TYPE isolate (JSHeapBroker_new flag).
Proof.
  split; [split|].
  - intros h p Hp. exfalso. exact (lookup_empty_Some (M := gmap Address) h p Hp).
  - intros p d [=].
  - intros _ h p d Hp. exfalso.
    exact (lookup_empty_Some (M := gmap Address) h p Hp).
Qed.

Lemma sample_unserialized flag :
  unserialized sample_objects (JSHeapBroker_new flag) <= 10.
Proof.
  unfold unserialized. etrans; [apply subseteq_size|].
  - apply subseteq_difference_l. reflexivity.
  - unfold sample_objects. vm_compute. lia.
Qed.

(** ** The claims on the sample heap *)

(** Four calls, two of them for the function 20, starting from a fresh
    broker in mode [kSerializing]: both return the same record, which is a
    record of the function in the zone. *)
Lemma GetOrCreateData_same_record_witness :
  exists datas b' i d,
    GetOrCreateData_seq
      (GetOrCreateData sample_InstanceTypeChecker_Is sample_ODDBALL_TYPE
         (sample_flags true) (sample_isolate 3) 10)
      [20; 30; 20; 21]%N (JSHeapBroker_new (sample_flags true))
    = Ok datas b'
    /\ datas !! 0 = Some (Some i)
    /\ datas !! 2 = Some (Some i)
    /\ zone_ b' !! i = Some d
    /\ ObjectData_object d = 20%N.
Proof.
  destruct (GetOrCreateData_same_record sample_InstanceTypeChecker_Is
              sample_ODDBALL_TYPE (sample_flags true) (sample_isolate 3)
              sample_objects 10 [20; 30; 20; 21]%N
              (JSHeapBroker_new (sample_flags true)))
    as (Hsame & Hnew & Hreturns).
  destruct Hreturns as (datas & b' & E).
  - reflexivity.
  - apply sample_heap_closed.
  - apply sample_heap_well_typed.
  - intros o Ho. unfold sample_objects. apply elem_of_list_to_set.
    repeat (apply elem_of_cons in Ho; destruct Ho as [->|Ho]);
      [| | | |now apply elem_of_nil in Ho];
      repeat (first [left; reflexivity | right]).
  - reflexivity.
  - exact Hnew.
  - apply sample_unserialized.
  - destruct (Hsame datas b' E) as (Hsame1 & _ & Hrecord).
    destruct (Hsame1 0 2 20%N eq_refl eq_refl) as (i & H0 & H2 & _).
    destruct (Hrecord Hnew 0 20%N eq_refl)
      as (i' & d & H0' & Hz & Hobj & _).
    exists datas, b', i, d.
    assert (i' = i) as -> by congruence.
    split; [exact E|]. auto.
Defined.

Lemma sample_function_object : (20%N : Address) ∈ sample_objects.
Proof.
  unfold sample_objects. apply elem_of_list_to_set.
  repeat (first [left; reflexivity | right]).
Qed.

(** The function 20, with an empty cache: fatal once sealed under the
    strict flag; while serializing, a record of the function is created
    and cached. *)
Lemma GetOrCreateData_mode_gating_witness :
  GetOrCreateData sample_InstanceTypeChecker_Is sample_ODDBALL_TYPE
    (sample_flags true) (sample_isolate 3) 10 20%N
    {| refs_ := ∅; mode_ := kSerialized; zone_ := [] |} = Fatal
  /\ exists i b' d,
       GetOrCreateData sample_InstanceTypeChecker_Is sample_ODDBALL_TYPE
         (sample_flags true) (sample_isolate 3) 10 20%N
         {| refs_ := ∅; mode_ := kSerializing; zone_ := [] |}
       = Ok (Some i) b'
       /\ zone_ b' !! i = Some d
       /\ ObjectData_object d = 20%N
       /\ GetData 20%N b' = Some i.
Proof.
  destruct (GetOrCreateData_mode_gating sample_InstanceTypeChecker_Is
              sample_ODDBALL_TYPE (sample_flags true) (sample_isolate 3)
              sample_objects 10 20%N ∅ [])
    as [Hsealed (i & b' & E & _ & (d & Hz & Hobj & _) & _ & Hget & _)].
  - reflexivity.
  - reflexivity.
  - reflexivity.
  - apply sample_heap_closed.
  - apply sample_heap_well_typed.
  - apply sample_function_object.
  - apply (broker_inv_new _ _ (sample_flags true)).
  - apply (sample_unserialized (sample_flags true)).
  - split; [exact Hsealed|]. exists i, b', d. auto.
Defined.

(** Refs for the strings 30 and 31, which have the same map and the same
    length, are not equal. *)
Lemma ObjectRef_equals_identity_witness :
  exists r1 b1 r2 b2,
    ObjectRef_new sample_InstanceTypeChecker_Is sample_ODDBALL_TYPE
      (sample_flags true) (sample_isolate 3) 10 30%N
      (JSHeapBroker_new (sample_flags true)) = Ok r1 b1
    /\ ObjectRef_new sample_InstanceTypeChecker_Is sample_ODDBALL_TYPE
         (sample_flags true) (sample_isolate 3) 10 31%N b1 = Ok r2 b2
    /\ ObjectRef_equals r1 r2 = false.
Proof.
  eexists _, _, _, _.
  split; [vm_compute; reflexivity|]. split; [vm_compute; reflexivity|].
  eapply (ObjectRef_equals_identity sample_InstanceTypeChecker_Is
            sample_ODDBALL_TYPE (sample_flags true) (sample_isolate 3)
            10 10 30%N 31%N (JSHeapBroker_new (sample_flags true))).
  - apply broker_inv_new.
  - vm_compute. reflexivity.
  - vm_compute. reflexivity.
  - discriminate.
Defined.

(** C4 does not hold of every accessor: with a snapshot in place (mode
    [kSerialized]) [StringRef::length] still follows the live heap; it
    returns 3 or 4 for the same broker and ref, depending on what the live
    string says. *)
Lemma accessors_resolve_by_mode_counterexample :
  ~ accessors_resolve_by_mode sample_InstanceTypeChecker_Is
      sample_ODDBALL_TYPE (sample_flags true).
Proof.
  intros (_ & _ & Hlength).
  specialize (Hlength (sample_isolate 3) (sample_isolate 4)
                sample_string_ref sample_sealed_broker).
  assert (Hmode : mode_ sample_sealed_broker <> kDisabled) by discriminate.
  specialize (Hlength Hmode). vm_compute in Hlength. discriminate.
Qed.

Lemma sample_string_narrows :
  narrows_to sample_InstanceTypeChecker_Is HeapObjectData
    (data_ sample_string_ref) sample_sealed_broker.
Proof.
  split; [discriminate|].
  exists 0, (set_map (Some 1)
               (set_type sample_string_type (ObjectData_members 30%N false))),
    sample_string_type.
  repeat split.
Qed.

(** On the sealed sample broker the map of the string comes from its
    record, and its length from the live string. *)
Lemma accessors_by_mode_witness :
  HeapObjectRef_map sample_InstanceTypeChecker_Is sample_ODDBALL_TYPE
    (sample_flags true) (sample_isolate 4) 0 sample_string_ref
    sample_sealed_broker
  = Ok {| data_ := Some 1 |} sample_sealed_broker
  /\ StringRef_length (sample_isolate 4) sample_string_ref
       sample_sealed_broker
     = Ok 4%Z sample_sealed_broker.
Proof.
  destruct (accessors_by_mode sample_InstanceTypeChecker_Is
              sample_ODDBALL_TYPE (sample_flags true))
    as (_ & Hsnapshot & _ & Hlive).
  split.
  - apply (Hsnapshot (sample_isolate 4) 0 sample_string_ref
             sample_sealed_broker 0
             (set_map (Some 1)
                (set_type sample_string_type
                   (ObjectData_members 30%N false))));
      [discriminate|reflexivity|reflexivity|apply sample_string_narrows].
  - apply (Hlive (sample_isolate 4) sample_string_ref sample_sealed_broker 0
             (set_map (Some 1)
                (set_type sample_string_type
                   (ObjectData_members 30%N false))));
      reflexivity.
Defined.

(** Serializing the function 20 from a fresh broker gives a record with
    both edges. *)
Lemma Serialize_eager_edges_witness :
  exists this b',
    HeapObjectData_Serialize sample_InstanceTypeChecker_Is
      sample_ODDBALL_TYPE (sample_flags true) (sample_isolate 3)
      (GetOrCreateData sample_InstanceTypeChecker_Is sample_ODDBALL_TYPE
         (sample_flags true) (sample_isolate 3) 9)
      20%N (JSHeapBroker_new (sample_flags true))
    = Ok (Some this) b'
    /\ map_resolved (sample_isolate 3) 20%N this b'
    /\ shared_resolved (sample_isolate 3) 20%N this b'.
Proof.
  destruct (Serialize_eager_edges sample_InstanceTypeChecker_Is
              sample_ODDBALL_TYPE (sample_flags true) (sample_isolate 3)
              sample_objects 9 20%N (JSHeapBroker_new (sample_flags true)))
    as (Hedges & Hsafe & _).
  - apply sample_heap_closed.
  - apply sample_function_object.
  - reflexivity.
  - reflexivity.
  - apply sample_unserialized.
  - destruct Hedges as [Hfatal|(this & b' & E & _ & Hmap & Hshared)].
    + exfalso. revert Hfatal. apply Hsafe.
      * reflexivity.
      * apply sample_heap_well_typed.
      * reflexivity.
      * apply broker_inv_new.
    + exists this, b'. split; [exact E|]. split; [exact Hmap|].
      apply Hshared. reflexivity.
Defined.

(** The string 30 has an entry in the sealed sample broker: adding one
    more is fatal. *)
Lemma AddData_duplicate_fatal_witness :
  is_Some (GetData 30%N sample_sealed_broker)
  /\ AddData (sample_isolate 3) 30%N 7 sample_sealed_broker = Fatal.
Proof.
  assert (Hsome : is_Some (GetData 30%N sample_sealed_broker))
    by (exists 0; reflexivity).
  split; [exact Hsome|].
  apply (proj1 (AddData_duplicate_fatal sample_InstanceTypeChecker_Is
                  sample_ODDBALL_TYPE (sample_flags true) (sample_isolate 3))
           30%N 7 sample_sealed_broker Hsome).
Defined.

(** In mode [kDisabled] the record of the map 13 is a map for [IsMap],
    which asks the live object, and yet [AsMap] is fatal. *)
Lemma ObjectData_As_gating_witness :
  mode_ sample_disabled_broker = kDisabled
  /\ ObjectData_Is sample_InstanceTypeChecker_Is (sample_isolate 3) MapData
       (Some 0) sample_disabled_broker
     = Ok true sample_disabled_broker
  /\ ObjectData_As sample_InstanceTypeChecker_Is (sample_isolate 3) MapData
       (Some 0) sample_disabled_broker
     = Fatal.
Proof.
  destruct (ObjectData_As_gating sample_InstanceTypeChecker_Is
              (sample_isolate 3) MapData (Some 0) sample_disabled_broker)
    as (Hdisabled & _ & _).
  destruct (Hdisabled eq_refl) as [Hfatal Hlive].
  split; [reflexivity|]. split; [|exact Hfatal].
  apply (Hlive 0 (ObjectData_members 13%N false)); reflexivity.
Defined.

(** With a snapshot in place, the same record narrows to a map. *)
Example ObjectData_As_snapshot_example :
  ObjectData_As sample_InstanceTypeChecker_Is (sample_isolate 3) MapData
    (Some 1) sample_sealed_broker
  = Ok (Some 1) sample_sealed_broker.
Proof. reflexivity. Qed.

End BrokerFacts.

(** * Facts about the fast-literal analysis *)
Module FastLiteralFacts.
Import FastLiteral.

(** Case analysis on the condition of the first conditional of the goal. *)
Ltac goal_if :=
  match goal with
  | |- context [if ?c then _ else _] => destruct c eqn:?
  end.

Section Facts.

Variable kMaxRegularHeapObjectSize : Z.
Variable kMaxInObjectProperties : Z.
Variable heap : Heap.

Local Abbreviation Helper :=
  (IsFastLiteralHelper kMaxRegularHeapObjectSize heap).
Local Abbreviation check_elements' :=
  (check_elements kMaxRegularHeapObjectSize heap).

(** *** A nested object that fails makes the loops return false *)
Section FailingChild.

Variable rec : Address -> State -> bool * State.
Variable c : Address.
Hypothesis c_object : Object_IsJSObject heap c = true.
Hypothesis c_fails : forall st, fst (rec c st) = false.

Lemma elements_loop_failing_child arr n i st :
  (exists j, (i <= j < i + Z.of_nat n)%Z /\ FixedArray_get heap arr j = c) ->
  fst (elements_loop heap rec arr n i st) = false.
Proof.
  revert i st. induction n as [|n IH]; intros i st [j [Hj Hc]].
  - lia.
  - cbn [elements_loop].
    destruct (Z.eqb (max_properties st) 0); [reflexivity|].
    destruct (Z.eq_dec j i) as [->|Hne].
    + rewrite Hc, c_object.
      specialize (c_fails (log (kElementsGet arr i) (decrement st))).
      destruct (rec c _) as [ok st']. cbn in c_fails. now subst ok.
    + assert (Hnext : exists j, (i + 1 <= j < i + 1 + Z.of_nat n)%Z /\
                                FixedArray_get heap arr j = c)
        by (exists j; split; [lia|assumption]).
      destruct (Object_IsJSObject heap (FixedArray_get heap arr i)).
      * destruct (rec _ _) as [[|] st']; [|reflexivity]. now apply IH.
      * now apply IH.
Qed.

Lemma properties_loop_failing_child o n i st :
  (exists j, (i <= j < i + Z.of_nat n)%Z /\
     Map_GetDetails_location heap (HeapObject_map heap o) j = kField /\
     JSObject_IsUnboxedDoubleField heap o
       (FieldIndex_ForDescriptor heap (HeapObject_map heap o) j) = false /\
     JSObject_RawFastPropertyAt heap o
       (FieldIndex_ForDescriptor heap (HeapObject_map heap o) j) = c) ->
  fst (properties_loop heap rec o n i st) = false.
Proof.
  revert i st.
  induction n as [|n IH]; intros i st [j [Hj [Hloc [Hunb Hc]]]].
  - lia.
  - cbn [properties_loop].
    destruct (Z.eq_dec j i) as [->|Hne].
    + rewrite Hloc. cbn [PropertyLocation_eqb negb].
      destruct (Z.eqb (max_properties st) 0); [reflexivity|].
      rewrite Hunb, Hc, c_object.
      match goal with |- context [rec c ?s] => specialize (c_fails s) end.
      destruct (rec c _) as [ok st']. cbn in c_fails. now subst ok.
    + assert (Hnext : exists j, (i + 1 <= j < i + 1 + Z.of_nat n)%Z /\
         Map_GetDetails_location heap (HeapObject_map heap o) j = kField /\
         JSObject_IsUnboxedDoubleField heap o
           (FieldIndex_ForDescriptor heap (HeapObject_map heap o) j) = false /\
         JSObject_RawFastPropertyAt heap o
           (FieldIndex_ForDescriptor heap (HeapObject_map heap o) j) = c)
        by (exists j; repeat split; try assumption; lia).
      goal_if; [now apply IH|].
      goal_if; [reflexivity|].
      goal_if; [now apply IH|].
      goal_if; [|now apply IH].
      destruct (rec _ _) as [[|] st']; [|reflexivity]. now apply IH.
Qed.

End FailingChild.

Lemma Helper_depth_exhausted o st :
  Helper 0 o st = (false, log (kTryMigrateInstance o) st).
Proof. cbn. now destruct (JSObject_TryMigrateInstance heap o). Qed.

Lemma nested_to_depth_fails d :
  forall o st, nested_to_depth heap (S d) o -> fst (Helper d o st) = false.
Proof.
  induction d as [|d IH]; intros o st Hn.
  - now rewrite Helper_depth_exhausted.
  - inversion Hn as [|n o' c [Hobj Hin] Hc]; subst.
    cbn [IsFastLiteralHelper].
    destruct (negb (JSObject_TryMigrateInstance heap o)); [reflexivity|].
    assert (Hrec : forall st, fst (Helper d c st) = false)
      by (intros; now apply IH).
    destruct Hin as [(Hcow & Hkind & i & Hi & Hget)|(i & Hi & Hloc & Hunb & Hv)].
    + assert (He : fst (check_elements' (Helper d) o
                          (log (kTryMigrateInstance o) st)) = false).
      { unfold check_elements.
        replace (Z.ltb 0 _) with true by (symmetry; apply Z.ltb_lt; lia).
        replace (N.eqb _ _) with false
          by (symmetry; now apply N.eqb_neq).
        cbn [andb negb]. rewrite Hkind.
        apply elements_loop_failing_child with (c := c); auto.
        exists i. split; [lia|assumption]. }
      destruct (check_elements' _ _ _) as [ok st']. cbn in He. now subst ok.
    + destruct (check_elements' _ _ _) as [[|] st']; [|reflexivity].
      unfold check_properties.
      destruct (negb _); [reflexivity|].
      apply properties_loop_failing_child with (c := c); auto.
      exists i. repeat split; try assumption; lia.
Qed.

Lemma nested_to_depth_less n :
  forall o, nested_to_depth heap (S (S n)) o -> nested_to_depth heap (S n) o.
Proof.
  induction n as [|n IH]; intros o Hn.
  - constructor.
  - inversion Hn as [|? ? c Hin Hc]; subst.
    econstructor; [exact Hin|]. now apply IH.
Qed.

Lemma nested_to_depth_le n m o :
  (1 <= m)%nat -> (m <= n)%nat ->
  nested_to_depth heap n o -> nested_to_depth heap m o.
Proof.
  intros Hm Hle. induction Hle as [|n Hle IH]; [auto|].
  intros Hn. apply IH. destruct n as [|n]; [lia|].
  now apply nested_to_depth_less.
Qed.

(** *** Objects without nested objects *)

Lemma check_elements_inert rec o st :
  (FixedArrayBase_length heap (JSObject_elements heap o) <= 0)%Z \/
  HeapObject_map heap (JSObject_elements heap o) = fixed_cow_array_map heap ->
  check_elements' rec o st = (true, st).
Proof.
  intros [Hlen|Hcow]; unfold check_elements.
  - replace (Z.ltb 0 _) with false by (symmetry; apply Z.ltb_ge; lia).
    reflexivity.
  - rewrite Hcow, N.eqb_refl. cbn [negb]. now rewrite andb_false_r.
Qed.

(** *** Every decrement is an element read or a field visit *)
Section Conservation.

Variable rec : Address -> State -> bool * State.
Hypothesis rec_conserves : forall c st,
  fst (rec c st) = true ->
  budget_and_visits (snd (rec c st)) = budget_and_visits st.

Lemma elements_loop_conserves arr n : forall i st,
  fst (elements_loop heap rec arr n i st) = true ->
  budget_and_visits (snd (elements_loop heap rec arr n i st))
  = budget_and_visits st.
Proof.
  induction n as [|n IH]; intros i st; cbn [elements_loop]; [reflexivity|].
  assert (Hstep : budget_and_visits (log (kElementsGet arr i) (decrement st))
                  = budget_and_visits st)
    by (unfold budget_and_visits; cbn; lia).
  goal_if; [discriminate|]. goal_if.
  - pose proof (rec_conserves (FixedArray_get heap arr i)
                  (log (kElementsGet arr i) (decrement st))) as Hrec.
    destruct (rec _ _) as [[|] st']; [|discriminate].
    cbn in Hrec. intros Hok. rewrite IH by assumption.
    rewrite Hrec by reflexivity. assumption.
  - intros Hok. now rewrite IH.
Qed.

Lemma properties_loop_conserves o n : forall i st,
  fst (properties_loop heap rec o n i st) = true ->
  budget_and_visits (snd (properties_loop heap rec o n i st))
  = budget_and_visits st.
Proof.
  induction n as [|n IH]; intros i st; cbn [properties_loop]; [reflexivity|].
  goal_if; [apply IH|].
  goal_if; [discriminate|].
  match goal with
  | |- context [log ?e (decrement st)] =>
      assert (Hstep : budget_and_visits (log e (decrement st))
                      = budget_and_visits st)
        by (unfold budget_and_visits; cbn; lia)
  end.
  goal_if; [intros Hok; now rewrite IH|].
  goal_if; [|intros Hok; now rewrite IH].
  match goal with
  | |- context [rec ?c ?s] => pose proof (rec_conserves c s) as Hrec
  end.
  destruct (rec _ _) as [[|] st']; [|discriminate].
  cbn in Hrec. intros Hok. rewrite IH by assumption.
  rewrite Hrec by reflexivity. assumption.
Qed.

End Conservation.

Lemma Helper_conserves d : forall o st,
  fst (Helper d o st) = true ->
  budget_and_visits (snd (Helper d o st)) = budget_and_visits st.
Proof.
  induction d as [|d IH]; intros o st.
  - rewrite Helper_depth_exhausted. discriminate.
  - cbn [IsFastLiteralHelper].
    goal_if; [discriminate|].
    assert (Hel : forall st0,
      fst (check_elements' (Helper d) o st0) = true ->
      budget_and_visits (snd (check_elements' (Helper d) o st0))
      = budget_and_visits st0).
    { intros st0. unfold check_elements.
      goal_if; [|reflexivity].
      goal_if; [now apply elements_loop_conserves|].
      goal_if; [|discriminate]. goal_if; [discriminate|reflexivity]. }
    specialize (Hel (log (kTryMigrateInstance o) st)).
    destruct (check_elements' _ _ _) as [[|] st1]; [|discriminate].
    cbn in Hel. unfold check_properties.
    goal_if; [discriminate|].
    intros Hok. rewrite properties_loop_conserves by assumption.
    now rewrite Hel.
Qed.

(** *** Copy-on-write backing stores are never read *)
Section NoCowRead.

Variable rec : Address -> State -> bool * State.
Hypothesis rec_no_cow : forall c st,
  Forall (reads_no_cow_store heap) (trace st) ->
  Forall (reads_no_cow_store heap) (trace (snd (rec c st))).

Lemma elements_loop_no_cow arr n : forall i st,
  HeapObject_map heap arr <> fixed_cow_array_map heap ->
  Forall (reads_no_cow_store heap) (trace st) ->
  Forall (reads_no_cow_store heap)
    (trace (snd (elements_loop heap rec arr n i st))).
Proof.
  induction n as [|n IH]; intros i st Harr Hst; cbn [elements_loop];
    [assumption|].
  goal_if; [assumption|].
  assert (Hst' : Forall (reads_no_cow_store heap)
                   (trace (log (kElementsGet arr i) (decrement st)))).
  { cbn. constructor; [|assumption]. intros a [= <-]. assumption. }
  goal_if; [|now apply IH].
  pose proof (rec_no_cow (FixedArray_get heap arr i) _ Hst') as Hrec.
  destruct (rec _ _) as [[|] st']; cbn in Hrec; [now apply IH|assumption].
Qed.

Lemma properties_loop_no_cow o n : forall i st,
  Forall (reads_no_cow_store heap) (trace st) ->
  Forall (reads_no_cow_store heap)
    (trace (snd (properties_loop heap rec o n i st))).
Proof.
  induction n as [|n IH]; intros i st Hst; cbn [properties_loop];
    [assumption|].
  goal_if; [now apply IH|].
  goal_if; [assumption|].
  match goal with
  | |- context [log ?e (decrement st)] =>
      assert (Hst' : Forall (reads_no_cow_store heap)
                       (trace (log e (decrement st))))
        by (cbn; constructor; [intros a; discriminate|assumption])
  end.
  goal_if; [now apply IH|].
  goal_if; [|now apply IH].
  match goal with
  | |- context [rec ?c ?s] => pose proof (rec_no_cow c s Hst') as Hrec
  end.
  destruct (rec _ _) as [[|] st']; cbn in Hrec; [now apply IH|assumption].
Qed.

End NoCowRead.

Lemma Helper_no_cow d : forall o st,
  Forall (reads_no_cow_store heap) (trace st) ->
  Forall (reads_no_cow_store heap) (trace (snd (Helper d o st))).
Proof.
  induction d as [|d IH]; intros o st Hst.
  - rewrite Helper_depth_exhausted. cbn.
    constructor; [intros a; discriminate|assumption].
  - cbn [IsFastLiteralHelper].
    assert (Hst' : Forall (reads_no_cow_store heap)
                     (trace (log (kTryMigrateInstance o) st)))
      by (cbn; constructor; [intros a; discriminate|assumption]).
    goal_if; [assumption|].
    assert (Hel : Forall (reads_no_cow_store heap)
      (trace (snd (check_elements' (Helper d) o
                     (log (kTryMigrateInstance o) st))))).
    { unfold check_elements.
      goal_if; [|assumption].
      match goal with
      | H : _ && negb (N.eqb ?a ?b) = true |- _ =>
          apply andb_prop in H; destruct H as [_ Hne];
          apply negb_true_iff, N.eqb_neq in Hne
      end.
      goal_if; [now apply elements_loop_no_cow|].
      assert (Forall (reads_no_cow_store heap)
                (trace (log (kElementsSize (JSObject_elements heap o))
                          (log (kTryMigrateInstance o) st))))
        by (cbn; constructor; [intros a [= <-]|]; assumption).
      goal_if; [|assumption]. now goal_if. }
    destruct (check_elements' _ _ _) as [[|] st1]; cbn in Hel; [|assumption].
    unfold check_properties. goal_if; [assumption|].
    now apply properties_loop_no_cow.
Qed.

(** *** The verdict is "the size of the literal fits the budget" *)

Lemma respects_budget_exhausted st st' (value rest : option Z) :
  max_properties st = 0%Z ->
  (forall k, value = Some k -> (0 <= k)%Z) ->
  (forall r, rest = Some r -> (0 <= r)%Z) ->
  respects_budget (false, st') (count_one value rest) st.
Proof.
  intros Hz Hv Hr. split; [|discriminate]. cbn.
  destruct value as [k|], rest as [r|]; cbn; try reflexivity.
  specialize (Hv k eq_refl). specialize (Hr r eq_refl).
  symmetry. apply Z.leb_gt. lia.
Qed.

(** One counted entry: the decrement, then the value, then the rest of the
    loop. *)
Lemma respects_budget_step (rv : bool * State)
  (rl : State -> bool * State) (value rest : option Z) st st1 :
  max_properties st1 = (max_properties st - 1)%Z ->
  (0 <= max_properties st1)%Z ->
  respects_budget rv value st1 ->
  (forall st2, (0 <= max_properties st2)%Z ->
               respects_budget (rl st2) rest st2) ->
  (forall r, rest = Some r -> (0 <= r)%Z) ->
  respects_budget (let '(ok, st2) := rv in
                   if ok then rl st2 else (false, st2))
                  (count_one value rest) st.
Proof.
  intros Hdec Hpos [Hv1 Hv2] Hl Hr. destruct rv as [[|] st2]; cbn in *.
  - destruct value as [k|]; cbn in Hv1; [|discriminate].
    symmetry in Hv1. apply Z.leb_le in Hv1.
    specialize (Hv2 eq_refl k eq_refl).
    destruct (Hl st2 ltac:(lia)) as [Hl1 Hl2]. split.
    + rewrite Hl1. destruct rest as [r|]; cbn; [|reflexivity].
      destruct (Z.leb_spec r (max_properties st2)); symmetry;
        [apply Z.leb_le|apply Z.leb_gt]; lia.
    + intros Hok k' Hk'. destruct rest as [r|]; cbn in Hk'; [|discriminate].
      injection Hk' as <-. rewrite (Hl2 Hok r eq_refl). lia.
  - split; [|discriminate]. cbn.
    destruct value as [k|], rest as [r|]; cbn; try reflexivity.
    cbn in Hv1. symmetry in Hv1. apply Z.leb_gt in Hv1.
    specialize (Hr r eq_refl). symmetry. apply Z.leb_gt. lia.
Qed.

Section Size.

Variable rec : Address -> State -> bool * State.
Variable rec_size : Address -> option Z.
Hypothesis rec_respects : forall c st,
  (0 <= max_properties st)%Z -> respects_budget (rec c st) (rec_size c) st.
Hypothesis rec_size_nonneg : forall c k, rec_size c = Some k -> (0 <= k)%Z.

Lemma value_size_nonneg value k :
  value_size heap rec_size value = Some k -> (0 <= k)%Z.
Proof.
  unfold value_size. destruct (Object_IsJSObject heap value).
  - apply rec_size_nonneg.
  - intros [= <-]. lia.
Qed.

Lemma count_one_nonneg (value rest : option Z) k :
  (forall v, value = Some v -> (0 <= v)%Z) ->
  (forall r, rest = Some r -> (0 <= r)%Z) ->
  count_one value rest = Some k -> (0 <= k)%Z.
Proof.
  intros Hv Hr. destruct value as [v|], rest as [r|]; cbn; try discriminate.
  intros [= <-]. specialize (Hv v eq_refl). specialize (Hr r eq_refl). lia.
Qed.

Lemma elements_size_nonneg arr n : forall i k,
  elements_size heap rec_size arr n i = Some k -> (0 <= k)%Z.
Proof.
  induction n as [|n IH]; intros i k; cbn [elements_size].
  - intros [= <-]. lia.
  - apply count_one_nonneg; [apply value_size_nonneg|apply IH].
Qed.

Lemma properties_size_nonneg o n : forall i k,
  properties_size heap rec_size o n i = Some k -> (0 <= k)%Z.
Proof.
  induction n as [|n IH]; intros i k; cbn [properties_size].
  - intros [= <-]. lia.
  - goal_if; [apply IH|].
    apply count_one_nonneg; [|apply IH].
    intros v. goal_if; [intros [= <-]; lia|apply value_size_nonneg].
Qed.

Lemma object_size_nonneg o k :
  object_size heap kMaxRegularHeapObjectSize rec_size o = Some k ->
  (0 <= k)%Z.
Proof.
  unfold object_size. goal_if; [discriminate|].
  destruct (object_elements_size _ _ _ o) as [e|] eqn:He; [|discriminate].
  destruct (object_properties_size _ _ o) as [p|] eqn:Hp; [|discriminate].
  intros [= <-].
  assert (0 <= e)%Z.
  { revert He. unfold object_elements_size.
    goal_if; [|intros [= <-]; lia].
    goal_if; [apply elements_size_nonneg|].
    goal_if; [|discriminate]. goal_if; [discriminate|intros [= <-]; lia]. }
  assert (0 <= p)%Z.
  { revert Hp. unfold object_properties_size.
    goal_if; [discriminate|apply properties_size_nonneg]. }
  lia.
Qed.

(** The value of a counted entry, read after the decrement. *)
Lemma value_respects value st :
  (0 <= max_properties st)%Z ->
  respects_budget
    (if Object_IsJSObject heap value then rec value st else (true, st))
    (value_size heap rec_size value) st.
Proof.
  intros Hpos. unfold value_size.
  destruct (Object_IsJSObject heap value); [now apply rec_respects|].
  split; cbn.
  - symmetry. now apply Z.leb_le.
  - intros _ k [= <-]. lia.
Qed.

Lemma elements_loop_respects arr n : forall i st,
  (0 <= max_properties st)%Z ->
  respects_budget (elements_loop heap rec arr n i st)
                  (elements_size heap rec_size arr n i) st.
Proof.
  induction n as [|n IH]; intros i st Hpos;
    cbn [elements_loop elements_size].
  - split; cbn; [symmetry; now apply Z.leb_le|intros _ k [= <-]; lia].
  - destruct (Z.eqb_spec (max_properties st) 0) as [Hz|Hnz].
    + apply respects_budget_exhausted;
        [assumption|apply value_size_nonneg|apply elements_size_nonneg].
    + pose proof (respects_budget_step
        (if Object_IsJSObject heap (FixedArray_get heap arr i)
         then rec (FixedArray_get heap arr i)
                (log (kElementsGet arr i) (decrement st))
         else (true, log (kElementsGet arr i) (decrement st)))
        (elements_loop heap rec arr n (i + 1))
        (value_size heap rec_size (FixedArray_get heap arr i))
        (elements_size heap rec_size arr n (i + 1))
        st (log (kElementsGet arr i) (decrement st))) as Hstep.
      cbn [max_properties log decrement] in Hstep.
      assert (Hpos1 : (0 <= max_properties st - 1)%Z) by lia.
      specialize (Hstep eq_refl Hpos1
                    (value_respects (FixedArray_get heap arr i)
                       (log (kElementsGet arr i) (decrement st)) Hpos1)
                    (IH (i + 1)%Z) (elements_size_nonneg arr n (i + 1)%Z)).
      destruct (Object_IsJSObject heap (FixedArray_get heap arr i));
        exact Hstep.
Qed.

Lemma properties_loop_respects o n : forall i st,
  (0 <= max_properties st)%Z ->
  respects_budget (properties_loop heap rec o n i st)
                  (properties_size heap rec_size o n i) st.
Proof.
  induction n as [|n IH]; intros i st Hpos;
    cbn [properties_loop properties_size].
  - split; cbn; [symmetry; now apply Z.leb_le|intros _ k [= <-]; lia].
  - goal_if; [now apply IH|].
    set (field_index := FieldIndex_ForDescriptor heap
                          (HeapObject_map heap o) i).
    set (value := JSObject_RawFastPropertyAt heap o field_index).
    set (size := if JSObject_IsUnboxedDoubleField heap o field_index
                 then Some 0%Z else value_size heap rec_size value).
    assert (Hsize : forall v, size = Some v -> (0 <= v)%Z).
    { intros v. unfold size. goal_if; [intros [= <-]; lia|].
      apply value_size_nonneg. }
    destruct (Z.eqb_spec (max_properties st) 0) as [Hz|Hnz].
    + apply respects_budget_exhausted;
        [assumption|exact Hsize|apply properties_size_nonneg].
    + set (st1 := log (kIsUnboxedDoubleField o field_index) (decrement st)).
      pose proof (respects_budget_step
        (if JSObject_IsUnboxedDoubleField heap o field_index
         then (true, st1)
         else if Object_IsJSObject heap value then rec value st1
              else (true, st1))
        (properties_loop heap rec o n (i + 1))
        size (properties_size heap rec_size o n (i + 1)) st st1) as Hstep.
      cbn [max_properties log decrement st1] in Hstep.
      assert (Hpos1 : (0 <= max_properties st - 1)%Z) by lia.
      specialize (Hstep eq_refl Hpos1).
      assert (Hvalue : respects_budget
        (if JSObject_IsUnboxedDoubleField heap o field_index
         then (true, st1)
         else if Object_IsJSObject heap value then rec value st1
              else (true, st1)) size st1).
      { unfold size.
        destruct (JSObject_IsUnboxedDoubleField heap o field_index).
        - split; cbn; [symmetry; apply Z.leb_le; lia|intros _ k [= <-]; lia].
        - exact (value_respects value st1 Hpos1). }
      specialize (Hstep Hvalue (IH (i + 1)%Z)
                    (properties_size_nonneg o n (i + 1)%Z)).
      destruct (JSObject_IsUnboxedDoubleField heap o field_index);
        [exact Hstep|].
      destruct (Object_IsJSObject heap value); exact Hstep.
Qed.

Lemma check_elements_respects o st :
  (0 <= max_properties st)%Z ->
  respects_budget (check_elements' rec o st)
    (object_elements_size heap kMaxRegularHeapObjectSize rec_size o) st.
Proof.
  intros Hpos. unfold check_elements, object_elements_size.
  assert (Hpass : forall st', max_properties st' = max_properties st ->
            respects_budget (true, st') (Some 0%Z) st).
  { intros st' Hst'. split; cbn; [symmetry; now apply Z.leb_le|].
    intros _ k [= <-]. lia. }
  assert (Hfail : forall st', respects_budget (false, st') None st)
    by (intros st'; split; [reflexivity|discriminate]).
  goal_if; [|now apply Hpass].
  goal_if; [now apply elements_loop_respects|].
  goal_if; [|apply Hfail].
  goal_if; [apply Hfail|now apply Hpass].
Qed.

Lemma check_properties_respects o st :
  (0 <= max_properties st)%Z ->
  respects_budget (check_properties heap rec o st)
    (object_properties_size heap rec_size o) st.
Proof.
  intros Hpos. unfold check_properties, object_properties_size.
  goal_if; [split; [reflexivity|discriminate]|].
  now apply properties_loop_respects.
Qed.

End Size.

Lemma literal_size_nonneg d : forall o k,
  literal_size heap kMaxRegularHeapObjectSize d o = Some k -> (0 <= k)%Z.
Proof.
  induction d as [|d IH]; intros o k; cbn [literal_size]; [discriminate|].
  apply object_size_nonneg, IH.
Qed.

Lemma Helper_respects_budget d : forall o st,
  (0 <= max_properties st)%Z ->
  respects_budget (Helper d o st)
    (literal_size heap kMaxRegularHeapObjectSize d o) st.
Proof.
  induction d as [|d IH]; intros o st Hpos.
  - rewrite Helper_depth_exhausted. split; [reflexivity|discriminate].
  - cbn [IsFastLiteralHelper literal_size]. unfold object_size.
    goal_if; [split; [reflexivity|discriminate]|].
    pose proof (check_elements_respects (Helper d)
                  (literal_size heap kMaxRegularHeapObjectSize d) IH
                  (literal_size_nonneg d) o
                  (log (kTryMigrateInstance o) st) Hpos) as [He1 He2].
    destruct (check_elements' _ _ _) as [[|] st1]; cbn in He1, He2.
    + destruct (object_elements_size _ _ _ o) as [e|] eqn:Hsize;
        cbn in He1; [|discriminate].
      symmetry in He1. apply Z.leb_le in He1.
      specialize (He2 eq_refl e eq_refl).
      pose proof (check_properties_respects (Helper d)
                    (literal_size heap kMaxRegularHeapObjectSize d) IH
                    (literal_size_nonneg d) o st1 ltac:(lia)) as [Hp1 Hp2].
      destruct (object_properties_size _ _ o) as [p|] eqn:Hpsize.
      * split.
        -- rewrite Hp1. cbn.
           destruct (Z.leb_spec p (max_properties st1)); symmetry;
             [apply Z.leb_le|apply Z.leb_gt]; lia.
        -- intros Hok k [= <-]. rewrite (Hp2 Hok p eq_refl). lia.
      * split; [exact Hp1|discriminate].
    + split; [|discriminate]. cbn.
      destruct (object_elements_size _ _ _ o) as [e|] eqn:Hsize;
        [|reflexivity].
      destruct (object_properties_size _ _ o) as [p|] eqn:Hpsize;
        [|reflexivity].
      cbn in He1. symmetry in He1. apply Z.leb_gt in He1.
      assert (0 <= p)%Z.
      { revert Hpsize. unfold object_properties_size.
        goal_if; [discriminate|].
        apply properties_size_nonneg, literal_size_nonneg. }
      cbn. symmetry. apply Z.leb_gt. lia.
Qed.

Lemma properties_size_inline rec_size o n : forall i,
  (forall j, (i <= j < i + Z.of_nat n)%Z ->
     Map_GetDetails_location heap (HeapObject_map heap o) j = kField ->
     JSObject_IsUnboxedDoubleField heap o
       (FieldIndex_ForDescriptor heap (HeapObject_map heap o) j) = true \/
     Object_IsJSObject heap
       (JSObject_RawFastPropertyAt heap o
          (FieldIndex_ForDescriptor heap (HeapObject_map heap o) j)) = false) ->
  properties_size heap rec_size o n i
  = Some (count_fields heap (HeapObject_map heap o) n i).
Proof.
  induction n as [|n IH]; intros i Hflat;
    cbn [properties_size count_fields]; [reflexivity|].
  rewrite IH by (intros j Hj; apply Hflat; lia).
  destruct (PropertyLocation_eqb _ kField) eqn:Hloc; cbn [negb];
    [|reflexivity].
  assert (Hfield :
    Map_GetDetails_location heap (HeapObject_map heap o) i = kField)
    by (now destruct (Map_GetDetails_location heap _ i)).
  destruct (Hflat i ltac:(lia) Hfield) as [Hunb|Hobj].
  - rewrite Hunb. unfold count_one. apply (f_equal Some). lia.
  - unfold value_size. rewrite Hobj.
    goal_if; unfold count_one; apply (f_equal Some); lia.
Qed.

Lemma literal_size_inline_only d o :
  inline_only heap o ->
  literal_size heap kMaxRegularHeapObjectSize (S d) o
  = Some (inline_fields heap o).
Proof.
  intros (Hmig & Hel & Hfast & Hpa & Hflat).
  cbn [literal_size]. unfold object_size. rewrite Hmig. cbn [negb].
  assert (He : object_elements_size heap kMaxRegularHeapObjectSize
                 (literal_size heap kMaxRegularHeapObjectSize d) o
               = Some 0%Z).
  { unfold object_elements_size. destruct Hel as [Hlen|Hcow].
    - replace (Z.ltb 0 _) with false by (symmetry; apply Z.ltb_ge; lia).
      reflexivity.
    - rewrite Hcow, N.eqb_refl. cbn [negb]. now rewrite andb_false_r. }
  rewrite He. unfold object_properties_size.
  rewrite Hfast, Hpa. cbn [Z.eqb andb negb].
  rewrite properties_size_inline; [reflexivity|].
  intros j Hj. apply Hflat.
  destruct (Z.le_gt_cases 0 (Map_NumberOfOwnDescriptors heap
                               (HeapObject_map heap o)));
    [rewrite Z2Nat.id in Hj by assumption; lia|].
  rewrite Z2Nat.nonpos in Hj by lia. cbn in Hj. lia.
Qed.

(** *** The boundary behaviour of the analysis *)

(** C6.  A boilerplate whose graph has an object at a nesting level above
    [kMaxFastLiteralDepth] (= 3) is not a fast literal.  At the level where
    the depth is used up the helper calls [TryMigrateInstance], returns
    false, and does nothing else: no element or property is read and the
    budget is left alone.  A failed migration returns false in the same
    way at every depth. *)
Theorem IsFastLiteral_depth_bound (site : Address) (n : nat) :
  (kMaxFastLiteralDepth < n)%nat ->
  nested_to_depth heap n (AllocationSite_boilerplate heap site) ->
  IsFastLiteral kMaxRegularHeapObjectSize kMaxInObjectProperties heap site
  = false
  /\ (forall o st, Helper 0 o st = (false, log (kTryMigrateInstance o) st))
  /\ (forall d o st, JSObject_TryMigrateInstance heap o = false ->
        Helper d o st = (false, log (kTryMigrateInstance o) st)).
Proof.
  intros Hn Hdepth. split; [|split].
  - unfold IsFastLiteral. apply nested_to_depth_fails.
    apply nested_to_depth_le with (n := n); [lia|exact Hn|exact Hdepth].
  - apply Helper_depth_exhausted.
  - intros d o st Hmig. destruct d; cbn [IsFastLiteralHelper];
      now rewrite Hmig.
Qed.


(** C8.  When the backing store of [o] has the copy-on-write map, the
    element checks do nothing: they pass without touching the budget or
    reading the store (whatever its length, kind and size), the helper's
    verdict on [o] is that of the property checks alone, and no run of the
    helper ever reads an element or the size of a copy-on-write store. *)
Theorem IsFastLiteralHelper_cow_elements (o : Address) :
  HeapObject_map heap (JSObject_elements heap o) = fixed_cow_array_map heap ->
  (forall rec st, check_elements' rec o st = (true, st))
  /\ (forall d st, JSObject_TryMigrateInstance heap o = true ->
        Helper (S d) o st
        = check_properties heap (Helper d) o
            (log (kTryMigrateInstance o) st))
  /\ (forall d o' st,
        Forall (reads_no_cow_store heap) (trace st) ->
        Forall (reads_no_cow_store heap) (trace (snd (Helper d o' st)))).
Proof.
  intros Hcow. split; [|split].
  - intros rec st. apply check_elements_inert. now right.
  - intros d st Hmig. cbn [IsFastLiteralHelper]. rewrite Hmig. cbn [negb].
    rewrite check_elements_inert by now right. reflexivity.
  - intros d o' st. apply Helper_no_cow.
Qed.

End Facts.

(** The sample heap where every object has one field holding the next
    object is nested deeper than the depth budget. *)
Lemma IsFastLiteral_depth_bound_witness :
  (kMaxFastLiteralDepth < 4)%nat
  /\ nested_to_depth (sample_heap 1 0 false true) 4 1%N
  /\ IsFastLiteral 1000 252 (sample_heap 1 0 false true) 0%N = false.
Proof.
  assert (Hstep : forall o : Address, (o < 98)%N ->
            nested_in (sample_heap 1 0 false true) o (o + 1)%N).
  { intros o Ho. split.
    - cbn. apply andb_true_intro. split; apply N.ltb_lt; lia.
    - right. exists 0%Z. cbn. repeat split; lia. }
  assert (Hdepth : nested_to_depth (sample_heap 1 0 false true) 4 1%N).
  { apply (depth_more _ 3 1%N 2%N); [apply (Hstep 1%N); lia|].
    apply (depth_more _ 2 2%N 3%N); [apply (Hstep 2%N); lia|].
    apply (depth_more _ 1 3%N 4%N); [apply (Hstep 3%N); lia|].
    apply depth_one. }
  split; [unfold kMaxFastLiteralDepth; lia|]. split; [exact Hdepth|].
  apply (IsFastLiteral_depth_bound 1000 252 (sample_heap 1 0 false true)
           0%N 4);
    [unfold kMaxFastLiteralDepth; lia|exact Hdepth].
Defined.

(** Three levels fit the depth budget. *)
Example IsFastLiteral_depth_three :
  IsFastLiteral 1000 252
    {| JSObject_TryMigrateInstance := fun _ => true;
       JSObject_elements := fun _ => 100%N;
       FixedArrayBase_length := fun _ => 0%Z;
       HeapObject_map := fun _ => 1000%N;
       fixed_cow_array_map := 999%N;
       JSObject_HasSmiOrObjectElements := fun _ => true;
       JSObject_HasDoubleElements := fun _ => false;
       FixedArray_get := fun _ _ => 0%N;
       FixedArrayBase_Size := fun _ => 16%Z;
       JSObject_HasFastProperties := fun _ => true;
       JSObject_property_array_length := fun _ => 0%Z;
       Map_NumberOfOwnDescriptors := fun _ => 1%Z;
       Map_GetDetails_location := fun _ _ => kField;
       FieldIndex_ForDescriptor := fun _ i => i;
       JSObject_IsUnboxedDoubleField := fun _ _ => false;
       JSObject_RawFastPropertyAt := fun o _ => (o + 1)%N;
       Object_IsJSObject := fun a => N.ltb 0 a && N.ltb a 4;
       AllocationSite_boilerplate := fun _ => 1%N |} 0%N = true.
Proof. reflexivity. Qed.


(** ... and one with three fields is not. *)
Example IsFastLiteral_one_field_too_many :
  IsFastLiteral 1000 2 (sample_heap 3 0 true false) 0%N = false.
Proof. reflexivity. Qed.

(** A copy-on-write store of five elements costs nothing, even with no
    budget at all ... *)
Lemma IsFastLiteralHelper_cow_elements_witness :
  HeapObject_map (sample_heap 0 5 true false)
    (JSObject_elements (sample_heap 0 5 true false) 1%N)
  = fixed_cow_array_map (sample_heap 0 5 true false)
  /\ IsFastLiteralHelper 1000 (sample_heap 0 5 true false) 3 1%N
       {| max_properties := 0; trace := [] |}
     = (true, {| max_properties := 0;
                 trace := [kTryMigrateInstance 1%N] |}).
Proof.
  split; [reflexivity|].
  destruct (IsFastLiteralHelper_cow_elements 1000
              (sample_heap 0 5 true false) 1%N eq_refl) as (_ & Hverdict & _).
  rewrite Hverdict; reflexivity.
Defined.

(** ... while the same store without the copy-on-write map is walked and
    runs out of budget. *)
Example IsFastLiteralHelper_plain_elements :
  IsFastLiteralHelper 1000 (sample_heap 0 5 false false) 3 1%N
    {| max_properties := 0; trace := [] |}
  = (false, {| max_properties := -1;
               trace := [kTryMigrateInstance 1%N] |}).
Proof. reflexivity. Qed.

End FastLiteralFacts.

(** * More facts about the broker *)
Module BrokerMoreFacts.
Import Broker BrokerMore BrokerFacts.
Local Open Scope broker_scope.

Section Facts.

Variable InstanceTypeChecker_Is : DataClass -> InstanceType -> bool.
Variable ODDBALL_TYPE : InstanceType.
Variable flag : Flags.
Variable isolate : Isolate.

Local Abbreviation broker_inv' := (broker_inv ODDBALL_TYPE isolate).
Local Abbreviation narrows_to' := (narrows_to InstanceTypeChecker_Is).
Local Abbreviation As := (ObjectData_As InstanceTypeChecker_Is isolate).
Local Abbreviation TypeFromMap :=
  (HeapObjectTypeFromMap ODDBALL_TYPE isolate).
Local Abbreviation GetOrCreateData' :=
  (GetOrCreateData InstanceTypeChecker_Is ODDBALL_TYPE flag isolate).
Local Abbreviation ObjectRef_new' :=
  (ObjectRef_new InstanceTypeChecker_Is ODDBALL_TYPE flag isolate).
Local Abbreviation ObjectRef_Is' :=
  (ObjectRef_Is InstanceTypeChecker_Is isolate).
Local Abbreviation HeapObjectRef_type' :=
  (HeapObjectRef_type InstanceTypeChecker_Is ODDBALL_TYPE isolate).
Local Abbreviation ObjectRef_oddball_type' :=
  (ObjectRef_oddball_type InstanceTypeChecker_Is ODDBALL_TYPE isolate).

(** ** [GetOrCreateData] *)

(** X1.  What [GetOrCreateData] never does: whenever it returns, the mode
    is what it was, every cache entry still points to the record it
    pointed to, every record that existed is unchanged, and an object that
    got its entry during the call got a record that was allocated during
    the call. *)
Theorem GetOrCreateData_frame fuel o b data b' :
  broker_inv' b ->
  GetOrCreateData' fuel o b = Ok data b' ->
  mode_ b' = mode_ b
  /\ (forall h p, GetData h b = Some p -> GetData h b' = Some p)
  /\ (forall p d, zone_ b !! p = Some d -> zone_ b' !! p = Some d)
  /\ (forall h p, GetData h b = nullptr -> GetData h b' = Some p ->
        length (zone_ b) <= p < length (zone_ b')).
Proof.
  intros Hinv E.
  apply GetOrCreateData_returns in E as (Hext & _ & Hinv').
  specialize (Hinv' Hinv).
  split; [apply Hext|].
  split; [intros h p; now apply extends_refs|].
  split; [intros p d; now apply extends_zone|].
  unfold GetData, nullptr. intros h p Hnone Hp.
  destruct Hinv' as [[H1 _] _]. destruct (H1 h p Hp) as (d & Hd & Hobj).
  split; [|now apply lookup_lt_Some in Hd].
  destruct (Nat.le_gt_cases (length (zone_ b)) p) as [?|Hlt]; [assumption|].
  exfalso. apply lookup_lt_is_Some in Hlt as [d0 Hd0].
  pose proof (extends_zone _ _ _ _ Hext Hd0) as Hd0'.
  rewrite Hd in Hd0'. injection Hd0' as <-.
  destruct Hinv as [[_ H2] _]. apply H2 in Hd0. congruence.
Qed.

(** ** The [ObjectRef] constructor *)

Lemma ObjectRef_new_cached fuel o b i :
  refs_ b !! o = Some i ->
  mode_ b = kSerialized /\ FLAG_strict_heap_broker flag = true
  \/ mode_ b = kDisabled
  \/ SerializingAllowed flag b = true ->
  ObjectRef_new' fuel o b = Ok {| data_ := Some i |} b.
Proof.
  intros Hi Hmode. unfold ObjectRef_new. unfold bind at 1, get.
  destruct (mode_ b) eqn:Hm.
  - unfold bind, GetData. now rewrite Hi.
  - unfold bind.
    rewrite (GetOrCreateData_cached InstanceTypeChecker_Is ODDBALL_TYPE flag
               isolate fuel o b i); [reflexivity| |exact Hi].
    unfold SerializingAllowed. now rewrite Hm.
  - destruct (FLAG_strict_heap_broker flag) eqn:Hstrict.
    + unfold bind, GetData. now rewrite Hi.
    + unfold bind.
      rewrite (GetOrCreateData_cached InstanceTypeChecker_Is ODDBALL_TYPE
                 flag isolate fuel o b i); [reflexivity| |exact Hi].
      unfold SerializingAllowed. now rewrite Hm, Hstrict.
Qed.

(** X2.  Constructing a ref a second time, in any mode and with any fuel,
    gives the same ref and leaves the broker as the first construction left
    it. *)
Theorem ObjectRef_new_idempotent fuel fuel' o b r b' :
  ObjectRef_new InstanceTypeChecker_Is ODDBALL_TYPE flag isolate fuel o b
  = Ok r b' ->
  ObjectRef_new InstanceTypeChecker_Is ODDBALL_TYPE flag isolate fuel' o b'
  = Ok r b'.
Proof.
  intros E.
  destruct (ObjectRef_new_returns _ _ _ _ _ _ _ _ _ E)
    as (Hext & _ & i & Hr & Hi).
  destruct r as [data]. cbn in Hr. subst data.
  apply ObjectRef_new_cached; [exact Hi|].
  destruct (mode_ b') eqn:Hm; [tauto| |].
  - right. right. unfold SerializingAllowed. now rewrite Hm.
  - destruct (FLAG_strict_heap_broker flag) eqn:Hstrict; [tauto|].
    right. right. unfold SerializingAllowed. now rewrite Hm, Hstrict.
Qed.

(** X3.  Once the broker is sealed (mode [kSerialized]): with the strict
    flag the constructor only looks the object up, returns the cached
    record with the broker unchanged, and is fatal for an object without a
    record; without the strict flag it falls back to creating the record,
    which succeeds on a closed and well-typed heap and keeps the broker
    sealed. *)
Theorem ObjectRef_new_sealed objects fuel o b :
  mode_ b = kSerialized ->
  (FLAG_strict_heap_broker flag = true ->
   (forall i, GetData o b = Some i ->
      ObjectRef_new' fuel o b = Ok {| data_ := Some i |} b)
   /\ (GetData o b = nullptr -> ObjectRef_new' fuel o b = Fatal))
  /\ (FLAG_strict_heap_broker flag = false ->
      canonical_scope isolate = true ->
      heap_closed isolate objects ->
      heap_well_typed InstanceTypeChecker_Is isolate objects ->
      o ∈ objects -> broker_inv' b -> unserialized objects b <= fuel ->
      exists i b',
        ObjectRef_new' fuel o b = Ok {| data_ := Some i |} b'
        /\ mode_ b' = kSerialized
        /\ GetData o b' = Some i
        /\ (GetData o b = nullptr -> zone_ b !! i = None)
        /\ broker_inv' b').
Proof.
  intros Hm. split.
  - intros Hstrict. split.
    + intros i Hi. apply ObjectRef_new_cached; [exact Hi|tauto].
    + unfold GetData, nullptr. intros Hnone.
      unfold ObjectRef_new, bind, get, ret, GetData, CHECK_NOT_NULL.
      now rewrite Hm, Hstrict, Hnone.
  - intros Hstrict Hcanon Hclosed Htyped Hin Hinv Hfuel.
    assert (Hser : SerializingAllowed flag b = true)
      by (unfold SerializingAllowed; now rewrite Hm, Hstrict).
    destruct (GetOrCreateData_succeeds InstanceTypeChecker_Is ODDBALL_TYPE
                flag isolate objects fuel o b)
      as (i & b' & E & Hext & Hi & Hinv'); auto.
    exists i, b'. split; [|split; [|split; [|split]]].
    + unfold ObjectRef_new, bind, get. rewrite Hm, Hstrict, E. reflexivity.
    + destruct Hext as (-> & _). exact Hm.
    + exact Hi.
    + unfold GetData, nullptr. intros Hnone.
      destruct (zone_ b !! i) as [d|] eqn:Hd; [|reflexivity]. exfalso.
      destruct Hinv as [[_ H2] _]. pose proof (H2 i d Hd) as Hrefs.
      destruct Hinv' as [[H1 _] _].
      destruct (H1 o i Hi) as (d' & Hd' & Hobj).
      rewrite (extends_zone b b' i d Hext Hd) in Hd'. injection Hd' as <-.
      congruence.
    + exact Hinv'.
Qed.

(** X4.  In mode [kDisabled] the constructor never serializes: given a
    canonical handle scope it returns for every object, whatever the fuel
    and whatever the heap looks like; for an object without a record it
    allocates exactly one record, with [is_smi] read from the live object
    and with no type, map or other member, and for an object with a record
    it changes nothing. *)
Theorem ObjectRef_new_disabled fuel o b :
  mode_ b = kDisabled -> canonical_scope isolate = true ->
  (forall i, GetData o b = Some i ->
     ObjectRef_new' fuel o b = Ok {| data_ := Some i |} b)
  /\ (GetData o b = nullptr ->
      ObjectRef_new' fuel o b
      = Ok {| data_ := Some (length (zone_ b)) |}
           {| refs_ := <[o := length (zone_ b)]> (refs_ b);
              mode_ := kDisabled;
              zone_ := zone_ b
                       ++ [ObjectData_members o (Object_IsSmi isolate o)] |}).
Proof.
  intros Hm Hcanon. split.
  - intros i Hi. apply ObjectRef_new_cached; [exact Hi|tauto].
  - unfold GetData, nullptr. intros Hnone.
    unfold ObjectRef_new, ObjectData_new, AddData, bind, get, ret, GetData,
      CHECK, CHECK_NOT_NULL.
    rewrite Hm, Hnone, Hcanon. cbn. now rewrite Hnone, Hm.
Qed.

(** ** Smis and the [Is##Name] checks *)

(** X5.  Serializing a smi allocates one base record and nothing else:
    no type, no map, no nested call (one unit of fuel is enough, whatever
    the heap).  On that record [IsSmi] is true, every [Is##Name] is false,
    every [As##Name] is fatal and the oddball type is [kNone]. *)
Theorem GetOrCreateData_smi fuel o b :
  Object_IsSmi isolate o = true ->
  SerializingAllowed flag b = true ->
  canonical_scope isolate = true ->
  GetData o b = nullptr ->
  exists b',
    GetOrCreateData' (S fuel) o b = Ok (Some (length (zone_ b))) b'
    /\ zone_ b' = zone_ b ++ [ObjectData_members o true]
    /\ refs_ b' = <[o := length (zone_ b)]> (refs_ b)
    /\ ObjectRef_IsSmi {| data_ := Some (length (zone_ b)) |} b'
       = Ok true b'
    /\ ObjectRef_oddball_type' {| data_ := Some (length (zone_ b)) |} b'
       = Ok kNone b'
    /\ forall name,
         ObjectRef_Is' name {| data_ := Some (length (zone_ b)) |} b'
         = Ok false b'
         /\ As name (Some (length (zone_ b))) b' = Fatal.
Proof.
  unfold GetData, nullptr. intros Hsmi Hser Hcanon Hnone.
  exists (with_new_record b o (ObjectData_members o true)).
  assert (Hmode : mode_ b <> kDisabled)
    by (eapply SerializingAllowed_not_disabled; eassumption).
  split; [|split; [reflexivity|split; [reflexivity|]]].
  - cbn [GetOrCreateData].
    unfold ObjectData_Serialize, ObjectData_new, AddData, bind, get, ret,
      GetData, CHECK, CHECK_NOT_NULL.
    rewrite Hser. cbn. rewrite Hnone, Hser, Hsmi, Hcanon. cbn.
    now rewrite Hnone.
  - unfold ObjectRef_IsSmi, ObjectRef_oddball_type, ObjectRef_IsSmi,
      ObjectRef_Is, ObjectData_As, ObjectData_Is, bind, deref, get, ret,
      CHECK.
    cbn [data_ zone_ with_new_record mode_].
    rewrite list_lookup_middle by reflexivity. cbn.
    split; [reflexivity|]. split; [reflexivity|].
    intros name. destruct (mode_ b) eqn:Hm; [congruence| |]; cbn;
      rewrite !list_lookup_middle by reflexivity; cbn; now rewrite Hm.
Qed.

(** X6.  With a snapshot in place (mode not [kDisabled]) and the
    broker's invariant, what the facade says about the kind of an object
    is what the live heap said when the object was serialized: [IsSmi] is
    the live [IsSmi], and [Is##Name] is false for a smi and otherwise
    [InstanceTypeChecker::Is##Name] of the instance type of the object's
    map.  No answer changes the broker. *)
Theorem ObjectRef_Is_snapshot name o i b :
  broker_inv' b -> mode_ b <> kDisabled -> GetData o b = Some i ->
  ObjectRef_IsSmi {| data_ := Some i |} b = Ok (Object_IsSmi isolate o) b
  /\ ObjectRef_Is' name {| data_ := Some i |} b
     = Ok (negb (Object_IsSmi isolate o)
           && InstanceTypeChecker_Is name
                (Map_instance_type isolate (HeapObject_map isolate o))) b.
Proof.
  unfold GetData. intros [[H1 _] Ht] Hmode Hi.
  destruct (H1 o i Hi) as (d & Hd & Hobj).
  destruct (Ht Hmode o i d Hi Hd) as [Hsmi Htype].
  unfold ObjectRef_IsSmi, ObjectRef_Is, ObjectData_Is, bind, deref, get, ret.
  cbn [data_]. rewrite Hd, Hsmi. split; [reflexivity|].
  destruct (mode_ b); [congruence| |]; cbn;
    (destruct (Object_IsSmi isolate o); [reflexivity|];
     now rewrite Htype).
Qed.

Lemma snapshot_IsSmi o i b :
  broker_inv' b -> mode_ b <> kDisabled -> refs_ b !! o = Some i ->
  ObjectRef_IsSmi {| data_ := Some i |} b = Ok (Object_IsSmi isolate o) b.
Proof.
  intros [[H1 _] Ht] Hmode Hi.
  destruct (H1 o i Hi) as (d & Hd & Hobj).
  destruct (Ht Hmode o i d Hi Hd) as [Hsmi _].
  unfold ObjectRef_IsSmi, bind, deref, ret. cbn [data_].
  now rewrite Hd, Hsmi.
Qed.

Lemma snapshot_type o i b :
  broker_inv' b -> mode_ b <> kDisabled -> refs_ b !! o = Some i ->
  Object_IsSmi isolate o = false ->
  InstanceTypeChecker_Is HeapObjectData
    (Map_instance_type isolate (HeapObject_map isolate o)) = true ->
  HeapObjectRef_type' {| data_ := Some i |} b
  = Ok (Some (TypeFromMap (HeapObject_map isolate o))) b.
Proof.
  intros [[H1 _] Ht] Hmode Hi Hsmi Hheap.
  destruct (H1 o i Hi) as (d & Hd & Hobj).
  destruct (Ht Hmode o i d Hi Hd) as [Hs Htype].
  specialize (Htype Hsmi). rewrite Hsmi in Hs.
  assert (Hn : narrows_to' HeapObjectData (Some i) b).
  { split; [assumption|].
    exists i, d, (TypeFromMap (HeapObject_map isolate o)).
    repeat split; assumption. }
  unfold HeapObjectRef_type. unfold bind at 1, get.
  destruct (mode_ b) eqn:Hm; [congruence| |]; cbn [BrokerMode_eqb];
    (unfold bind at 1; cbn [data_];
     rewrite (ObjectData_As_narrows _ _ _ _ _ Hn);
     unfold bind, deref, ret; now rewrite Hd, Htype).
Qed.

Lemma snapshot_oddball_type o i b :
  broker_inv' b -> mode_ b <> kDisabled -> refs_ b !! o = Some i ->
  (Object_IsSmi isolate o = true ->
   ObjectRef_oddball_type' {| data_ := Some i |} b = Ok kNone b)
  /\ (Object_IsSmi isolate o = false ->
      InstanceTypeChecker_Is HeapObjectData
        (Map_instance_type isolate (HeapObject_map isolate o)) = true ->
      ObjectRef_oddball_type' {| data_ := Some i |} b
      = Ok (oddball_type (TypeFromMap (HeapObject_map isolate o))) b).
Proof.
  intros Hinv Hmode Hi.
  pose proof (snapshot_IsSmi o i b Hinv Hmode Hi) as Hs.
  unfold ObjectRef_oddball_type. unfold bind at 1 3. rewrite Hs.
  split; intros Hsmi; rewrite Hsmi; [reflexivity|].
  intros Hheap. unfold ObjectRef_As, bind. cbn [data_].
  now rewrite (snapshot_type o i b Hinv Hmode Hi Hsmi Hheap).
Qed.

(** X7.  [HeapObjectRef::type] and [ObjectRef::oddball_type] give the
    same answer from a snapshot as from the live heap: for the record of a
    heap object, with a snapshot in place, they return the type computed
    from the object's map and its oddball type, which is what the
    [kDisabled] branch computes from the live object; for the record of a
    smi the oddball type is [kNone]. *)
Theorem HeapObjectRef_type_snapshot o i b :
  broker_inv' b -> GetData o b = Some i ->
  (mode_ b <> kDisabled -> Object_IsSmi isolate o = false ->
   InstanceTypeChecker_Is HeapObjectData
     (Map_instance_type isolate (HeapObject_map isolate o)) = true ->
   HeapObjectRef_type' {| data_ := Some i |} b
   = Ok (Some (TypeFromMap (HeapObject_map isolate o))) b
   /\ ObjectRef_oddball_type' {| data_ := Some i |} b
      = Ok (oddball_type (TypeFromMap (HeapObject_map isolate o))) b)
  /\ (mode_ b <> kDisabled -> Object_IsSmi isolate o = true ->
      ObjectRef_oddball_type' {| data_ := Some i |} b = Ok kNone b)
  /\ (mode_ b = kDisabled ->
      HeapObjectRef_type' {| data_ := Some i |} b
      = Ok (Some (TypeFromMap (HeapObject_map isolate o))) b).
Proof.
  unfold GetData. intros Hinv Hi. split; [|split].
  - intros Hmode Hsmi Hheap. split.
    + now apply snapshot_type.
    + now apply (snapshot_oddball_type o i b Hinv Hmode Hi).
  - intros Hmode Hsmi.
    now apply (snapshot_oddball_type o i b Hinv Hmode Hi).
  - intros Hm. destruct Hinv as [[H1 _] _].
    destruct (H1 o i Hi) as (d & Hd & Hobj).
    unfold HeapObjectRef_type, ObjectRef_object, bind, get, deref, ret.
    rewrite Hm. cbn. now rewrite Hd, Hobj.
Qed.

(** ** A finished snapshot *)

Local Abbreviation edges_resolved' := (edges_resolved isolate).
Local Abbreviation new_resolved := (new_records_resolved isolate).
Local Abbreviation constructing := (under_construction ODDBALL_TYPE isolate).
Local Abbreviation returns := (returns_record_of ODDBALL_TYPE isolate).
(** The records allocated after [this] are complete. *)
Local Abbreviation above this b :=
  (forall p, this < p -> edges_resolved' b p).

Lemma edges_resolved_extends b b' p :
  extends b b' -> p < length (zone_ b) ->
  edges_resolved' b p -> edges_resolved' b' p.
Proof.
  intros Hext Hp Hres d Hd Htype.
  apply lookup_lt_is_Some in Hp as [d0 Hd0].
  pose proof (extends_zone _ _ _ _ Hext Hd0) as Hd0'.
  rewrite Hd in Hd0'. injection Hd0' as <-.
  destruct (Hres d Hd0 Htype) as (Hm & Hs & Hc). cbn zeta.
  split; [|split].
  - destruct Hm as (m & Hm & Hr). exists m.
    split; [assumption|]. eapply extends_refs; eassumption.
  - intros Hf. destruct (Hs Hf) as (m & Hm' & Hr). exists m.
    split; [assumption|]. eapply extends_refs; eassumption.
  - intros Hf Hn. destruct (Hc Hf Hn) as (m & Hm' & Hr). exists m.
    split; [assumption|]. eapply extends_refs; eassumption.
Qed.

Lemma edges_resolved_with_record b this d' p :
  p <> this -> edges_resolved' b p ->
  edges_resolved' (with_record b this d') p.
Proof.
  intros Hne Hres d Hd. cbn in Hd.
  rewrite list_lookup_insert_ne in Hd by congruence.
  exact (Hres d Hd).
Qed.

Lemma edges_resolved_beyond b p :
  length (zone_ b) <= p -> edges_resolved' b p.
Proof.
  intros Hp d Hd. apply lookup_lt_Some in Hd. lia.
Qed.

Section Constructors.

Variable rec : Address -> M ObjectDataPtr.
Hypothesis rec_spec : forall o b,
  broker_inv' b ->
  wp True True (rec o) b
    (fun data b' => returns o b data b' /\ new_resolved b b').

Lemma wp_rec_resolved o o' b0 this b
  (Q : ObjectDataPtr -> JSHeapBroker -> Prop) :
  broker_inv' b0 -> constructing o b0 this b -> above this b ->
  (forall i b', constructing o b0 this b' -> extends b b' ->
                refs_ b' !! o' = Some i -> above this b' -> Q (Some i) b') ->
  wp True True (rec o') b Q.
Proof.
  intros Hinv0 Hc Hab HQ.
  eapply wp_mono; [apply rec_spec; apply Hc, Hinv0|].
  intros data b' [(Hext & (i & -> & Hi) & Hinv') Hnew]. apply HQ; auto.
  - eapply constructing_extends; eauto.
  - intros p Hp.
    destruct (Nat.lt_ge_cases p (length (zone_ b))) as [Hlt|Hge].
    + eapply edges_resolved_extends; eauto.
    + now apply Hnew.
Qed.

Lemma HeapObjectData_ctor_resolved o t b :
  broker_inv' b -> refs_ b !! o = None ->
  Object_IsSmi isolate o = false ->
  t = TypeFromMap (HeapObject_map isolate o) ->
  wp True True
    (HeapObjectData_ctor InstanceTypeChecker_Is flag isolate rec o t) b
    (fun this b' => constructing o b this b'
                    /\ map_resolved isolate o this b' /\ above this b').
Proof.
  intros Hinv Ho Hsmi ->. unfold HeapObjectData_ctor.
  apply wp_bind, wp_ObjectData_new; [now left|exact Ho|].
  apply wp_bind, wp_init_member; [now left|].
  intros d Hd. rewrite zone_with_new_record in Hd. injection Hd as <-.
  rewrite with_record_new.
  set (this := length (zone_ b)).
  set (d1 := set_type _ (ObjectData_members o false)).
  assert (Hc1 : constructing o b this (with_new_record b o d1))
    by (apply constructing_new; auto).
  assert (Hz1 : zone_ (with_new_record b o d1) !! this = Some d1)
    by apply zone_with_new_record.
  assert (Hab1 : above this (with_new_record b o d1)).
  { intros p Hp. apply edges_resolved_beyond. cbn.
    rewrite length_app. cbn. fold this. lia. }
  apply wp_bind.
  eapply wp_rec_resolved; [exact Hinv|exact Hc1|exact Hab1|].
  intros i b2 Hc2 Hext2 Hi Hab2.
  assert (Hz2 : zone_ b2 !! this = Some d1) by (eapply extends_zone; eauto).
  apply wp_bind, wp_ObjectData_As; [now left|]. intros _.
  apply wp_bind, wp_init_member; [now left|].
  intros d Hd. rewrite Hz2 in Hd. injection Hd as <-.
  set (b3 := with_record b2 this (set_map (Some i) d1)).
  assert (Hc3 : constructing o b this b3)
    by (eapply constructing_init; eauto).
  assert (Hz3 : zone_ b3 !! this = Some (set_map (Some i) d1))
    by (eapply zone_with_record; eauto).
  apply wp_bind. unfold HeapObjectData_body.
  apply wp_bind, wp_deref; [now left|].
  intros j d [= <-] Hd. rewrite Hz3 in Hd. injection Hd as <-.
  apply wp_bind, wp_CHECK_NOT_NULL; [now left|]. intros _.
  apply wp_bind, wp_get. apply wp_CHECK; [now left|].
  intros _. apply wp_ret. split; [exact Hc3|]. split.
  - exists (set_map (Some i) d1), i. auto.
  - intros p Hp. apply edges_resolved_with_record; [lia|auto].
Qed.

Lemma JSFunctionData_ctor_resolved o t b :
  broker_inv' b -> refs_ b !! o = None ->
  Object_IsSmi isolate o = false ->
  t = TypeFromMap (HeapObject_map isolate o) ->
  wp True True
    (JSFunctionData_ctor InstanceTypeChecker_Is flag isolate rec o t) b
    (fun this b' => constructing o b this b'
                    /\ map_resolved isolate o this b'
                    /\ shared_resolved isolate o this b'
                    /\ above this b').
Proof.
  intros Hinv Ho Hsmi Ht. unfold JSFunctionData_ctor.
  apply wp_bind.
  eapply wp_mono; [now apply HeapObjectData_ctor_resolved|].
  intros this b1 (Hc1 & Hm1 & Hab1). cbn beta.
  apply wp_bind.
  eapply wp_rec_resolved; [exact Hinv|exact Hc1|exact Hab1|].
  intros i b2 Hc2 Hext2 Hi Hab2.
  assert (Hm2 : map_resolved isolate o this b2)
    by (eapply map_resolved_extends; eauto).
  apply wp_bind, wp_ObjectData_As; [now left|]. intros _.
  destruct Hm2 as (d2 & m & Hz2 & Hmap & Hrm).
  apply wp_bind, wp_init_member; [now left|].
  intros d Hd. rewrite Hz2 in Hd. injection Hd as <-.
  set (b3 := with_record b2 this (set_shared (Some i) d2)).
  assert (Hc3 : constructing o b this b3)
    by (eapply constructing_init; eauto).
  assert (Hz3 : zone_ b3 !! this = Some (set_shared (Some i) d2))
    by (eapply zone_with_record; eauto).
  apply wp_bind. unfold JSFunctionData_body.
  apply wp_bind, wp_deref; [now left|].
  intros j d [= <-] Hd. rewrite Hz3 in Hd. injection Hd as <-.
  apply wp_CHECK_NOT_NULL; [now left|]. intros _.
  apply wp_ret. split; [exact Hc3|]. split; [|split].
  - exists (set_shared (Some i) d2), m. auto.
  - exists (set_shared (Some i) d2), i. auto.
  - intros p Hp. apply edges_resolved_with_record; [lia|auto].
Qed.

Lemma NativeContextData_ctor_resolved o t b :
  broker_inv' b -> refs_ b !! o = None ->
  Object_IsSmi isolate o = false ->
  t = TypeFromMap (HeapObject_map isolate o) ->
  wp True True
    (NativeContextData_ctor InstanceTypeChecker_Is flag isolate rec o t) b
    (fun this b' => constructing o b this b'
                    /\ map_resolved isolate o this b'
                    /\ sloppy_arguments_map_resolved isolate o this b'
                    /\ above this b').
Proof.
  intros Hinv Ho Hsmi Ht. unfold NativeContextData_ctor.
  apply wp_bind.
  eapply wp_mono; [now apply HeapObjectData_ctor_resolved|].
  intros this b1 (Hc1 & Hm1 & Hab1). cbn beta.
  destruct (Hm1) as (d1 & m & Hz1 & Hmap & Hrm).
  apply wp_bind, wp_init_member; [now left|].
  intros d Hd. rewrite Hz1 in Hd. injection Hd as <-.
  set (b2 := with_record b1 this (set_sloppy_arguments_map_ nullptr d1)).
  assert (Hc2 : constructing o b this b2)
    by (eapply constructing_init; eauto).
  assert (Hm2 : map_resolved isolate o this b2)
    by (eapply map_resolved_init; eauto).
  assert (Hab2 : above this b2)
    by (intros p Hp; apply edges_resolved_with_record; [lia|auto]).
  apply wp_bind, wp_CHECK; [now left|]. intros _.
  apply wp_bind, wp_get. apply wp_bind, wp_CHECK; [now left|].
  intros _. apply wp_bind.
  eapply wp_rec_resolved; [exact Hinv|exact Hc2|exact Hab2|].
  intros i b3 Hc3 Hext3 Hi Hab3.
  assert (Hm3 : map_resolved isolate o this b3)
    by (eapply map_resolved_extends; eauto).
  apply wp_bind, wp_ObjectData_As; [now left|]. intros _.
  destruct (Hm3) as (d3 & m3 & Hz3 & Hmap3 & Hrm3).
  apply wp_bind, wp_init_member; [now left|].
  intros d Hd. rewrite Hz3 in Hd. injection Hd as <-.
  set (b4 := with_record b3 this (set_sloppy_arguments_map_ (Some i) d3)).
  assert (Hc4 : constructing o b this b4)
    by (eapply constructing_init; eauto).
  assert (Hm4 : map_resolved isolate o this b4)
    by (eapply map_resolved_init; eauto).
  assert (Hz4 : zone_ b4 !! this
                = Some (set_sloppy_arguments_map_ (Some i) d3))
    by (eapply zone_with_record; eauto).
  apply wp_bind, wp_deref; [now left|].
  intros j d [= <-] Hd. rewrite Hz4 in Hd. injection Hd as <-.
  apply wp_bind, wp_CHECK_NOT_NULL; [now left|]. intros _.
  apply wp_ret. split; [exact Hc4|]. split; [exact Hm4|]. split.
  - exists (set_sloppy_arguments_map_ (Some i) d3), i. auto.
  - intros p Hp. apply edges_resolved_with_record; [lia|auto].
Qed.

(** The record under construction is complete once its constructor has
    returned. *)
Lemma constructed_resolved o b this b' :
  broker_inv' b -> constructing o b this b' ->
  map_resolved isolate o this b' ->
  (Object_Is isolate JSFunctionData o = true ->
   shared_resolved isolate o this b') ->
  (Object_Is isolate JSFunctionData o = false ->
   Object_Is isolate NativeContextData o = true ->
   sloppy_arguments_map_resolved isolate o this b') ->
  above this b' ->
  new_resolved b b'.
Proof.
  intros Hinv Hc Hm Hs Hn Hab p Hp.
  destruct Hc as (Hthis & Ho & Hext & Hrefs & Hinv').
  destruct (decide (p = this)) as [->|Hne]; [|apply Hab; lia].
  intros d Hd Htype. cbn zeta.
  destruct (Hinv' Hinv) as [[H1 _] _].
  destruct (H1 o this Hrefs) as (d' & Hd' & Hobj).
  rewrite Hd in Hd'. injection Hd' as <-. rewrite Hobj.
  split; [|split].
  - destruct Hm as (d' & m & Hd' & Hmap & Hr).
    rewrite Hd in Hd'. injection Hd' as <-. eauto.
  - intros Hf. destruct (Hs Hf) as (d' & m & Hd' & Hmap & Hr).
    rewrite Hd in Hd'. injection Hd' as <-. eauto.
  - intros Hf Hctx. destruct (Hn Hf Hctx) as (d' & m & Hd' & Hmap & Hr).
    rewrite Hd in Hd'. injection Hd' as <-. eauto.
Qed.

Lemma ObjectData_Serialize_resolved o b :
  broker_inv' b -> refs_ b !! o = None ->
  wp True True
    (ObjectData_Serialize InstanceTypeChecker_Is ODDBALL_TYPE flag isolate
       rec o) b
    (fun data b' => returns o b data b' /\ new_resolved b b').
Proof.
  intros Hinv Ho. unfold ObjectData_Serialize.
  apply wp_bind, wp_get. apply wp_bind, wp_CHECK; [now left|].
  intros _. destruct (Object_IsSmi isolate o) eqn:Hsmi.
  - apply wp_bind, wp_ObjectData_new; [now left|exact Ho|].
    apply wp_ret. split.
    + apply returns_constructing, constructing_new; auto.
      rewrite Hsmi. discriminate.
    + intros p Hp d Hd. cbn in Hd. apply lookup_app_Some in Hd.
      destruct Hd as [Hd|[_ Hd]];
        [apply lookup_lt_Some in Hd; lia|].
      destruct (p - length (zone_ b)) as [|k]; [|destruct k; discriminate].
      cbn in Hd. injection Hd as <-. now cbn.
  - unfold HeapObjectData_Serialize.
    apply wp_bind, wp_get. apply wp_bind, wp_CHECK; [now left|].
    intros _. apply wp_bind, wp_ret. apply wp_bind, wp_ret. apply wp_bind.
    destruct (Object_Is isolate JSFunctionData o) eqn:Hfun;
      [|destruct (Object_Is isolate NativeContextData o) eqn:Hctx].
    + eapply wp_mono; [now apply JSFunctionData_ctor_resolved|].
      intros this b' (Hc & Hm & Hs & Hab). apply wp_ret.
      split; [now apply returns_constructing|].
      eapply constructed_resolved; eauto. rewrite Hfun. discriminate.
    + eapply wp_mono; [now apply NativeContextData_ctor_resolved|].
      intros this b' (Hc & Hm & Hs & Hab). apply wp_ret.
      split; [now apply returns_constructing|].
      eapply constructed_resolved; eauto. rewrite Hfun. discriminate.
    + eapply wp_mono; [now apply HeapObjectData_ctor_resolved|].
      intros this b' (Hc & Hm & Hab). apply wp_ret.
      split; [now apply returns_constructing|].
      eapply constructed_resolved; eauto.
      * rewrite Hfun. discriminate.
      * rewrite Hctx. discriminate.
Qed.

End Constructors.

Lemma GetOrCreateData_resolved fuel : forall o b,
  broker_inv' b ->
  wp True True (GetOrCreateData' fuel o) b
    (fun data b' => returns o b data b' /\ new_resolved b b').
Proof.
  induction fuel as [|fuel IH]; intros o b Hinv;
    cbn [GetOrCreateData];
    (apply wp_bind, wp_get; apply wp_bind, wp_CHECK; [now left|];
     intros _; apply wp_bind, wp_get; apply wp_bind;
     unfold GetData; destruct (refs_ b !! o) as [i|] eqn:Ho;
     [apply wp_ret, wp_bind, wp_CHECK_NOT_NULL; [now left|]; intros _;
      apply wp_ret; split;
      [split; [apply extends_refl|]; split; eauto
      |intros p Hp; now apply edges_resolved_beyond]|]).
  - exact I.
  - eapply wp_mono; [now apply ObjectData_Serialize_resolved|].
    intros data b' Hret. cbn beta.
    apply wp_bind, wp_CHECK_NOT_NULL; [now left|].
    intros _. now apply wp_ret.
Qed.

Lemma snapshot_complete_extends b b' :
  extends b b' -> new_resolved b b' ->
  snapshot_complete isolate b -> snapshot_complete isolate b'.
Proof.
  intros Hext Hnew Hb p.
  destruct (Nat.lt_ge_cases p (length (zone_ b))) as [Hlt|Hge].
  - eapply edges_resolved_extends; eauto.
  - now apply Hnew.
Qed.

Lemma GetOrCreateData_complete fuel o b data b' :
  broker_inv' b -> snapshot_complete isolate b ->
  GetOrCreateData' fuel o b = Ok data b' ->
  snapshot_complete isolate b'.
Proof.
  intros Hinv Hb E.
  pose proof (GetOrCreateData_resolved fuel o b Hinv) as H.
  unfold wp in H. rewrite E in H. destruct H as [(Hext & _) Hnew].
  eapply snapshot_complete_extends; eauto.
Qed.

Lemma snapshot_complete_new : snapshot_complete isolate (JSHeapBroker_new flag).
Proof. intros p d [=]. Qed.

Lemma ObjectRef_new_complete fuel o b r b' :
  broker_inv' b -> snapshot_complete isolate b ->
  ObjectRef_new' fuel o b = Ok r b' ->
  snapshot_complete isolate b'.
Proof.
  intros Hinv Hb E.
  assert (H : wp True True (ObjectRef_new' fuel o) b
                (fun _ b' => snapshot_complete isolate b')).
  { unfold ObjectRef_new. apply wp_bind, wp_get. apply wp_bind.
    assert (Hcached : forall i,
      wp True True (ret (Some i)) b (fun a b1 =>
        wp True True (CHECK_NOT_NULL a;;; ret {| data_ := a |}) b1
          (fun _ b' => snapshot_complete isolate b'))).
    { intros i. apply wp_ret, wp_bind, wp_CHECK_NOT_NULL; [now left|].
      intros _. now apply wp_ret. }
    assert (Hcreate :
      wp True True (GetOrCreateData' fuel o) b (fun a b1 =>
        wp True True (CHECK_NOT_NULL a;;; ret {| data_ := a |}) b1
          (fun _ b' => snapshot_complete isolate b'))).
    { eapply wp_mono; [now apply GetOrCreateData_resolved|].
      intros a b1 [(Hext & _) Hnew].
      apply wp_bind, wp_CHECK_NOT_NULL; [now left|]. intros _.
      apply wp_ret. eapply snapshot_complete_extends; eauto. }
    destruct (mode_ b) eqn:Hmode.
    - unfold GetData. destruct (refs_ b !! o) as [i|] eqn:Ho;
        [now apply Hcached|].
      apply wp_bind, wp_ObjectData_new; [now left|exact Ho|].
      apply wp_ret, wp_bind, wp_CHECK_NOT_NULL; [now left|]. intros _.
      apply wp_ret.
      apply (snapshot_complete_extends b);
        [now apply extends_with_new_record| |exact Hb].
      intros p Hp d Hd. cbn in Hd. apply lookup_app_Some in Hd.
      destruct Hd as [Hd|[_ Hd]]; [apply lookup_lt_Some in Hd; lia|].
      destruct (p - length (zone_ b)) as [|k]; [|destruct k; discriminate].
      cbn in Hd. injection Hd as <-. now cbn.
    - exact Hcreate.
    - destruct (FLAG_strict_heap_broker flag); [|exact Hcreate].
      unfold GetData. destruct (refs_ b !! o) as [i|] eqn:Ho;
        [now apply Hcached|].
      apply wp_ret, wp_bind, wp_CHECK_NOT_NULL; [now left|].
      intros [? [=]]. }
  unfold wp in H. now rewrite E in H.
Qed.

(** X8.  Every record of a heap object in the zone is complete, and
    stays so: the fresh broker has no record, and whenever
    [GetOrCreateData] or the [ObjectRef] constructor returns, in any mode,
    every record that has a type has its [map] member set to the record
    that the cache holds for the map of its object; the record of a
    function has, in addition, [shared] set to the record of the
    function's shared function info, and the record of a native context
    [sloppy_arguments_map_] set to the record of that map. *)
Theorem snapshot_stays_complete :
  snapshot_complete isolate (JSHeapBroker_new flag)
  /\ (forall fuel o b data b',
        broker_inv' b -> snapshot_complete isolate b ->
        GetOrCreateData' fuel o b = Ok data b' ->
        snapshot_complete isolate b')
  /\ (forall fuel o b r b',
        broker_inv' b -> snapshot_complete isolate b ->
        ObjectRef_new' fuel o b = Ok r b' ->
        snapshot_complete isolate b').
Proof.
  split; [exact snapshot_complete_new|].
  split; [exact GetOrCreateData_complete|exact ObjectRef_new_complete].
Qed.

(** ** The accessors on a finished snapshot *)

Lemma snapshot_record o i b :
  broker_inv' b -> mode_ b <> kDisabled -> refs_ b !! o = Some i ->
  Object_IsSmi isolate o = false ->
  exists d, zone_ b !! i = Some d /\ ObjectData_object d = o
    /\ ObjectData_is_smi d = false
    /\ HeapObjectData_type d
       = Some (TypeFromMap (HeapObject_map isolate o)).
Proof.
  intros [[H1 _] Ht] Hmode Hi Hsmi.
  destruct (H1 o i Hi) as (d & Hd & Hobj).
  destruct (Ht Hmode o i d Hi Hd) as [Hs Htype].
  exists d. rewrite Hs, Hsmi. auto.
Qed.

Lemma snapshot_narrows name o i b :
  broker_inv' b -> mode_ b <> kDisabled -> refs_ b !! o = Some i ->
  Object_IsSmi isolate o = false ->
  InstanceTypeChecker_Is name
    (Map_instance_type isolate (HeapObject_map isolate o)) = true ->
  narrows_to' name (Some i) b.
Proof.
  intros Hinv Hmode Hi Hsmi Hname.
  destruct (snapshot_record o i b Hinv Hmode Hi Hsmi)
    as (d & Hd & Hobj & Hs & Htype).
  split; [assumption|].
  exists i, d, (TypeFromMap (HeapObject_map isolate o)). auto.
Qed.

Lemma snapshot_read {A} name (member : ObjectData -> A) i b d :
  narrows_to' name (Some i) b -> zone_ b !! i = Some d ->
  bind (As name (Some i))
    (fun data => bind (deref data) (fun d => ret (member d))) b
  = Ok (member d) b.
Proof.
  intros Hn Hd. unfold bind at 1.
  rewrite (ObjectData_As_narrows _ _ _ _ _ Hn).
  unfold bind, deref, ret. now rewrite Hd.
Qed.

Lemma snapshot_mode {A} (live snapshot : M A) b :
  mode_ b <> kDisabled ->
  bind get (fun b0 => if BrokerMode_eqb (mode_ b0) kDisabled
                      then live else snapshot) b
  = snapshot b.
Proof.
  intros Hmode. unfold bind, get.
  destruct (mode_ b); [congruence|reflexivity..].
Qed.

(** X9.  On a complete snapshot (mode not [kDisabled]) the accessors
    that answer from the records lead to the same objects as the live
    heap: for the ref of a heap object [o], [HeapObjectRef::map] returns
    the ref of the record of [o]'s live map; for a function,
    [JSFunctionRef::shared] returns the ref of the record of its live
    shared function info; for a native context,
    [NativeContextRef::sloppy_arguments_map] returns the ref of the record
    of its live sloppy arguments map.  None of them changes the broker or
    needs fuel. *)
Theorem accessors_follow_live_edges fuel o i b :
  broker_inv' b -> snapshot_complete isolate b ->
  mode_ b <> kDisabled -> GetData o b = Some i ->
  Object_IsSmi isolate o = false ->
  (InstanceTypeChecker_Is HeapObjectData
     (Map_instance_type isolate (HeapObject_map isolate o)) = true ->
   exists m,
     HeapObjectRef_map InstanceTypeChecker_Is ODDBALL_TYPE flag isolate fuel
       {| data_ := Some i |} b = Ok {| data_ := Some m |} b
     /\ GetData (HeapObject_map isolate o) b = Some m)
  /\ (InstanceTypeChecker_Is JSFunctionData
        (Map_instance_type isolate (HeapObject_map isolate o)) = true ->
      Object_Is isolate JSFunctionData o = true ->
      exists s,
        JSFunctionRef_shared InstanceTypeChecker_Is ODDBALL_TYPE flag isolate
          fuel {| data_ := Some i |} b = Ok {| data_ := Some s |} b
        /\ GetData (JSFunction_shared isolate o) b = Some s)
  /\ (InstanceTypeChecker_Is NativeContextData
        (Map_instance_type isolate (HeapObject_map isolate o)) = true ->
      Object_Is isolate JSFunctionData o = false ->
      Object_Is isolate NativeContextData o = true ->
      exists m,
        NativeContextRef_sloppy_arguments_map InstanceTypeChecker_Is
          ODDBALL_TYPE flag isolate fuel {| data_ := Some i |} b
        = Ok {| data_ := Some m |} b
        /\ GetData (Context_sloppy_arguments_map isolate o) b = Some m).
Proof.
  unfold GetData. intros Hinv Hcomplete Hmode Hi Hsmi.
  destruct (snapshot_record o i b Hinv Hmode Hi Hsmi)
    as (d & Hd & Hobj & Hs & Htype).
  destruct (Hcomplete i d Hd) as (Hm & Hshared & Hsloppy);
    [congruence|].
  cbn zeta in Hm, Hshared, Hsloppy. rewrite Hobj in Hm, Hshared, Hsloppy.
  split; [|split].
  - intros Hname. destruct Hm as (m & Hmap & Hr). exists m.
    split; [|exact Hr].
    unfold HeapObjectRef_map. rewrite snapshot_mode by assumption.
    cbn [data_].
    rewrite (snapshot_read HeapObjectData
               (fun d => {| data_ := HeapObjectData_map d |}) i b d);
      [now rewrite Hmap| |exact Hd].
    now apply (snapshot_narrows HeapObjectData o).
  - intros Hname Hfun. destruct (Hshared Hfun) as (m & Hmap & Hr). exists m.
    split; [|exact Hr].
    unfold JSFunctionRef_shared. rewrite snapshot_mode by assumption.
    cbn [data_].
    rewrite (snapshot_read JSFunctionData
               (fun d => {| data_ := JSFunctionData_shared d |}) i b d);
      [now rewrite Hmap| |exact Hd].
    now apply (snapshot_narrows JSFunctionData o).
  - intros Hname Hfun Hctx.
    destruct (Hsloppy Hfun Hctx) as (m & Hmap & Hr). exists m.
    split; [|exact Hr].
    unfold NativeContextRef_sloppy_arguments_map.
    rewrite snapshot_mode by assumption. cbn [data_].
    rewrite (snapshot_read NativeContextData
               (fun d => {| data_ :=
                              NativeContextData_sloppy_arguments_map_ d |})
               i b d);
      [now rewrite Hmap| |exact Hd].
    now apply (snapshot_narrows NativeContextData o).
Qed.

(** ** [SerializeStandardObjects] *)
Section StandardObjects.

Variable roots : StandardObjects.

Local Abbreviation SerializeStandardObjects' :=
  (SerializeStandardObjects InstanceTypeChecker_Is ODDBALL_TYPE flag isolate
     roots).
Local Abbreviation GetOrCreateData_seq' fuel :=
  (GetOrCreateData_seq (GetOrCreateData' fuel)).

(** The function is the sequence of the seven calls, results dropped. *)
Lemma SerializeStandardObjects_seq fuel b :
  SerializeStandardObjects' fuel b
  = match GetOrCreateData_seq' fuel (standard_objects roots) b with
    | Ok _ b' => Ok tt b'
    | Fatal => Fatal
    | OutOfFuel => OutOfFuel
    end.
Proof.
  unfold SerializeStandardObjects, standard_objects.
  cbn [GetOrCreateData_seq]. unfold bind, ret.
  repeat match goal with
         | |- context [GetOrCreateData' fuel ?o ?b0] =>
             destruct (GetOrCreateData' fuel o b0); try reflexivity
         end.
Qed.

Lemma GetOrCreateData_seq_keeps fuel os : forall b datas b',
  GetOrCreateData_seq' fuel os b = Ok datas b' ->
  broker_inv' b ->
  broker_inv' b'
  /\ (snapshot_complete isolate b -> snapshot_complete isolate b').
Proof.
  induction os as [|o os IH]; intros b datas b'; cbn [GetOrCreateData_seq].
  - intros [= <- <-]. auto.
  - unfold bind at 1.
    destruct (GetOrCreateData' fuel o b) as [data b1| |] eqn:E1;
      [|discriminate..].
    unfold bind at 1.
    destruct (GetOrCreateData_seq' fuel os b1) as [rest b2| |] eqn:E2;
      [|discriminate..].
    intros [= <- <-] Hinv.
    pose proof (GetOrCreateData_returns _ _ _ _ _ _ _ _ _ E1)
      as (_ & _ & Hinv1).
    destruct (IH _ _ _ E2 (Hinv1 Hinv)) as [Hinv2 Hc2].
    split; [exact Hinv2|].
    intros Hc. apply Hc2.
    exact (GetOrCreateData_complete fuel o b data b1 Hinv Hc E1).
Qed.

Lemma GetOrCreateData_seq_cached fuel os : forall b,
  SerializingAllowed flag b = true ->
  (forall o, o ∈ os -> is_Some (refs_ b !! o)) ->
  exists datas, GetOrCreateData_seq' fuel os b = Ok datas b.
Proof.
  induction os as [|o os IH]; intros b Hser Hall; cbn [GetOrCreateData_seq].
  - now exists [].
  - destruct (Hall o) as [i Hi]; [left|].
    destruct (IH b Hser) as (rest & E2).
    { intros o' Ho'. apply Hall. now right. }
    exists (Some i :: rest). unfold bind.
    rewrite (GetOrCreateData_cached _ _ _ _ _ _ _ _ Hser Hi). now rewrite E2.
Qed.

(** X10.  [SerializeStandardObjects]: it is fatal when serializing is not
    allowed (mode [kDisabled], or sealed under the strict flag); whenever
    it returns, the mode is unchanged, each of the seven standard objects
    has a record, every entry the cache had is kept, the invariant and the
    completeness of the snapshot are preserved, and running it again
    changes nothing; on a closed and well-typed heap that holds the
    standard objects, and while serializing is allowed, it returns. *)
Theorem SerializeStandardObjects_spec objects fuel b :
  (SerializingAllowed flag b = false ->
   SerializeStandardObjects' fuel b = Fatal)
  /\ (forall b', SerializeStandardObjects' fuel b = Ok tt b' ->
        mode_ b' = mode_ b
        /\ (forall o, o ∈ standard_objects roots -> is_Some (GetData o b'))
        /\ (forall h p, GetData h b = Some p -> GetData h b' = Some p)
        /\ (broker_inv' b ->
            broker_inv' b'
            /\ (snapshot_complete isolate b -> snapshot_complete isolate b'))
        /\ forall fuel', SerializeStandardObjects' fuel' b' = Ok tt b')
  /\ (canonical_scope isolate = true ->
      heap_closed isolate objects ->
      heap_well_typed InstanceTypeChecker_Is isolate objects ->
      (forall o, o ∈ standard_objects roots -> o ∈ objects) ->
      SerializingAllowed flag b = true -> broker_inv' b ->
      unserialized objects b <= fuel ->
      exists b', SerializeStandardObjects' fuel b = Ok tt b').
Proof.
  split; [|split].
  - intros Hser. unfold SerializeStandardObjects. unfold bind at 1.
    destruct fuel; cbn [GetOrCreateData]; unfold bind, get, CHECK;
      now rewrite Hser.
  - intros b'. rewrite SerializeStandardObjects_seq.
    destruct (GetOrCreateData_seq' fuel (standard_objects roots) b)
      as [datas b1| |] eqn:E; [|discriminate..].
    intros [= <-].
    destruct (GetOrCreateData_seq_returns _ _ _ _ _ _ _ _ _ E)
      as (Hext & Hser & Hrec).
    assert (Hall : forall o, o ∈ standard_objects roots ->
                     is_Some (refs_ b1 !! o)).
    { intros o Ho. apply list_elem_of_lookup_1 in Ho as [k Hk].
      destruct (Hrec k o Hk) as (i & _ & Hi). eauto. }
    split; [apply Hext|]. split; [exact Hall|].
    split; [intros h p; now apply extends_refs|].
    split; [exact (GetOrCreateData_seq_keeps fuel _ b datas b1 E)|].
    intros fuel'. rewrite SerializeStandardObjects_seq.
    destruct (GetOrCreateData_seq_cached fuel' (standard_objects roots) b1)
      as (datas' & ->); [|exact Hall|reflexivity].
    rewrite (SerializingAllowed_mode flag b b1); [|apply Hext].
    apply Hser. discriminate.
  - intros Hcanon Hclosed Htyped Hin Hser Hinv Hfuel.
    destruct (GetOrCreateData_seq_succeeds InstanceTypeChecker_Is
                ODDBALL_TYPE flag isolate objects fuel
                (standard_objects roots) b)
      as (datas & b' & E & _); auto.
    exists b'. rewrite SerializeStandardObjects_seq. now rewrite E.
Qed.

End StandardObjects.

(** ** [OddballToNumber] *)
Section Oddballs.

Variable true_value : Address.

Local Abbreviation OddballToNumber :=
  (ObjectRef_OddballToNumber InstanceTypeChecker_Is ODDBALL_TYPE flag isolate
     true_value).


End Oddballs.

End Facts.

(** ** The facts on the sample heaps *)

Lemma sample_snapshot_inv :
  broker_inv sample_ODDBALL_TYPE (sample_isolate 3) sample_snapshot_broker
  /\ snapshot_complete (sample_isolate 3) sample_snapshot_broker.
Proof.
  assert (E : GetOrCreateData_seq
                (GetOrCreateData sample_InstanceTypeChecker_Is
                   sample_ODDBALL_TYPE (sample_flags true) (sample_isolate 3)
                   10)
                (standard_objects sample_roots)
                (JSHeapBroker_new (sample_flags true))
              = Ok [Some 0; Some 3; Some 4; Some 5; Some 6; Some 7; Some 7]
                   sample_snapshot_broker)
    by (vm_compute; reflexivity).
  destruct (GetOrCreateData_seq_keeps _ _ _ _ _ _ _ _ _ E) as [Hinv Hc].
  - apply broker_inv_new.
  - split; [exact Hinv|]. apply Hc, snapshot_complete_new.
Qed.

Lemma sample_snapshot_mode : mode_ sample_snapshot_broker <> kDisabled.
Proof. discriminate. Qed.

Lemma sample_oddball_mode : mode_ sample_oddball_broker <> kDisabled.
Proof. discriminate. Qed.

Lemma sample_oddball_inv :
  broker_inv sample_ODDBALL_TYPE sample_oddball_isolate sample_oddball_broker.
Proof.
  assert (E : GetOrCreateData_seq
                (GetOrCreateData sample_InstanceTypeChecker_Is
                   sample_ODDBALL_TYPE (sample_flags true)
                   sample_oddball_isolate 10)
                [51; 50; 52; 53; 60]%N (JSHeapBroker_new (sample_flags true))
              = Ok [Some 0; Some 3; Some 4; Some 6; Some 8]
                   sample_oddball_broker)
    by (vm_compute; reflexivity).
  apply (GetOrCreateData_seq_keeps _ _ _ _ _ _ _ _ _ E), broker_inv_new.
Qed.

Lemma broker_inv_empty ODDBALL_TYPE isolate mode :
  broker_inv ODDBALL_TYPE isolate {| refs_ := ∅; mode_ := mode; zone_ := [] |}.
Proof.
  split; [split|].
  - intros h p Hp. exfalso. exact (lookup_empty_Some (M := gmap Address) h p Hp).
  - intros p d [=].
  - intros _ h p d Hp. exfalso.
    exact (lookup_empty_Some (M := gmap Address) h p Hp).
Qed.

(** Serializing the string 31 on top of the sample snapshot: the record 7
    of the function 20 is still cached, and the string gets the new record
    9. *)
Lemma GetOrCreateData_frame_witness :
  exists data b',
    GetOrCreateData sample_InstanceTypeChecker_Is sample_ODDBALL_TYPE
      (sample_flags true) (sample_isolate 3) 10 31%N sample_snapshot_broker
    = Ok data b'
    /\ mode_ b' = kSerializing
    /\ GetData 20%N b' = Some 7
    /\ GetData 31%N b' = Some 9.
Proof.
  edestruct (GetOrCreateData_frame sample_InstanceTypeChecker_Is
               sample_ODDBALL_TYPE (sample_flags true) (sample_isolate 3)
               10 31%N sample_snapshot_broker)
    as (Hmode & Hkept & _);
    [apply sample_snapshot_inv|vm_compute; reflexivity|].
  eexists _, _. split; [vm_compute; reflexivity|].
  split; [exact Hmode|]. split; [apply Hkept|]; reflexivity.
Defined.

(** A second ref for the string 30, made without fuel. *)
Lemma ObjectRef_new_idempotent_witness :
  exists r b',
    ObjectRef_new sample_InstanceTypeChecker_Is sample_ODDBALL_TYPE
      (sample_flags true) (sample_isolate 3) 10 30%N
      (JSHeapBroker_new (sample_flags true)) = Ok r b'
    /\ ObjectRef_new sample_InstanceTypeChecker_Is sample_ODDBALL_TYPE
         (sample_flags true) (sample_isolate 3) 0 30%N b' = Ok r b'.
Proof.
  eexists _, _. split; [vm_compute; reflexivity|].
  apply (ObjectRef_new_idempotent sample_InstanceTypeChecker_Is
           sample_ODDBALL_TYPE (sample_flags true) (sample_isolate 3)
           10 0 30%N (JSHeapBroker_new (sample_flags true))).
  vm_compute. reflexivity.
Defined.

(** The function 20 and a sealed broker without records: fatal with the
    strict flag, created without it. *)
Lemma ObjectRef_new_sealed_witness :
  ObjectRef_new sample_InstanceTypeChecker_Is sample_ODDBALL_TYPE
    (sample_flags true) (sample_isolate 3) 10 20%N
    sample_empty_sealed_broker = Fatal
  /\ exists i b',
       ObjectRef_new sample_InstanceTypeChecker_Is sample_ODDBALL_TYPE
         (sample_flags false) (sample_isolate 3) 10 20%N
         sample_empty_sealed_broker = Ok {| data_ := Some i |} b'
       /\ mode_ b' = kSerialized.
Proof.
  split.
  - apply (ObjectRef_new_sealed sample_InstanceTypeChecker_Is
             sample_ODDBALL_TYPE (sample_flags true) (sample_isolate 3)
             sample_objects 10 20%N sample_empty_sealed_broker);
      reflexivity.
  - destruct (ObjectRef_new_sealed sample_InstanceTypeChecker_Is
                sample_ODDBALL_TYPE (sample_flags false) (sample_isolate 3)
                sample_objects 10 20%N sample_empty_sealed_broker eq_refl)
      as [_ Hlenient].
    destruct Hlenient as (i & b' & E & Hmode & _).
    + reflexivity.
    + reflexivity.
    + apply sample_heap_closed.
    + apply sample_heap_well_typed.
    + apply sample_function_object.
    + apply broker_inv_empty.
    + apply (sample_unserialized (sample_flags true)).
    + exists i, b'. split; assumption.
Defined.

(** In mode [kDisabled] a ref for the function 20 gets a plain record,
    without fuel. *)
Lemma ObjectRef_new_disabled_witness :
  ObjectRef_new sample_InstanceTypeChecker_Is sample_ODDBALL_TYPE
    (sample_flags true) (sample_isolate 3) 0 20%N sample_disabled_broker
  = Ok {| data_ := Some 1 |}
       {| refs_ := <[20%N := 1]> (refs_ sample_disabled_broker);
          mode_ := kDisabled;
          zone_ := zone_ sample_disabled_broker
                   ++ [ObjectData_members 20%N false] |}.
Proof.
  apply (ObjectRef_new_disabled sample_InstanceTypeChecker_Is
           sample_ODDBALL_TYPE (sample_flags true) (sample_isolate 3)
           0 20%N sample_disabled_broker); reflexivity.
Defined.

(** The smi 1, serialized with one unit of fuel. *)
Lemma GetOrCreateData_smi_witness :
  exists b',
    GetOrCreateData sample_InstanceTypeChecker_Is sample_ODDBALL_TYPE
      (sample_flags true) (sample_isolate 3) 1 1%N
      (JSHeapBroker_new (sample_flags true)) = Ok (Some 0) b'
    /\ zone_ b' = [ObjectData_members 1%N true].
Proof.
  destruct (GetOrCreateData_smi sample_InstanceTypeChecker_Is
              sample_ODDBALL_TYPE (sample_flags true) (sample_isolate 3)
              0 1%N (JSHeapBroker_new (sample_flags true)))
    as (b' & E & Hzone & _); [reflexivity..|].
  exists b'. split; assumption.
Defined.

(** In the sample snapshot the record 6 of the string 30 is a string and
    not a map. *)
Lemma ObjectRef_Is_snapshot_witness :
  ObjectRef_Is sample_InstanceTypeChecker_Is (sample_isolate 3) StringData
    {| data_ := Some 6 |} sample_snapshot_broker
  = Ok true sample_snapshot_broker
  /\ ObjectRef_Is sample_InstanceTypeChecker_Is (sample_isolate 3) MapData
       {| data_ := Some 6 |} sample_snapshot_broker
     = Ok false sample_snapshot_broker.
Proof.
  split.
  - apply (ObjectRef_Is_snapshot sample_InstanceTypeChecker_Is
             sample_ODDBALL_TYPE (sample_isolate 3) StringData 30%N 6
             sample_snapshot_broker);
      [apply sample_snapshot_inv|apply sample_snapshot_mode|reflexivity].
  - apply (ObjectRef_Is_snapshot sample_InstanceTypeChecker_Is
             sample_ODDBALL_TYPE (sample_isolate 3) MapData 30%N 6
             sample_snapshot_broker);
      [apply sample_snapshot_inv|apply sample_snapshot_mode|reflexivity].
Defined.

(** The type of the string 30, from the sample snapshot. *)
Lemma HeapObjectRef_type_snapshot_witness :
  HeapObjectRef_type sample_InstanceTypeChecker_Is sample_ODDBALL_TYPE
    (sample_isolate 3) {| data_ := Some 6 |} sample_snapshot_broker
  = Ok (Some sample_string_type) sample_snapshot_broker.
Proof.
  destruct (HeapObjectRef_type_snapshot sample_InstanceTypeChecker_Is
              sample_ODDBALL_TYPE (sample_isolate 3) 30%N 6
              sample_snapshot_broker)
    as (Hsnapshot & _); [apply sample_snapshot_inv|reflexivity|].
  destruct Hsnapshot as [Htype _];
    [apply sample_snapshot_mode|reflexivity|reflexivity|].
  exact Htype.
Defined.

(** Serializing the string 31 on top of the sample snapshot keeps it
    complete. *)
Lemma snapshot_stays_complete_witness :
  exists data b',
    GetOrCreateData sample_InstanceTypeChecker_Is sample_ODDBALL_TYPE
      (sample_flags true) (sample_isolate 3) 10 31%N sample_snapshot_broker
    = Ok data b'
    /\ snapshot_complete (sample_isolate 3) b'.
Proof.
  eexists _, _. split; [vm_compute; reflexivity|].
  apply (proj1 (proj2 (snapshot_stays_complete sample_InstanceTypeChecker_Is
                         sample_ODDBALL_TYPE (sample_flags true)
                         (sample_isolate 3)))
           10 31%N sample_snapshot_broker (Some 9));
    [apply sample_snapshot_inv|apply sample_snapshot_inv
    |vm_compute; reflexivity].
Defined.

(** In the sample snapshot the function 20 has the record 7; its [shared]
    is the record of the shared function info 21, its [map] the record of
    the map 11. *)
Lemma accessors_follow_live_edges_witness :
  exists m s,
    HeapObjectRef_map sample_InstanceTypeChecker_Is sample_ODDBALL_TYPE
      (sample_flags true) (sample_isolate 3) 0 {| data_ := Some 7 |}
      sample_snapshot_broker
    = Ok {| data_ := Some m |} sample_snapshot_broker
    /\ GetData 11%N sample_snapshot_broker = Some m
    /\ JSFunctionRef_shared sample_InstanceTypeChecker_Is sample_ODDBALL_TYPE
         (sample_flags true) (sample_isolate 3) 0 {| data_ := Some 7 |}
         sample_snapshot_broker
       = Ok {| data_ := Some s |} sample_snapshot_broker
    /\ GetData 21%N sample_snapshot_broker = Some s.
Proof.
  destruct (accessors_follow_live_edges sample_InstanceTypeChecker_Is
              sample_ODDBALL_TYPE (sample_flags true) (sample_isolate 3)
              0 20%N 7 sample_snapshot_broker)
    as (Hmap & Hshared & _);
    [apply sample_snapshot_inv|apply sample_snapshot_inv
    |apply sample_snapshot_mode|reflexivity|reflexivity|].
  destruct Hmap as (m & Em & Hm); [reflexivity|].
  destruct Hshared as (s & Es & Hs); [reflexivity|reflexivity|].
  exists m, s. auto.
Defined.

(** The standard objects of the sample heap: serialized from a fresh
    broker, and once more without fuel. *)
Lemma SerializeStandardObjects_spec_witness :
  exists b',
    SerializeStandardObjects sample_InstanceTypeChecker_Is sample_ODDBALL_TYPE
      (sample_flags true) (sample_isolate 3) sample_roots 10
      (JSHeapBroker_new (sample_flags true)) = Ok tt b'
    /\ SerializeStandardObjects sample_InstanceTypeChecker_Is
         sample_ODDBALL_TYPE (sample_flags true) (sample_isolate 3)
         sample_roots 0 b' = Ok tt b'.
Proof.
  destruct (SerializeStandardObjects_spec sample_InstanceTypeChecker_Is
              sample_ODDBALL_TYPE (sample_flags true) (sample_isolate 3)
              sample_roots sample_objects 10
              (JSHeapBroker_new (sample_flags true)))
    as (_ & Hreturns & Hsucceeds).
  destruct Hsucceeds as (b' & E).
  - reflexivity.
  - apply sample_heap_closed.
  - apply sample_heap_well_typed.
  - intros o Ho. unfold sample_objects. apply elem_of_list_to_set.
    repeat (apply elem_of_cons in Ho; destruct Ho as [->|Ho]);
      [..|now apply elem_of_nil in Ho];
      repeat (first [left; reflexivity | right]).
  - reflexivity.
  - apply broker_inv_new.
  - apply sample_unserialized.
  - exists b'. split; [exact E|]. apply (Hreturns b' E).
Defined.


End BrokerMoreFacts.

(** * More facts about the fast-literal analysis *)
Module FastLiteralMoreFacts.
Import FastLiteral FastLiteralMore FastLiteralFacts.

Section Facts.

Variable kMaxRegularHeapObjectSize : Z.
Variable kMaxInObjectProperties : Z.
Variable heap : Heap.

Local Abbreviation Helper :=
  (IsFastLiteralHelper kMaxRegularHeapObjectSize heap).
Local Abbreviation check_elements' :=
  (check_elements kMaxRegularHeapObjectSize heap).
Local Abbreviation literal_size' :=
  (literal_size heap kMaxRegularHeapObjectSize).

(** *** Failure of a nested object *)

Lemma Helper_nested_failure d o c :
  nested_in heap o c ->
  (forall st, fst (Helper d c st) = false) ->
  forall st, fst (Helper (S d) o st) = false.
Proof.
  intros [Hobj Hin] Hrec st. cbn [IsFastLiteralHelper].
  destruct (negb (JSObject_TryMigrateInstance heap o)); [reflexivity|].
  destruct Hin as [(Hcow & Hkind & i & Hi & Hget)|(i & Hi & Hloc & Hunb & Hv)].
  - assert (He : fst (check_elements' (Helper d) o
                        (log (kTryMigrateInstance o) st)) = false).
    { unfold check_elements.
      replace (Z.ltb 0 _) with true by (symmetry; apply Z.ltb_lt; lia).
      replace (N.eqb _ _) with false by (symmetry; now apply N.eqb_neq).
      cbn [andb negb]. rewrite Hkind.
      apply elements_loop_failing_child with (c := c); auto.
      exists i. split; [lia|assumption]. }
    destruct (check_elements' _ _ _) as [ok st']. cbn in He. now subst ok.
  - destruct (check_elements' _ _ _) as [[|] st']; [|reflexivity].
    unfold check_properties.
    destruct (negb _); [reflexivity|].
    apply properties_loop_failing_child with (c := c); auto.
    exists i. repeat split; try assumption; lia.
Qed.

Lemma Helper_out_of_object d o st :
  JSObject_HasFastProperties heap o = false
  \/ JSObject_property_array_length heap o <> 0%Z ->
  fst (Helper d o st) = false.
Proof.
  intros Hout. destruct d as [|d];
    [now rewrite Helper_depth_exhausted|].
  cbn [IsFastLiteralHelper].
  destruct (negb (JSObject_TryMigrateInstance heap o)); [reflexivity|].
  destruct (check_elements' _ _ _) as [[|] st']; [|reflexivity].
  unfold check_properties.
  replace (JSObject_HasFastProperties heap o
           && Z.eqb (JSObject_property_array_length heap o) 0) with false;
    [reflexivity|].
  symmetry. destruct Hout as [->|Hne]; [reflexivity|].
  apply Z.eqb_neq in Hne. rewrite Hne. apply andb_false_r.
Qed.

(** X12.  An object that keeps properties outside the object (dictionary
    properties, or a property array that is not empty) is not a fast
    literal, and neither is any boilerplate from which the helper's walk
    (elements it reads, in-object fields it follows) leads to such an
    object: whatever the depth limit and the budget, the helper returns
    false. *)
Theorem IsFastLiteralHelper_out_of_object_properties o c :
  rtc (nested_in heap) o c ->
  JSObject_HasFastProperties heap c = false
  \/ JSObject_property_array_length heap c <> 0%Z ->
  (forall d st, fst (Helper d o st) = false)
  /\ (forall site, AllocationSite_boilerplate heap site = o ->
        IsFastLiteral kMaxRegularHeapObjectSize kMaxInObjectProperties heap
          site = false).
Proof.
  intros Hreach Hout.
  assert (Hfail : forall d st, fst (Helper d o st) = false).
  { induction Hreach as [c|o c' c Hin _ IH].
    - intros d st. now apply Helper_out_of_object.
    - specialize (IH Hout). intros [|d] st.
      + now rewrite Helper_depth_exhausted.
      + apply Helper_nested_failure with (c := c'); auto. }
  split; [exact Hfail|].
  intros site <-. unfold IsFastLiteral. apply Hfail.
Qed.

(** X13.  The elements of a boilerplate whose backing store is neither empty
    nor copy-on-write and does not hold smis or objects: a store of doubles
    larger than [kMaxRegularHeapObjectSize] makes the helper return false,
    and so does a store of any other kind; a store of doubles within the
    limit is accepted after one look at its size, with the budget
    untouched, whatever its length. *)
Theorem IsFastLiteralHelper_double_elements d o st :
  (0 < FixedArrayBase_length heap (JSObject_elements heap o))%Z ->
  HeapObject_map heap (JSObject_elements heap o)
  <> fixed_cow_array_map heap ->
  JSObject_HasSmiOrObjectElements heap o = false ->
  (JSObject_HasDoubleElements heap o = false ->
   fst (Helper d o st) = false)
  /\ (JSObject_HasDoubleElements heap o = true ->
      (kMaxRegularHeapObjectSize
       < FixedArrayBase_Size heap (JSObject_elements heap o))%Z ->
      fst (Helper d o st) = false)
  /\ (JSObject_HasDoubleElements heap o = true ->
      (FixedArrayBase_Size heap (JSObject_elements heap o)
       <= kMaxRegularHeapObjectSize)%Z ->
      JSObject_TryMigrateInstance heap o = true ->
      Helper (S d) o st
      = check_properties heap (Helper d) o
          (log (kElementsSize (JSObject_elements heap o))
             (log (kTryMigrateInstance o) st))).
Proof.
  intros Hlen Hcow Hkind.
  assert (Hel : forall rec st0,
    check_elements' rec o st0
    = if JSObject_HasDoubleElements heap o then
        if Z.gtb (FixedArrayBase_Size heap (JSObject_elements heap o))
                 kMaxRegularHeapObjectSize
        then (false, log (kElementsSize (JSObject_elements heap o)) st0)
        else (true, log (kElementsSize (JSObject_elements heap o)) st0)
      else (false, st0)).
  { intros rec st0. unfold check_elements.
    replace (Z.ltb 0 _) with true by (symmetry; apply Z.ltb_lt; lia).
    replace (N.eqb _ _) with false by (symmetry; now apply N.eqb_neq).
    cbn [andb negb]. now rewrite Hkind. }
  assert (Hfail :
    (forall rec st0, fst (check_elements' rec o st0) = false) ->
    fst (Helper d o st) = false).
  { intros Hf. destruct d as [|d'];
      [now rewrite Helper_depth_exhausted|].
    cbn [IsFastLiteralHelper].
    destruct (negb (JSObject_TryMigrateInstance heap o)); [reflexivity|].
    specialize (Hf (Helper d') (log (kTryMigrateInstance o) st)).
    destruct (check_elements' _ _ _) as [ok st1]. cbn in Hf. now subst ok. }
  split; [|split].
  - intros Hdouble. apply Hfail. intros rec st0. rewrite Hel.
    now rewrite Hdouble.
  - intros Hdouble Hsize. apply Hfail. intros rec st0. rewrite Hel.
    rewrite Hdouble.
    replace (Z.gtb _ _) with true; [reflexivity|].
    symmetry. apply Z.gtb_lt. lia.
  - intros Hdouble Hsize Hmigrate. cbn [IsFastLiteralHelper].
    rewrite Hmigrate. cbn [negb]. rewrite Hel, Hdouble.
    replace (Z.gtb _ _) with false; [reflexivity|].
    symmetry. rewrite Z.gtb_ltb. apply Z.ltb_ge. lia.
Qed.

(** *** The budget stays in range *)

Local Abbreviation in_range r st :=
  ((Z.le (-1)%Z (max_properties (snd r))
    /\ Z.le (max_properties (snd r)) (max_properties st))
   /\ (fst r = true -> Z.le 0%Z (max_properties (snd r)))).

Section Range.

Variable rec : Address -> State -> bool * State.
Hypothesis rec_in_range : forall c st,
  (0 <= max_properties st)%Z -> in_range (rec c st) st.

Lemma elements_loop_in_range arr n : forall i st,
  (0 <= max_properties st)%Z ->
  in_range (elements_loop heap rec arr n i st) st.
Proof.
  induction n as [|n IH]; intros i st Hpos; cbn [elements_loop].
  - cbn. lia.
  - destruct (Z.eqb_spec (max_properties st) 0) as [Hz|Hnz].
    + cbn. split; [lia|discriminate].
    + assert (Hpos1 : (0 <= max_properties
                              (log (kElementsGet arr i) (decrement st)))%Z)
        by (cbn; lia).
      assert (Hdec : max_properties (log (kElementsGet arr i) (decrement st))
                     = (max_properties st - 1)%Z) by reflexivity.
      goal_if.
      * pose proof (rec_in_range (FixedArray_get heap arr i) _ Hpos1)
          as [Hr1 Hr2].
        destruct (rec _ _) as [[|] st']; cbn in Hr1, Hr2.
        -- specialize (Hr2 eq_refl).
           destruct (IH (i + 1)%Z st' Hr2) as [H1 H2]. split; [lia|exact H2].
        -- cbn. split; [lia|discriminate].
      * destruct (IH (i + 1)%Z _ Hpos1) as [H1 H2]. split; [lia|exact H2].
Qed.

Lemma properties_loop_in_range o n : forall i st,
  (0 <= max_properties st)%Z ->
  in_range (properties_loop heap rec o n i st) st.
Proof.
  induction n as [|n IH]; intros i st Hpos; cbn [properties_loop].
  - cbn. lia.
  - goal_if; [now apply IH|].
    destruct (Z.eqb_spec (max_properties st) 0) as [Hz|Hnz].
    + cbn. split; [lia|discriminate].
    + match goal with
      | |- context [log ?e (decrement st)] =>
          assert (Hpos1 : (0 <= max_properties (log e (decrement st)))%Z)
            by (cbn; lia);
          assert (Hdec : max_properties (log e (decrement st))
                         = (max_properties st - 1)%Z) by reflexivity
      end.
      goal_if;
        [destruct (IH (i + 1)%Z _ Hpos1) as [H1 H2]; split; [lia|exact H2]|].
      goal_if;
        [|destruct (IH (i + 1)%Z _ Hpos1) as [H1 H2]; split; [lia|exact H2]].
      match goal with
      | |- context [rec ?c ?s] =>
          pose proof (rec_in_range c s Hpos1) as [Hr1 Hr2]
      end.
      destruct (rec _ _) as [[|] st']; cbn in Hr1, Hr2.
      * specialize (Hr2 eq_refl).
        destruct (IH (i + 1)%Z st' Hr2) as [H1 H2]. split; [lia|exact H2].
      * cbn. split; [lia|discriminate].
Qed.

End Range.

Lemma Helper_in_range d : forall o st,
  (0 <= max_properties st)%Z -> in_range (Helper d o st) st.
Proof.
  induction d as [|d IH]; intros o st Hpos.
  - rewrite Helper_depth_exhausted. cbn. split; [lia|discriminate].
  - cbn [IsFastLiteralHelper].
    goal_if; [cbn; split; [lia|discriminate]|].
    assert (Hel : in_range (check_elements' (Helper d) o
                              (log (kTryMigrateInstance o) st))
                           (log (kTryMigrateInstance o) st)).
    { unfold check_elements.
      goal_if; [|cbn; lia].
      goal_if; [now apply elements_loop_in_range|].
      goal_if; [|cbn; split; [lia|discriminate]].
      goal_if; cbn; [split; [lia|discriminate]|lia]. }
    destruct (check_elements' _ _ _) as [[|] st1]; cbn in Hel.
    + destruct Hel as [He1 He2]. specialize (He2 eq_refl).
      unfold check_properties.
      goal_if; [cbn; split; [lia|discriminate]|].
      destruct (properties_loop_in_range (Helper d) IH o
                  (Z.to_nat (Map_NumberOfOwnDescriptors heap
                               (HeapObject_map heap o))) 0%Z st1 He2)
        as [H1 H2].
      split; [lia|exact H2].
    + cbn. split; [lia|discriminate].
Qed.

(** X14.  Started with a budget that is not negative, the helper never takes
    the budget below -1 and never raises it; it returns true only with a
    budget that is not negative, so a budget of -1 always comes with the
    answer false.  The [int] behind [max_properties] therefore never
    wraps. *)
Theorem IsFastLiteralHelper_budget_range d o st :
  (0 <= max_properties st)%Z ->
  let r := IsFastLiteralHelper kMaxRegularHeapObjectSize heap d o st in
  (-1 <= max_properties (snd r) <= max_properties st)%Z
  /\ (fst r = true -> (0 <= max_properties (snd r))%Z)
  /\ (max_properties (snd r) = (-1)%Z -> fst r = false).
Proof.
  intros Hpos. cbn zeta. destruct (Helper_in_range d o st Hpos) as [H1 H2].
  split; [exact H1|]. split; [exact H2|].
  intros Hm. destruct (fst (Helper d o st)); [|reflexivity].
  specialize (H2 eq_refl). lia.
Qed.

(** *** A larger depth limit or budget *)
Section SizeMono.

Variables rec_size1 rec_size2 : Address -> option Z.
Hypothesis rec_size_mono : forall c k,
  rec_size1 c = Some k -> rec_size2 c = Some k.

Lemma value_size_mono value k :
  value_size heap rec_size1 value = Some k ->
  value_size heap rec_size2 value = Some k.
Proof.
  unfold value_size. destruct (Object_IsJSObject heap value); auto.
Qed.

Lemma count_one_mono (value1 value2 rest1 rest2 : option Z) k :
  (forall v, value1 = Some v -> value2 = Some v) ->
  (forall r, rest1 = Some r -> rest2 = Some r) ->
  count_one value1 rest1 = Some k -> count_one value2 rest2 = Some k.
Proof.
  intros Hv Hr. destruct value1 as [v|]; [|discriminate].
  destruct rest1 as [r|]; [|discriminate].
  now rewrite (Hv v eq_refl), (Hr r eq_refl).
Qed.

Lemma elements_size_mono arr n : forall i k,
  elements_size heap rec_size1 arr n i = Some k ->
  elements_size heap rec_size2 arr n i = Some k.
Proof.
  induction n as [|n IH]; intros i k; cbn [elements_size]; [auto|].
  apply count_one_mono; [apply value_size_mono|apply IH].
Qed.

Lemma properties_size_mono o n : forall i k,
  properties_size heap rec_size1 o n i = Some k ->
  properties_size heap rec_size2 o n i = Some k.
Proof.
  induction n as [|n IH]; intros i k; cbn [properties_size]; [auto|].
  goal_if; [apply IH|].
  apply count_one_mono; [|apply IH].
  intros v. goal_if; [auto|apply value_size_mono].
Qed.

Lemma object_size_mono o k :
  object_size heap kMaxRegularHeapObjectSize rec_size1 o = Some k ->
  object_size heap kMaxRegularHeapObjectSize rec_size2 o = Some k.
Proof.
  unfold object_size. goal_if; [discriminate|].
  destruct (object_elements_size _ _ rec_size1 o) as [e|] eqn:He;
    [|discriminate].
  destruct (object_properties_size _ rec_size1 o) as [p|] eqn:Hp;
    [|discriminate].
  intros [= <-].
  assert (He2 : object_elements_size heap kMaxRegularHeapObjectSize
                  rec_size2 o = Some e).
  { revert He. unfold object_elements_size.
    goal_if; [|auto]. goal_if; [apply elements_size_mono|auto]. }
  assert (Hp2 : object_properties_size heap rec_size2 o = Some p).
  { revert Hp. unfold object_properties_size.
    goal_if; [discriminate|apply properties_size_mono]. }
  now rewrite He2, Hp2.
Qed.

End SizeMono.

Lemma literal_size_deeper d : forall o k,
  literal_size' d o = Some k -> literal_size' (S d) o = Some k.
Proof.
  induction d as [|d IH]; intros o k; [discriminate|].
  intros H. cbn [literal_size] in H |- *.
  revert H. apply object_size_mono. exact IH.
Qed.

Lemma literal_size_le d d' o k :
  (d <= d')%nat -> literal_size' d o = Some k -> literal_size' d' o = Some k.
Proof.
  intros Hle H. induction Hle as [|d' Hle IH]; [exact H|].
  now apply literal_size_deeper.
Qed.

(** X15.  The verdict of the helper is monotone: a boilerplate it accepts
    with some depth limit and some budget it also accepts, on the same
    heap, with any larger depth limit and any larger budget, and it takes
    the same amount off the budget. *)
Theorem IsFastLiteralHelper_monotone d d' o st st' :
  (d <= d')%nat ->
  (0 <= max_properties st <= max_properties st')%Z ->
  fst (IsFastLiteralHelper kMaxRegularHeapObjectSize heap d o st) = true ->
  fst (IsFastLiteralHelper kMaxRegularHeapObjectSize heap d' o st') = true
  /\ (max_properties st'
      - max_properties
          (snd (IsFastLiteralHelper kMaxRegularHeapObjectSize heap d' o st'))
      = max_properties st
        - max_properties
            (snd (IsFastLiteralHelper kMaxRegularHeapObjectSize heap d o
                    st)))%Z.
Proof.
  intros Hd Hb Hok.
  destruct (Helper_respects_budget kMaxRegularHeapObjectSize heap d o st)
    as [H1 H2]; [lia|].
  destruct (Helper_respects_budget kMaxRegularHeapObjectSize heap d' o st')
    as [H1' H2']; [lia|].
  rewrite Hok in H1. symmetry in H1.
  destruct (literal_size' d o) as [k|] eqn:Hk; [|discriminate].
  cbn in H1. apply Z.leb_le in H1.
  pose proof (literal_size_le d d' o k Hd Hk) as Hk'.
  rewrite Hk' in H1', H2'. cbn in H1'.
  assert (Hok' : fst (Helper d' o st') = true)
    by (rewrite H1'; apply Z.leb_le; lia).
  split; [exact Hok'|].
  rewrite (H2 Hok k eq_refl), (H2' Hok' k eq_refl). lia.
Qed.

End Facts.

(** ** The facts on the sample heaps *)

(** The boilerplate 1 leads to the object 2, which has dictionary
    properties. *)
Lemma IsFastLiteralHelper_out_of_object_properties_witness :
  IsFastLiteral 1000 10 sample_dictionary_heap 0%N = false.
Proof.
  apply (IsFastLiteralHelper_out_of_object_properties 1000 10
           sample_dictionary_heap 1%N 2%N).
  - apply rtc_once. split; [reflexivity|]. right. exists 0%Z.
    repeat split. lia.
  - left. reflexivity.
  - reflexivity.
Defined.

(** Five doubles take 56 bytes: too large for a limit of 50; with a limit
    of 100 the helper goes on to the properties with its budget as it
    was. *)
Lemma IsFastLiteralHelper_double_elements_witness :
  fst (IsFastLiteralHelper 50 (sample_double_heap 5) 1 1%N
         {| max_properties := 0; trace := [] |}) = false
  /\ IsFastLiteralHelper 100 (sample_double_heap 5) 1 1%N
       {| max_properties := 0; trace := [] |}
     = check_properties (sample_double_heap 5)
         (IsFastLiteralHelper 100 (sample_double_heap 5) 0) 1%N
         {| max_properties := 0;
            trace := [kElementsSize 100%N; kTryMigrateInstance 1%N] |}.
Proof.
  split.
  - apply (IsFastLiteralHelper_double_elements 50 (sample_double_heap 5)
             1 1%N {| max_properties := 0; trace := [] |});
      [reflexivity|discriminate|reflexivity|reflexivity|reflexivity].
  - apply (IsFastLiteralHelper_double_elements 100 (sample_double_heap 5)
             0 1%N {| max_properties := 0; trace := [] |});
      [reflexivity|discriminate|reflexivity|reflexivity|discriminate
      |reflexivity].
Defined.

(** One field and a budget of 0: the budget ends at -1, the answer is
    false. *)
Lemma IsFastLiteralHelper_budget_range_witness :
  max_properties
    (snd (IsFastLiteralHelper 1000 (sample_heap 1 0 false false) 1 1%N
            {| max_properties := 0; trace := [] |})) = (-1)%Z
  /\ fst (IsFastLiteralHelper 1000 (sample_heap 1 0 false false) 1 1%N
            {| max_properties := 0; trace := [] |}) = false.
Proof.
  destruct (IsFastLiteralHelper_budget_range 1000
              (sample_heap 1 0 false false) 1 1%N
              {| max_properties := 0; trace := [] |}) as (_ & _ & H).
  - cbn. lia.
  - split; [reflexivity|]. apply H. reflexivity.
Defined.

(** Two fields: accepted with depth 1 and budget 2, hence with depth 3 and
    budget 7. *)
Lemma IsFastLiteralHelper_monotone_witness :
  fst (IsFastLiteralHelper 1000 (sample_heap 2 0 false false) 3 1%N
         {| max_properties := 7; trace := [] |}) = true.
Proof.
  apply (IsFastLiteralHelper_monotone 1000 (sample_heap 2 0 false false)
           1 3 1%N {| max_properties := 2; trace := [] |}
           {| max_properties := 7; trace := [] |}).
  - lia.
  - cbn. lia.
  - reflexivity.
Defined.

End FastLiteralMoreFacts.
